(** * Behaviour analyzer of the CCTV security system

    A shallow embedding of [backend/app/detection/behavior_analyzer.py]
    (classes [TrackedObject] and [BehaviorAnalyzer]), of the part of
    [SurveillanceSystem.process_frame] that drives it, of the list helpers
    of [ObjectDetector], and of the event handler of
    [SurveillanceSystem], followed by the properties of the tracker, of
    the behaviour classifier and of the handler.

    Conventions of the embedding.
    - Python [int] is [Z].  Detection centres and boxes are built with
      [int(...)] by the object detector, so positions are pairs of [Z] and
      squared distances are exact integers.
    - Python [float] is the kernel's binary64 type [float]: [math.sqrt],
      [+], [/] and [<] are the IEEE-754 operations of [PrimFloat].  An
      [int] that meets a [float] is converted first ([float_of_Z]), by
      rounding to the nearest binary64 number as Python does.  Python
      raises [OverflowError] when the [int] is [2^1024 - 2^970] or more;
      the embedding has an infinity there.  No such number arises from a
      detection: the detector takes the coordinates from 32-bit floats,
      which keeps every squared distance below [2^259].
    - [collections.deque(maxlen=30)] is a list, oldest entry first.
    - [tracked_objects] is a Python [dict]; its iteration order is the
      insertion order and decides ties, so it is an association list.
      [alert_cooldown] is only looked up and assigned: a [gmap].
    - Methods that mutate [self] return the new object.
    - What a handler reads from outside (the clock, the path of the saved
      image, whether the callback raises) is an argument; what it does to
      the outside is a list of outputs. *)

From Stdlib Require Import ZArith List Ascii String Bool Lia Floats DecimalString Reals Lra.
From Stdlib Require DecimalPos DecimalZ.
From stdpp Require Import gmap.

Open Scope Z_scope.

(** ** Numbers *)

(** [float(z)] for a Python [int] of any size: the binary64 number
    nearest to [z], ties to even ([binary_normalize] is the rounding of
    the IEEE-754 specification, [SF2Prim] its machine representation).
    From [2^1024 - 2^970] upwards the rounding gives an infinity where
    Python raises [OverflowError]; see the conventions above. *)
Definition float_of_Z (z : Z) : float := SF2Prim (binary_normalize prec emax z 0 false).

(** Python's [min(a, b)] and [max(a, b)] on floats: the first argument is
    kept unless the second one is strictly better. *)
Definition py_min (a b : float) : float := if (b <? a)%float then b else a.
Definition py_max (a b : float) : float := if (a <? b)%float then b else a.

(** [str(z)] as used by f-strings. *)
Definition str_of_Z (z : Z) : string := NilZero.string_of_int (Z.to_int z).

(** ** Detections *)

Definition Point : Type := Z * Z.
Definition BBox : Type := Z * Z * Z * Z.

(** The detection dictionary produced by [ObjectDetector.detect_objects];
    only the keys read by the analyzer are kept. *)
Record Detection : Type := mkDetection {
  det_class_name : string;
  det_confidence : float;
  det_bbox : BBox;
  det_center : Point
}.

(** [math.sqrt((a[0] - b[0])**2 + (a[1] - b[1])**2)] *)
Definition sq_dist (a b : Point) : Z := (a.1 - b.1) ^ 2 + (a.2 - b.2) ^ 2.
Definition euclid (a b : Point) : float := PrimFloat.sqrt (float_of_Z (sq_dist a b)).

(** ** Sequences *)

(** [deque(maxlen=n).append(x)]: the oldest entry leaves a full deque. *)
Definition deque_append {A : Type} (maxlen : nat) (dq : list A) (x : A) : list A :=
  if (length dq <? maxlen)%nat then dq ++ [x] else tail dq ++ [x].

(** [list(dq)[-n:]] *)
Definition last_n {A : Type} (n : nat) (l : list A) : list A :=
  skipn (length l - n) l.

(** ** Python dictionaries in insertion order *)

Section PyDict.
Context {V : Type}.

Definition dict_get (k : Z) (d : list (Z * V)) : option V :=
  snd <$> List.find (fun e => e.1 =? k) d.

(** [d[k] = v]: an existing key keeps its place, a new one goes last. *)
Fixpoint dict_set (k : Z) (v : V) (d : list (Z * V)) : list (Z * V) :=
  match d with
  | [] => [(k, v)]
  | (k', v') :: d' => if k' =? k then (k, v) :: d' else (k', v') :: dict_set k v d'
  end.

(** [d[k].method(...)], for a method that mutates the stored object. *)
Fixpoint dict_alter (f : V -> V) (k : Z) (d : list (Z * V)) : list (Z * V) :=
  match d with
  | [] => []
  | (k', v') :: d' => if k' =? k then (k', f v') :: d' else (k', v') :: dict_alter f k d'
  end.

(** [del d[k]] *)
Fixpoint dict_del (k : Z) (d : list (Z * V)) : list (Z * V) :=
  match d with
  | [] => []
  | (k', v') :: d' => if k' =? k then d' else (k', v') :: dict_del k d'
  end.

Definition dict_keys (d : list (Z * V)) : list Z := map fst d.
End PyDict.

(** ** Counting dictionaries *)

(** A dictionary from class names to counts, in insertion order.
    [count_incr] is [counts[k] += 1] on a [defaultdict(int)] and
    [counts[k] = counts.get(k, 0) + 1] on a plain dictionary: a key seen
    before keeps its place, a new key goes last with count 1. *)
Fixpoint count_incr (k : string) (counts : list (string * Z)) : list (string * Z) :=
  match counts with
  | [] => [(k, 1)]
  | (k', n) :: rest =>
      if String.eqb k' k then (k', n + 1) :: rest else (k', n) :: count_incr k rest
  end.

(** [counts.get(k)] *)
Definition count_get (k : string) (counts : list (string * Z)) : option Z :=
  snd <$> List.find (fun e => String.eqb e.1 k) counts.

(** ** class TrackedObject *)

Module TrackedObject.

Record t : Type := mk {
  id : Z;
  class_name : string;
  first_seen : Z;
  last_seen : Z;
  position_history : list Point;
  bbox_history : list BBox;
  total_distance : float;
  is_stationary : bool;
  stationary_frames : Z;
  suspicious_behavior : bool;
  behavior_type : option string;
  confidence : float
}.

Definition maxlen : nat := 30.

(** [TrackedObject.__init__] *)
Definition init (object_id : Z) (detection : Detection) (frame_number : Z) : t :=
  {| id := object_id;
     class_name := det_class_name detection;
     first_seen := frame_number;
     last_seen := frame_number;
     position_history := deque_append maxlen [] (det_center detection);
     bbox_history := deque_append maxlen [] (det_bbox detection);
     total_distance := 0%float;
     is_stationary := false;
     stationary_frames := 0;
     suspicious_behavior := false;
     behavior_type := None;
     confidence := 0%float |}.

(** [position_history[-1]].  Python raises [IndexError] on an empty
    deque; [init] stores one position and nothing removes the last one
    (see [track_inv] below), so the default is never returned for a
    track built by the analyzer. *)
Definition current_position (self : t) : Point :=
  List.last (position_history self) (0, 0).

(** [TrackedObject.update] *)
Definition update (self : t) (detection : Detection) (frame_number : Z) : t :=
  let prev_pos := current_position self in
  let curr_pos := det_center detection in
  let distance := euclid curr_pos prev_pos in
  let stationary := (distance <? 10)%float in
  let frames := if stationary then stationary_frames self + 1 else 0 in
  {| id := id self;
     class_name := class_name self;
     first_seen := first_seen self;
     last_seen := frame_number;
     position_history := deque_append maxlen (position_history self) curr_pos;
     bbox_history := deque_append maxlen (bbox_history self) (det_bbox detection);
     total_distance := (total_distance self + distance)%float;
     is_stationary :=
       if stationary then (if 30 <? frames then true else is_stationary self)
       else false;
     stationary_frames := frames;
     suspicious_behavior := suspicious_behavior self;
     behavior_type := behavior_type self;
     confidence := confidence self |}.

(** The loop of [get_speed]: [for i in range(1, len(recent_positions))]. *)
Definition path_length (recent_positions : list Point) : float :=
  fold_left
    (fun total_distance i =>
       let prev := nth (i - 1) recent_positions (0, 0) in
       let curr := nth i recent_positions (0, 0) in
       (total_distance + euclid curr prev)%float)
    (seq 1 (length recent_positions - 1)) 0%float.

(** [TrackedObject.get_speed] *)
Definition get_speed (self : t) : float :=
  if (length (position_history self) <? 2)%nat then 0%float
  else
    let recent_positions := last_n 10 (position_history self) in
    (path_length recent_positions
     / float_of_Z (Z.of_nat (length recent_positions) - 1))%float.

(** [TrackedObject.is_moving_fast] *)
Definition is_moving_fast (self : t) (threshold : float) : bool :=
  (threshold <? get_speed self)%float.

(** [TrackedObject.time_in_view] *)
Definition time_in_view (self : t) : Z := last_seen self - first_seen self + 1.

(** [TrackedObject.get_direction]: the unit vector from the oldest stored
    position to the newest. *)
Definition get_direction (self : t) : float * float :=
  if (length (position_history self) <? 2)%nat then (0%float, 0%float)
  else
    let start := nth 0 (position_history self) (0, 0) in
    let end_ := current_position self in
    let dx := end_.1 - start.1 in
    let dy := end_.2 - start.2 in
    let magnitude := PrimFloat.sqrt (float_of_Z (dx ^ 2 + dy ^ 2)) in
    if (0 <? magnitude)%float
    then ((float_of_Z dx / magnitude)%float, (float_of_Z dy / magnitude)%float)
    else (0%float, 0%float).

End TrackedObject.

(** ** Suspicious events *)

(** The three values of the ['behavior_type'] key. *)
Inductive BehaviorKind : Type := fast_movement | loitering | erratic_movement.

#[global] Instance BehaviorKind_eq_dec : EqDecision BehaviorKind.
Proof. solve_decision. Defined.

(** The event dictionary appended to [suspicious_events]. *)
Record Event : Type := mkEvent {
  ev_object_id : Z;
  ev_behavior_type : BehaviorKind;
  ev_confidence : float;
  ev_description : string;
  ev_position : Point;
  ev_class_name : string
}.

(** ** class BehaviorAnalyzer *)

Module BehaviorAnalyzer.

Record t : Type := mk {
  tracked_objects : list (Z * TrackedObject.t);
  next_object_id : Z;
  frame_count : Z;
  alert_cooldown : gmap Z Z
}.

Definition FAST_MOVEMENT_THRESHOLD : float := 15%float.
Definition LOITERING_THRESHOLD : Z := 150.
Definition ALERT_COOLDOWN_FRAMES : Z := 90.

(** [BehaviorAnalyzer.__init__] *)
Definition init : t :=
  {| tracked_objects := []; next_object_id := 0; frame_count := 0;
     alert_cooldown := ∅ |}.

(** One iteration of the loop of [match_detection_to_tracked] over
    [tracked_objects.items()]; the accumulator is
    [(best_match_id, best_distance)]. *)
Definition match_step (self : t) (detection : Detection)
    (best : option Z * float) (item : Z * TrackedObject.t) : option Z * float :=
  let '(obj_id, tracked_obj) := item in
  if negb (String.eqb (TrackedObject.class_name tracked_obj) (det_class_name detection))
  then best
  else if 10 <? frame_count self - TrackedObject.last_seen tracked_obj
  then best
  else
    let last_pos := TrackedObject.current_position tracked_obj in
    let distance := euclid (det_center detection) last_pos in
    if (distance <? best.2)%float then (Some obj_id, distance) else best.

(** [BehaviorAnalyzer.match_detection_to_tracked] *)
Definition match_detection_to_tracked (self : t) (detection : Detection)
    (max_distance : float) : option Z :=
  (fold_left (match_step self detection) (tracked_objects self)
             (None, max_distance)).1.

(** The body of [for detection in detections] in [update_tracks].  The
    local set [matched_ids] is carried along as the source builds it;
    nothing reads it. *)
Definition track_detection (st : t * gset Z) (detection : Detection) : t * gset Z :=
  let '(self, matched_ids) := st in
  match match_detection_to_tracked self detection 100%float with
  | Some matched_id =>
      ({| tracked_objects :=
            dict_alter (fun o => TrackedObject.update o detection (frame_count self))
                       matched_id (tracked_objects self);
          next_object_id := next_object_id self;
          frame_count := frame_count self;
          alert_cooldown := alert_cooldown self |},
       matched_ids ∪ {[matched_id]})
  | None =>
      let new_id := next_object_id self in
      ({| tracked_objects :=
            dict_set new_id (TrackedObject.init new_id detection (frame_count self))
                     (tracked_objects self);
          next_object_id := new_id + 1;
          frame_count := frame_count self;
          alert_cooldown := alert_cooldown self |},
       matched_ids ∪ {[new_id]})
  end.

(** The test of the eviction sweep. *)
Definition is_old (frame : Z) (item : Z * TrackedObject.t) : bool :=
  30 <? frame - TrackedObject.last_seen item.2.

(** The two closing loops of [update_tracks]: collect [to_remove], then
    [del] each of its keys. *)
Definition remove_old (self : t) : t :=
  let to_remove := map fst (List.filter (is_old (frame_count self)) (tracked_objects self)) in
  {| tracked_objects := fold_left (fun d obj_id => dict_del obj_id d) to_remove
                                  (tracked_objects self);
     next_object_id := next_object_id self;
     frame_count := frame_count self;
     alert_cooldown := alert_cooldown self |}.

(** [self.frame_count += 1] *)
Definition next_frame (self : t) : t :=
  {| tracked_objects := tracked_objects self;
     next_object_id := next_object_id self;
     frame_count := frame_count self + 1;
     alert_cooldown := alert_cooldown self |}.

(** The state after the matching loop, before the eviction sweep. *)
Definition match_all (self : t) (detections : list Detection) : t * gset Z :=
  fold_left track_detection detections (next_frame self, ∅).

(** [BehaviorAnalyzer.update_tracks] *)
Definition update_tracks (self : t) (detections : list Detection) : t :=
  remove_old (match_all self detections).1.

(** [math.acos(c) > math.pi / 2] for a cosine clamped to [[-1, 1]].
    [math.pi / 2] is the binary64 number [0x1.921fb54442d18p+0], which
    lies [6.1e-17] below the real [pi / 2], and [math.acos] is the [acos]
    of the C library, whose result is the binary64 number next to the
    real arc cosine.  So the test fails for every [c >= 0] and holds for
    a negative [c] once [pi / 2 - c] rounds above [math.pi / 2]; the
    largest such [c], about [-4.98e-17], is the constant below (as
    measured on glibc 2.36; a correctly rounded [acos] moves it by two
    units in its last place).  The kernel's floats have no inverse
    cosine, so the test is written as the comparison it amounts to. *)
Definition acos_gt_half_pi (cos_angle : float) : bool :=
  (cos_angle <=? -0x1.cb3b399d747f5p-55)%float.

(** The body of [for i in range(2, len(positions))] in
    [detect_erratic_movement]. *)
Definition erratic_step (positions : list Point) (direction_changes : Z) (i : nat) : Z :=
  let p0 := nth (i - 2) positions (0, 0) in
  let p1 := nth (i - 1) positions (0, 0) in
  let p2 := nth i positions (0, 0) in
  let v1 := (p1.1 - p0.1, p1.2 - p0.2) in
  let v2 := (p2.1 - p1.1, p2.2 - p1.2) in
  if (0 <? v1.1 ^ 2 + v1.2 ^ 2) && (0 <? v2.1 ^ 2 + v2.2 ^ 2) then
    let dot_product := v1.1 * v2.1 + v1.2 * v2.2 in
    let mag1 := PrimFloat.sqrt (float_of_Z (v1.1 ^ 2 + v1.2 ^ 2)) in
    let mag2 := PrimFloat.sqrt (float_of_Z (v2.1 ^ 2 + v2.2 ^ 2)) in
    let cos_angle := (float_of_Z dot_product / (mag1 * mag2))%float in
    let cos_angle := py_max (-1)%float (py_min 1%float cos_angle) in
    if acos_gt_half_pi cos_angle then direction_changes + 1 else direction_changes
  else direction_changes.

(** [BehaviorAnalyzer.detect_erratic_movement] *)
Definition detect_erratic_movement (tracked_obj : TrackedObject.t) : bool :=
  if (length (TrackedObject.position_history tracked_obj) <? 10)%nat then false
  else
    let positions := last_n 15 (TrackedObject.position_history tracked_obj) in
    let direction_changes :=
      fold_left (erratic_step positions) (seq 2 (length positions - 2)) 0 in
    5 <=? direction_changes.

(** The three event dictionaries. *)
Definition fast_movement_event (obj_id : Z) (o : TrackedObject.t) : Event :=
  {| ev_object_id := obj_id;
     ev_behavior_type := fast_movement;
     ev_confidence := py_min (TrackedObject.get_speed o / 30)%float 1%float;
     ev_description := "Person moving unusually fast (possible theft/escape)";
     ev_position := TrackedObject.current_position o;
     ev_class_name := TrackedObject.class_name o |}.

Definition loitering_event (obj_id : Z) (o : TrackedObject.t) : Event :=
  {| ev_object_id := obj_id;
     ev_behavior_type := loitering;
     ev_confidence :=
       py_min (float_of_Z (TrackedObject.time_in_view o) / 300)%float 1%float;
     ev_description :=
       "Person loitering for " ++ str_of_Z (TrackedObject.time_in_view o) ++ " frames";
     ev_position := TrackedObject.current_position o;
     ev_class_name := TrackedObject.class_name o |}.

Definition erratic_movement_event (obj_id : Z) (o : TrackedObject.t) : Event :=
  {| ev_object_id := obj_id;
     ev_behavior_type := erratic_movement;
     ev_confidence := 0x1.6666666666666p-1%float;
     ev_description := "Person showing erratic movement pattern";
     ev_position := TrackedObject.current_position o;
     ev_class_name := TrackedObject.class_name o |}.

(** Whether a behaviour qualifies on a track (the [if] guarding each
    [append]). *)
Definition qualifies (k : BehaviorKind) (o : TrackedObject.t) : bool :=
  match k with
  | fast_movement =>
      TrackedObject.is_moving_fast o FAST_MOVEMENT_THRESHOLD
      && (10 <? TrackedObject.time_in_view o)
  | loitering =>
      TrackedObject.is_stationary o
      && (LOITERING_THRESHOLD <? TrackedObject.time_in_view o)
  | erratic_movement => detect_erratic_movement o
  end.

Definition event_of (k : BehaviorKind) (obj_id : Z) (o : TrackedObject.t) : Event :=
  match k with
  | fast_movement => fast_movement_event obj_id o
  | loitering => loitering_event obj_id o
  | erratic_movement => erratic_movement_event obj_id o
  end.

(** One of the three [if ...: append(...); alert_cooldown[obj_id] = frame_count]
    blocks; the accumulator is [(suspicious_events, alert_cooldown)]. *)
Definition behavior_check (frame : Z) (obj_id : Z) (o : TrackedObject.t)
    (acc : list Event * gmap Z Z) (k : BehaviorKind) : list Event * gmap Z Z :=
  if qualifies k o then (acc.1 ++ [event_of k obj_id o], <[obj_id := frame]> acc.2)
  else acc.

(** The cooldown test at the head of the loop body. *)
Definition in_cooldown (frame : Z) (cooldown : gmap Z Z) (obj_id : Z) : bool :=
  match cooldown !! obj_id with
  | Some last_alert => frame - last_alert <? ALERT_COOLDOWN_FRAMES
  | None => false
  end.

(** The body of the loop of [detect_suspicious_behaviors]. *)
Definition analyze_object (frame : Z) (acc : list Event * gmap Z Z)
    (item : Z * TrackedObject.t) : list Event * gmap Z Z :=
  let '(obj_id, tracked_obj) := item in
  if negb (String.eqb (TrackedObject.class_name tracked_obj) "person") then acc
  else if in_cooldown frame acc.2 obj_id then acc
  else
    let acc := behavior_check frame obj_id tracked_obj acc fast_movement in
    let acc := behavior_check frame obj_id tracked_obj acc loitering in
    behavior_check frame obj_id tracked_obj acc erratic_movement.

(** [BehaviorAnalyzer.detect_suspicious_behaviors]: the returned list and
    the analyzer with its cooldowns updated. *)
Definition detect_suspicious_behaviors (self : t) : list Event * t :=
  let r := fold_left (analyze_object (frame_count self)) (tracked_objects self)
                     ([], alert_cooldown self) in
  (r.1, {| tracked_objects := tracked_objects self;
           next_object_id := next_object_id self;
           frame_count := frame_count self;
           alert_cooldown := r.2 |}).

(** [BehaviorAnalyzer._count_by_class] *)
Definition _count_by_class (self : t) : list (string * Z) :=
  fold_left (fun counts item => count_incr (TrackedObject.class_name item.2) counts)
            (tracked_objects self) [].

(** The dictionary returned by [get_tracking_info]. *)
Record TrackingInfo : Type := mkTrackingInfo {
  total_tracked : Z;
  info_frame_count : Z;
  tracked_by_class : list (string * Z)
}.

(** [BehaviorAnalyzer.get_tracking_info] *)
Definition get_tracking_info (self : t) : TrackingInfo :=
  {| total_tracked := Z.of_nat (length (tracked_objects self));
     info_frame_count := frame_count self;
     tracked_by_class := _count_by_class self |}.

End BehaviorAnalyzer.

(** ** SurveillanceSystem.process_frame *)

(** The analyzer's part of one iteration of the surveillance loop: the
    detections of the frame go to [update_tracks], then the classifier
    runs. *)
Definition process_frame (self : BehaviorAnalyzer.t) (detections : list Detection)
    : list Event * BehaviorAnalyzer.t :=
  BehaviorAnalyzer.detect_suspicious_behaviors
    (BehaviorAnalyzer.update_tracks self detections).

(** The events of every frame of a stream, and the final analyzer. *)
Fixpoint run (self : BehaviorAnalyzer.t) (frames : list (list Detection))
    : list (list Event) * BehaviorAnalyzer.t :=
  match frames with
  | [] => ([], self)
  | detections :: rest =>
      let '(events, self') := process_frame self detections in
      let '(out, final) := run self' rest in
      (events :: out, final)
  end.

(** ** class ObjectDetector: the helpers on detection lists *)

Module ObjectDetector.

(** [ObjectDetector.filter_detections_by_class] *)
Definition filter_detections_by_class (detections : list Detection)
    (class_names : list string) : list Detection :=
  List.filter (fun det => existsb (String.eqb (det_class_name det)) class_names) detections.

(** [ObjectDetector.count_objects] *)
Definition count_objects (detections : list Detection) : list (string * Z) :=
  fold_left (fun counts det => count_incr (det_class_name det) counts) detections [].

End ObjectDetector.

(** ** class SurveillanceSystem: event handling *)

(** The string stored under ['behavior_type']. *)
Definition behavior_type_name (k : BehaviorKind) : string :=
  match k with
  | fast_movement => "fast_movement"
  | loitering => "loitering"
  | erratic_movement => "erratic_movement"
  end.


Module SurveillanceSystem.


(** The fields event handling reads and writes.  The callback is known by
    what the handler can observe of it: whether it raises on an event. *)
Record t : Type := mk {
  behavior_analyzer : BehaviorAnalyzer.t;
  on_suspicious_event : option (Event -> option string -> bool);
  save_detections : bool;
  last_alert_time : gmap string float
}.

(** [SurveillanceSystem.__init__], for a given callback. *)
Definition init (callback : option (Event -> option string -> bool)) : t :=
  {| behavior_analyzer := BehaviorAnalyzer.init;
     on_suspicious_event := callback;
     save_detections := true;
     last_alert_time := ∅ |}.

(** [f"{event['object_id']}_{event['behavior_type']}"] *)
Definition event_key (event : Event) : string :=
  (str_of_Z (ev_object_id event) ++ "_" ++ behavior_type_name (ev_behavior_type event))%string.




End SurveillanceSystem.

(** * Vocabulary of the properties

    The predicates, the streams and the tracks the statements below are
    about, grouped as the properties are. *)

(** ** Distances *)

(** The integer square root rounded to the nearest integer, and the
    mantissa and the exponent of the binary64 square root of a squared
    distance [n]: [dist_mant n * 2 ^ (- dist_exp n)] is the 53-bit number
    nearest to the square root of [n]. *)
Definition rnd_sqrt (M : Z) : Z :=
  let q := Z.sqrt M in if M - q * q <=? q then q else q + 1.

Definition dist_exp (n : Z) : Z := 53 - (Z.log2 n + 2) / 2.

Definition dist_mant (n : Z) : Z := rnd_sqrt (n * 2 ^ (2 * dist_exp n)).

(** ** The history invariant of a track *)

(** The two histories run in parallel, hold between 1 and 30 entries, and
    the track was last seen no earlier than it was first seen. *)
Definition track_inv (o : TrackedObject.t) : Prop :=
  length (TrackedObject.position_history o) = length (TrackedObject.bbox_history o)
  /\ (1 <= length (TrackedObject.position_history o) <= 30)%nat
  /\ TrackedObject.first_seen o <= TrackedObject.last_seen o.

(** Every track of the analyzer satisfies [track_inv] and was last seen no
    later than the current frame. *)
Definition tracks_inv (s : BehaviorAnalyzer.t) : Prop :=
  Forall (fun item => track_inv item.2
                      /\ TrackedObject.last_seen item.2 <= BehaviorAnalyzer.frame_count s)
         (BehaviorAnalyzer.tracked_objects s).

(** A detection used in the examples: a person whose box is centred at
    [(x, y)]. *)
Definition person_at (x y : Z) : Detection :=
  {| det_class_name := "person"; det_confidence := 0.5%float;
     det_bbox := (x - 10, y - 20, x + 10, y + 20); det_center := (x, y) |}.

(** ** Nearest-neighbour matching *)

(** A track is a candidate for a detection when it has the detection's
    class and was seen during the last 10 frames. *)
Definition eligible (s : BehaviorAnalyzer.t) (detection : Detection)
    (o : TrackedObject.t) : Prop :=
  TrackedObject.class_name o = det_class_name detection
  /\ BehaviorAnalyzer.frame_count s - TrackedObject.last_seen o <= 10.

(** The distance the matcher computes between a detection and a track. *)
Definition match_distance (detection : Detection) (o : TrackedObject.t) : float :=
  euclid (det_center detection) (TrackedObject.current_position o).

(** ** Track identifiers *)

(** The keys of [tracked_objects] are pairwise distinct and below the next
    identifier to be handed out. *)
Definition keys_inv (s : BehaviorAnalyzer.t) : Prop :=
  List.NoDup (dict_keys (BehaviorAnalyzer.tracked_objects s))
  /\ Forall (fun k => k < BehaviorAnalyzer.next_object_id s)
            (dict_keys (BehaviorAnalyzer.tracked_objects s)).

(** ** Eviction *)

(** A stream in which a person appears once and nothing is detected
    afterwards. *)
Definition idle_after_one_person (n : nat) : BehaviorAnalyzer.t :=
  Nat.iter n (fun s => BehaviorAnalyzer.update_tracks s [])
           (BehaviorAnalyzer.update_tracks BehaviorAnalyzer.init [person_at 100 100]).

(** ** The classifier and its cooldown *)

(** The events of a list that concern one track, and whether one of a
    given kind is among them. *)
Definition events_for (t : Z) (events : list Event) : list Event :=
  List.filter (fun e => ev_object_id e =? t) events.

Definition has_event (t : Z) (k : BehaviorKind) (events : list Event) : bool :=
  existsb (fun e => (ev_object_id e =? t) && bool_decide (ev_behavior_type e = k)) events.

Definition kinds : list BehaviorKind := [fast_movement; loitering; erratic_movement].

(** The events of the behaviours that qualify on a track, in the order of
    the three checks. *)
Definition qualifying_events (obj_id : Z) (o : TrackedObject.t) : list Event :=
  map (fun k => BehaviorAnalyzer.event_of k obj_id o)
      (List.filter (fun k => BehaviorAnalyzer.qualifies k o) kinds).

(** A person stepping 20 px back and forth, one detection per frame. *)
Definition zigzag_walk (n : nat) : list (list Detection) :=
  map (fun i => [person_at (if Nat.even i then 0 else 20) 0]) (seq 0 n).

(** ** One cooldown entry per track *)

(** The analyzer of the zig-zag walk after the tracker has seen frame 11,
    and the one track it holds. *)
Definition zigzag_frame_11 : BehaviorAnalyzer.t :=
  BehaviorAnalyzer.update_tracks (run BehaviorAnalyzer.init (zigzag_walk 10)).2
                                 [person_at 0 0].

(** The first track of an analyzer's dictionary. *)
Definition first_track (s : BehaviorAnalyzer.t) : TrackedObject.t :=
  nth 0 (map snd (BehaviorAnalyzer.tracked_objects s))
      (TrackedObject.init 0 (person_at 0 0) 0).

(** C1 in the words of the specification: cooldowns are kept per
    (track, kind) pair.  In a stream processed from a fresh analyzer, a
    behaviour of kind [k] that qualifies on a person track [t] at frame
    [N] is reported iff every earlier report of kind [k] for [t] is at
    least 90 frames old; reports of other kinds play no part. *)
Definition per_kind_cooldown_claim : Prop :=
  forall (frames : list (list Detection)) (detections : list Detection)
         (t : Z) (o : TrackedObject.t) (k : BehaviorKind),
    let past := (run BehaviorAnalyzer.init frames).1 in
    let s := BehaviorAnalyzer.update_tracks (run BehaviorAnalyzer.init frames).2 detections in
    In (t, o) (BehaviorAnalyzer.tracked_objects s) ->
    TrackedObject.class_name o = "person"%string ->
    BehaviorAnalyzer.qualifies k o = true ->
    (has_event t k (BehaviorAnalyzer.detect_suspicious_behaviors s).1 = true <->
     forall i events,
       nth_error past i = Some events -> has_event t k events = true ->
       90 <= BehaviorAnalyzer.frame_count s - Z.of_nat (S i)).

(** ** Two detections, one track *)

(** Frame 1 shows a person at [(100, 100)]; frame 2 shows two persons, at
    [(105, 100)] and [(110, 100)]. *)
Definition crowded_frame_1 : BehaviorAnalyzer.t :=
  BehaviorAnalyzer.update_tracks BehaviorAnalyzer.init [person_at 100 100].

Definition crowded_frame_2 : BehaviorAnalyzer.t :=
  BehaviorAnalyzer.update_tracks crowded_frame_1 [person_at 105 100; person_at 110 100].

(** ** Malformed boxes *)

(** A box with [x1 >= x2]. *)
Definition malformed (detection : Detection) : bool :=
  let '(x1, _, x2, _) := det_bbox detection in x2 <=? x1.

(** C8 in the words of the specification: a malformed detection is
    rejected and the rest of the frame is processed. *)
Definition update_tracks_rejecting (s : BehaviorAnalyzer.t) (detections : list Detection)
    : BehaviorAnalyzer.t :=
  BehaviorAnalyzer.update_tracks s (List.filter (fun d => negb (malformed d)) detections).

(** A detection with its box replaced. *)
Definition with_bbox (detection : Detection) (b : BBox) : Detection :=
  {| det_class_name := det_class_name detection;
     det_confidence := det_confidence detection;
     det_bbox := b;
     det_center := det_center detection |}.

(** A detection, a track and an analyzer with the boxes blanked out: what
    is left of them is all that the tracker and the classifier read. *)
Definition forget_bbox (detection : Detection) : Detection :=
  with_bbox detection (0, 0, 0, 0).

Definition forget_track_boxes (o : TrackedObject.t) : TrackedObject.t :=
  {| TrackedObject.id := TrackedObject.id o;
     TrackedObject.class_name := TrackedObject.class_name o;
     TrackedObject.first_seen := TrackedObject.first_seen o;
     TrackedObject.last_seen := TrackedObject.last_seen o;
     TrackedObject.position_history := TrackedObject.position_history o;
     TrackedObject.bbox_history := map (fun _ => (0, 0, 0, 0)) (TrackedObject.bbox_history o);
     TrackedObject.total_distance := TrackedObject.total_distance o;
     TrackedObject.is_stationary := TrackedObject.is_stationary o;
     TrackedObject.stationary_frames := TrackedObject.stationary_frames o;
     TrackedObject.suspicious_behavior := TrackedObject.suspicious_behavior o;
     TrackedObject.behavior_type := TrackedObject.behavior_type o;
     TrackedObject.confidence := TrackedObject.confidence o |}.

Definition forget_boxes (s : BehaviorAnalyzer.t) : BehaviorAnalyzer.t :=
  {| BehaviorAnalyzer.tracked_objects :=
       map (fun item => (item.1, forget_track_boxes item.2))
           (BehaviorAnalyzer.tracked_objects s);
     BehaviorAnalyzer.next_object_id := BehaviorAnalyzer.next_object_id s;
     BehaviorAnalyzer.frame_count := BehaviorAnalyzer.frame_count s;
     BehaviorAnalyzer.alert_cooldown := BehaviorAnalyzer.alert_cooldown s |}.

(** What the detector would report for the box [(50, 10, 30, 60)]. *)
Definition inverted_box : Detection :=
  {| det_class_name := "person"; det_confidence := 0.5%float;
     det_bbox := (50, 10, 30, 60); det_center := (40, 35) |}.

(** ** Speed *)

(** The distances of the consecutive pairs of a history, oldest first. *)
Fixpoint steps (l : list Point) : list float :=
  match l with
  | [] => []
  | p :: r => match r with [] => [] | q :: _ => euclid q p :: steps r end
  end.

(** The float sum of a list, accumulated from the left as [+=] does. *)
Definition float_sum (l : list float) : float := fold_left PrimFloat.add l 0%float.








(** ** Erratic movement *)

(** The displacement from one position to the next, its squared length,
    and the cosine of the angle between two displacements, clamped to
    [[-1, 1]]. *)
Definition displacement (p q : Point) : Z * Z := (q.1 - p.1, q.2 - p.2).

Definition sq_norm (v : Z * Z) : Z := v.1 ^ 2 + v.2 ^ 2.

Definition cos_between (v1 v2 : Z * Z) : float :=
  py_max (-1)%float
         (py_min 1%float
                 (float_of_Z (v1.1 * v2.1 + v1.2 * v2.2)
                  / (PrimFloat.sqrt (float_of_Z (sq_norm v1))
                     * PrimFloat.sqrt (float_of_Z (sq_norm v2))))%float).

(** Three consecutive positions make a sharp turn for the code when both
    displacements are non-zero and the binary64 test of the angle
    succeeds. *)
Definition sharp_turn (p0 p1 p2 : Point) : bool :=
  (0 <? sq_norm (displacement p0 p1)) && (0 <? sq_norm (displacement p1 p2))
  && BehaviorAnalyzer.acos_gt_half_pi (cos_between (displacement p0 p1) (displacement p1 p2)).


(** C6 in the words of the specification.  The angle between two
    consecutive displacements exceeds 90 degrees when both are non-zero
    and their dot product is negative (see [real_angle]); the test counts
    such pairs among the last 15 stored positions and asks for 5, and for
    10 stored positions to begin with. *)
Definition dot_product (v1 v2 : Z * Z) : Z := v1.1 * v2.1 + v1.2 * v2.2.




(** The number of sharp turns along a list of positions, as the code
    tests them in binary64. *)
Fixpoint count_sharp_turns (l : list Point) : Z :=
  match l with
  | [] => 0
  | p0 :: r =>
      match r with
      | p1 :: p2 :: _ => (if sharp_turn p0 p1 p2 then 1 else 0) + count_sharp_turns r
      | _ => 0
      end
  end.



(** Fifteen positions on a straight line, 30 px apart. *)
Definition straight_positions : list Point :=
  map (fun i => (100 + 30 * Z.of_nat i, 100)) (seq 0 15).




(** ** Streams of frames *)

(** What a cooldown map says about the events reported so far: the entry
    of a track is the number of the last frame that reported something
    for it, and a track without entry was never reported. *)
Definition last_report_inv (t : Z) (out : list (list Event)) (cooldown : gmap Z Z) : Prop :=
  match cooldown !! t with
  | None => forall j events, nth_error out j = Some events -> events_for t events = []
  | Some last_alert =>
      exists j, last_alert = Z.of_nat (S j)
                /\ (exists events, nth_error out j = Some events /\ events_for t events <> [])
                /\ forall j' events, (j < j')%nat -> nth_error out j' = Some events ->
                                     events_for t events = []
  end.

(** ** A person standing still *)

(** Consecutive detections of a person, each less than 10 px from the
    one before; [c] is the position before the first. *)
Fixpoint stationary_from (c : Point) (detections : list Detection) : bool :=
  match detections with
  | [] => true
  | d :: rest =>
      String.eqb (det_class_name d) "person"
      && (((det_center d).1 - c.1) ^ 2 + ((det_center d).2 - c.2) ^ 2 <? 10 ^ 2)
      && stationary_from (det_center d) rest
  end.

(** The detections of a person alone in view who never moves 10 px
    between two frames, one detection per frame. *)
Definition lone_stationary_person (detections : list Detection) : bool :=
  match detections with
  | [] => true
  | d :: rest => String.eqb (det_class_name d) "person" && stationary_from (det_center d) rest
  end.

(** The stream that shows one detection per frame. *)
Definition one_per_frame (detections : list Detection) : list (list Detection) :=
  map (fun d => [d]) detections.

(** No event was reported for the track on the 89 frames before frame
    [k] (frames are counted from 0 here). *)
Definition quiet_before (t : Z) (out : list (list Event)) (k : nat) : Prop :=
  forall j events,
    (j < k <= j + 89)%nat -> nth_error out j = Some events -> events_for t events = [].

(** The loitering events of a list that concern one track. *)
Definition loitering_events_for (t : Z) (events : list Event) : list Event :=
  List.filter (fun e => bool_decide (ev_behavior_type e = loitering)) (events_for t events).

(** A track may be reported: it has no last-alert frame, or one that is
    at least 90 frames old. *)
Definition free_to_alert (s : BehaviorAnalyzer.t) (t : Z) : Prop :=
  forall last_alert,
    BehaviorAnalyzer.alert_cooldown s !! t = Some last_alert ->
    90 <= BehaviorAnalyzer.frame_count s - last_alert.

(** A person standing at one spot for [n] frames, and one who shifts by
    one pixel back and forth. *)
Definition standing (n : nat) : list Detection := repeat (person_at 100 100) n.

Definition jitter (n : nat) : list Detection :=
  map (fun i => person_at (if Nat.even i then 100 else 101) 100) (seq 0 n).

(** The events of frame 151 of the person standing still. *)
Definition standing_events_151 : list Event :=
  nth 150 (run BehaviorAnalyzer.init (one_per_frame (standing 151))).1 [].

(** C7 in the words of the specification, for the person alone in view:
    frame 151 is the first whose stationary run (150) exceeds 30 and whose
    time in view (151) exceeds 150, and a loitering event is reported
    there. *)
Definition loitering_at_first_qualifying_frame_claim : Prop :=
  forall (detections : list Detection) (events : list Event),
    lone_stationary_person detections = true ->
    nth_error (run BehaviorAnalyzer.init (one_per_frame detections)).1 150 = Some events ->
    has_event 0 loitering events = true.

(** ** Further invariants of the tracker *)

(** The stationary flag of a track says that its run of low-displacement
    updates is longer than 30. *)
Definition stationary_inv (o : TrackedObject.t) : Prop :=
  TrackedObject.is_stationary o = (30 <? TrackedObject.stationary_frames o)
  /\ 0 <= TrackedObject.stationary_frames o.

Definition tracks_stationary_inv (s : BehaviorAnalyzer.t) : Prop :=
  Forall (fun item => stationary_inv item.2) (BehaviorAnalyzer.tracked_objects s).

(** What never changes in a track: its id, its class and the frame it was
    first seen in. *)
Definition same_identity (o o' : TrackedObject.t) : Prop :=
  TrackedObject.id o' = TrackedObject.id o
  /\ TrackedObject.class_name o' = TrackedObject.class_name o
  /\ TrackedObject.first_seen o' = TrackedObject.first_seen o.

(** The zig-zag walk when the tracker has seen its tenth frame: the track
    holds ten positions for the first time. *)
Definition zigzag_frame_10 : BehaviorAnalyzer.t :=
  BehaviorAnalyzer.update_tracks (run BehaviorAnalyzer.init (zigzag_walk 9)).2
                                 [person_at 20 0].

(** Two persons 160 px apart, tracked since the frame before; a detection
    half-way between them is 80 px from both. *)
Definition two_persons_apart : BehaviorAnalyzer.t :=
  BehaviorAnalyzer.next_frame
    (BehaviorAnalyzer.update_tracks BehaviorAnalyzer.init
                                    [person_at 100 100; person_at 260 100]).

(** ** Counts by class *)

(** How often a class name occurs in a list, and the sum of the counts of
    a counting dictionary. *)
Definition occurrences (c : string) (names : list string) : Z :=
  Z.of_nat (length (List.filter (String.eqb c) names)).

Definition sum_counts (counts : list (string * Z)) : Z :=
  fold_right Z.add 0 (map snd counts).

(** ** Event handling *)

(** Whether a character occurs in a string. *)
Fixpoint mentions (c : ascii) (s : string) : bool :=
  match s with
  | EmptyString => false
  | String a rest => Ascii.eqb a c || mentions c rest
  end.

(** An event of a given kind for a given object, as the classifier builds
    it for a person first seen at [(100, 100)]. *)
Definition sample_event (obj_id : Z) (k : BehaviorKind) : Event :=
  BehaviorAnalyzer.event_of k obj_id (TrackedObject.init obj_id (person_at 100 100) 1).

(** ** Repeated updates *)

(** A track updated with a sequence of detections, each with the number
    of its frame. *)
Definition updates (o : TrackedObject.t) (seen : list (Detection * Z)) : TrackedObject.t :=
  fold_left (fun o d => TrackedObject.update o d.1 d.2) seen o.

(** ** One pass of the classifier *)

(** The events a pass owes a track, given the cooldowns at its start: for
    a person that is not cooling down, those of the behaviours that
    qualify. *)
Definition events_of_track (frame : Z) (cooldown : gmap Z Z) (item : Z * TrackedObject.t)
    : list Event :=
  if String.eqb (TrackedObject.class_name item.2) "person"
     && negb (BehaviorAnalyzer.in_cooldown frame cooldown item.1)
  then qualifying_events item.1 item.2
  else [].

(** A person walking 30 px per frame along a straight line, and the
    events of the eleventh frame. *)
Definition straight_walk : list (list Detection) :=
  map (fun p => [person_at p.1 p.2]) straight_positions.

Definition straight_events_11 : list Event :=
  nth 10 (run BehaviorAnalyzer.init straight_walk).1 [].

(** * Properties *)

(** ** The order of binary64 comparisons

    [<] on floats is a strict order wherever it answers [true]; this is all
    the matcher needs of floating-point arithmetic. *)

Section FloatOrder.

Local Ltac cmp_cases :=
  repeat match goal with
  | |- context [Z.compare ?a ?b] => destruct (Z.compare_spec a b); subst
  | H : context [Z.compare ?a ?b] |- _ => destruct (Z.compare_spec a b); subst
  | |- context [Pos.compare ?a ?b] => destruct (Pos.compare_spec a b); subst
  | H : context [Pos.compare ?a ?b] |- _ => destruct (Pos.compare_spec a b); subst
  end.

Lemma SFltb_trans (a b c : spec_float) :
  SFltb a b = true -> SFltb b c = true -> SFltb a c = true.
Proof.
  unfold SFltb, SFcompare.
  destruct a as [[]|[]| |[] ma ea], b as [[]|[]| |[] mb eb], c as [[]|[]| |[] mc ec];
    try (intros; discriminate); try reflexivity;
    change (Pos.compare_cont Eq) with Pos.compare;
    intros Hab Hbc; cmp_cases; simpl in *; try discriminate; try reflexivity; try lia.
Qed.

Lemma float_ltb_trans (x y z : float) :
  (x <? y)%float = true -> (y <? z)%float = true -> (x <? z)%float = true.
Proof. rewrite !ltb_spec. apply SFltb_trans. Qed.

(** If [y] is not below [z], nothing below [y] is... the contrapositive
    used when the running minimum is replaced. *)
Lemma float_not_ltb_trans (x y z : float) :
  (x <? y)%float = false -> (z <? y)%float = true -> (x <? z)%float = false.
Proof.
  intros Hxy Hzy. destruct (x <? z)%float eqn:Hxz; [|reflexivity].
  rewrite (float_ltb_trans x z y Hxz Hzy) in Hxy. discriminate.
Qed.

Lemma float_ltb_irrefl (x : float) : (x <? x)%float = false.
Proof.
  rewrite ltb_spec. unfold SFltb, SFcompare.
  destruct (Prim2SF x) as [[]|[]| |[] m e]; try reflexivity;
    rewrite Z.compare_refl; change (Pos.compare_cont Eq) with Pos.compare;
    rewrite Pos.compare_refl; reflexivity.
Qed.

Lemma float_ltb_asym (x y : float) : (x <? y)%float = true -> (y <? x)%float = false.
Proof.
  intros Hxy. destruct (y <? x)%float eqn:Hyx; [|reflexivity].
  rewrite <- (float_ltb_irrefl x). symmetry. eapply float_ltb_trans; eauto.
Qed.

End FloatOrder.

(** ** Integers and square roots in binary64

    What the distances of the tracker come to: [float(n)] is [n] itself
    below [2^53], the square root of a squared distance below [2^50] is
    the binary64 number nearest to the real square root, and such roots
    compare with each other and with whole numbers as the squared
    distances do. *)

Lemma digits2_pos_bounds (p : positive) :
  2 ^ (Zpos (digits2_pos p) - 1) <= Zpos p < 2 ^ Zpos (digits2_pos p).
Proof.
  induction p as [p IH | p IH |]; cbn [digits2_pos].
  - rewrite Pos2Z.inj_succ, (Pos2Z.inj_xI p).
    replace (Z.succ (Zpos (digits2_pos p)) - 1) with (Z.succ (Zpos (digits2_pos p) - 1)) by lia.
    rewrite !Z.pow_succ_r by lia.
    generalize dependent (2 ^ (Zpos (digits2_pos p) - 1)).
    generalize (2 ^ Zpos (digits2_pos p)). intros. lia.
  - rewrite Pos2Z.inj_succ, (Pos2Z.inj_xO p).
    replace (Z.succ (Zpos (digits2_pos p)) - 1) with (Z.succ (Zpos (digits2_pos p) - 1)) by lia.
    rewrite !Z.pow_succ_r by lia.
    generalize dependent (2 ^ (Zpos (digits2_pos p) - 1)).
    generalize (2 ^ Zpos (digits2_pos p)). intros. lia.
  - cbn. lia.
Qed.

Lemma digits2_pos_unique (p : positive) (d : Z) :
  2 ^ (d - 1) <= Zpos p < 2 ^ d -> Zpos (digits2_pos p) = d.
Proof.
  intros [Hlo Hhi]. pose proof (digits2_pos_bounds p) as [Hlo' Hhi'].
  set (d0 := Zpos (digits2_pos p)) in *.
  assert (0 < d0) by (subst d0; lia).
  destruct (Z.lt_trichotomy d0 d) as [Hlt | [Heq | Hgt]]; [|exact Heq|]; exfalso.
  - assert (2 ^ d0 <= 2 ^ (d - 1)) by (apply Z.pow_le_mono_r; lia). lia.
  - assert (2 ^ d <= 2 ^ (d0 - 1)) by (apply Z.pow_le_mono_r; lia). lia.
Qed.

Lemma iter_xO_spec (p c : positive) : Zpos (Pos.iter xO p c) = Zpos p * 2 ^ Zpos c.
Proof.
  induction c as [|c IH] using Pos.peano_ind.
  - cbn [Pos.iter]. rewrite Pos2Z.inj_xO, Z.pow_1_r. lia.
  - rewrite Pos.iter_succ, Pos2Z.inj_xO, IH, Pos2Z.inj_succ, Z.pow_succ_r by lia. lia.
Qed.

Lemma shl_align_spec (mx : positive) (ex ex' : Z) :
  ex' <= ex ->
  snd (shl_align mx ex ex') = ex'
  /\ Zpos (fst (shl_align mx ex ex')) = Zpos mx * 2 ^ (ex - ex').
Proof.
  intros H. unfold shl_align. destruct (ex' - ex) as [|c|c] eqn:E.
  - assert (ex' = ex) by lia. subst. cbn [fst snd]. rewrite Z.sub_diag, Z.pow_0_r. lia.
  - lia.
  - cbn [fst snd]. split; [reflexivity|]. rewrite iter_xO_spec. f_equal. f_equal. lia.
Qed.

Lemma fexp_normal (x : Z) : -1021 <= x -> fexp prec emax x = x - 53.
Proof. unfold fexp, SpecFloat.emin, prec, emax. lia. Qed.

Lemma binary_round_aux_53 (s : bool) (m m1 : positive) (e : Z) (l : location) :
  Zpos (digits2_pos m) = 53 -> Zpos (digits2_pos m1) = 53 -> -1074 <= e <= 971 ->
  round_nearest_even (Zpos m) l = Zpos m1 ->
  binary_round_aux prec emax s (Zpos m) e l = S754_finite s m1 e.
Proof.
  intros Hm Hm1 He Hr. unfold binary_round_aux, shr_fexp.
  cbn [Zdigits2]. rewrite Hm, fexp_normal by lia.
  replace (53 + e - 53 - e) with 0 by lia. cbn [shr].
  assert (Hl : shr_m (shr_record_of_loc (Zpos m) l) = Zpos m
               /\ loc_of_shr_record (shr_record_of_loc (Zpos m) l) = l)
    by (destruct l as [|[]]; split; reflexivity).
  destruct Hl as [-> ->]. rewrite Hr. cbn [Zdigits2]. rewrite Hm1, fexp_normal by lia.
  replace (53 + e - 53 - e) with 0 by lia. cbn [shr shr_record_of_loc shr_m].
  destruct (Z.leb_spec e (emax - prec)); [reflexivity | unfold emax, prec in *; lia].
Qed.

(** The binary64 value of a positive integer below [2^53]: the integer
    itself, with its mantissa shifted to 53 bits. *)
Lemma Prim2SF_float_of_Z_pos (p : positive) :
  Zpos (digits2_pos p) <= 53 ->
  exists m,
    Prim2SF (float_of_Z (Zpos p)) = S754_finite false m (Zpos (digits2_pos p) - 53)
    /\ Zpos m = Zpos p * 2 ^ (53 - Zpos (digits2_pos p))
    /\ Zpos (digits2_pos m) = 53.
Proof.
  intros Hd. unfold float_of_Z. cbn [binary_normalize]. unfold binary_round.
  pose proof (digits2_pos_bounds p) as Hp.
  set (d := Zpos (digits2_pos p)) in *.
  assert (0 < d) by (subst d; lia).
  rewrite Z.add_0_r, fexp_normal by lia.
  destruct (shl_align_spec p 0 (d - 53)) as [He Hm]; [lia|].
  destruct (shl_align p 0 (d - 53)) as [mz ez]. cbn [fst snd] in *. subst ez.
  replace (0 - (d - 53)) with (53 - d) in Hm by lia.
  assert (Hdig : Zpos (digits2_pos mz) = 53).
  { apply digits2_pos_unique. rewrite Hm.
    assert (H52 : 2 ^ (d - 1) * 2 ^ (53 - d) = 2 ^ (53 - 1))
      by (rewrite <- Z.pow_add_r by lia; f_equal; lia).
    assert (H53 : 2 ^ d * 2 ^ (53 - d) = 2 ^ 53)
      by (rewrite <- Z.pow_add_r by lia; f_equal; lia).
    assert (0 < 2 ^ (53 - d)) by (apply Z.pow_pos_nonneg; lia).
    rewrite <- H52, <- H53. split.
    - apply Z.mul_le_mono_nonneg_r; lia.
    - apply Z.mul_lt_mono_pos_r; lia. }
  rewrite (binary_round_aux_53 false mz mz (d - 53) loc_Exact Hdig Hdig) by (lia || reflexivity).
  rewrite Prim2SF_SF2Prim.
  - exists mz. auto.
  - cbn [SpecFloat.valid_binary]. unfold SpecFloat.bounded, SpecFloat.canonical_mantissa.
    rewrite Hdig, fexp_normal by lia.
    apply andb_true_intro. split; [apply Z.eqb_eq; lia | apply Z.leb_le; unfold emax, prec; lia].
Qed.

Lemma rnd_sqrt_spec (M : Z) :
  0 < M -> 0 < rnd_sqrt M /\ rnd_sqrt M * rnd_sqrt M - rnd_sqrt M < M <= rnd_sqrt M * rnd_sqrt M + rnd_sqrt M.
Proof.
  intros HM. unfold rnd_sqrt.
  pose proof (Z.sqrt_spec M ltac:(lia)) as Hs. cbv zeta in Hs.
  set (q := Z.sqrt M) in *.
  assert (0 < q) by nia.
  destruct (Z.leb_spec (M - q * q) q); split; nia.
Qed.

Lemma SFsqrt_normal (m : positive) (n d : Z) :
  Zpos (digits2_pos m) = 53 -> 1 <= d <= 50 -> 2 ^ (d - 1) <= n < 2 ^ d ->
  Zpos m = n * 2 ^ (53 - d) ->
  SFsqrt prec emax (S754_finite false m (d - 53))
  = S754_finite false (Z.to_pos (rnd_sqrt (n * 2 ^ (2 * (53 - (d + 1) / 2)))))
                (- (53 - (d + 1) / 2))
  /\ 2 ^ 52 <= rnd_sqrt (n * 2 ^ (2 * (53 - (d + 1) / 2))) < 2 ^ 53.
Proof.
  intros Hdig Hd Hn Hm.
  remember (53 - (d + 1) / 2) as E eqn:HE.
  assert (HEr : 28 <= E <= 52) by (Z.div_mod_to_equations; lia).
  remember (n * 2 ^ (2 * E)) as M eqn:HM.
  assert (HMb : 2 ^ 104 <= M <= 2 ^ 106 - 2 ^ 56).
  { assert (Hlo : 2 ^ 104 <= 2 ^ (d - 1) * 2 ^ (2 * E)).
    { rewrite <- Z.pow_add_r by lia. apply Z.pow_le_mono_r; [lia|].
      Z.div_mod_to_equations; lia. }
    assert (Hhi : 2 ^ d * 2 ^ (2 * E) <= 2 ^ 106).
    { rewrite <- Z.pow_add_r by lia. apply Z.pow_le_mono_r; [lia|].
      Z.div_mod_to_equations; lia. }
    assert (HP : 2 ^ 56 <= 2 ^ (2 * E)) by (apply Z.pow_le_mono_r; lia).
    subst M. generalize dependent (2 ^ (2 * E)). generalize dependent (2 ^ (d - 1)).
    generalize dependent (2 ^ d). intros. nia. }
  assert (Hq0 : 2 ^ 52 <= Z.sqrt M < 2 ^ 53).
  { split.
    - apply Z.sqrt_le_square; [lia | lia |]. change (2 ^ 52 * 2 ^ 52) with (2 ^ 104). lia.
    - apply Z.sqrt_lt_square; [lia | lia |]. change (2 ^ 53 * 2 ^ 53) with (2 ^ 106). lia. }
  pose proof (Z.sqrtrem_spec M ltac:(lia)) as Hspec.
  pose proof (Z.sqrtrem_sqrt M) as Hfst.
  assert (Hrnd : rnd_sqrt M = if snd (Z.sqrtrem M) <=? Z.sqrt M then Z.sqrt M else Z.sqrt M + 1).
  { unfold rnd_sqrt. cbv zeta. destruct (Z.sqrtrem M) as [q0 r]. cbn [fst snd] in *. subst q0.
    replace (M - Z.sqrt M * Z.sqrt M) with r by lia. reflexivity. }
  assert (Hqb : 2 ^ 52 <= rnd_sqrt M < 2 ^ 53).
  { rewrite Hrnd. destruct (Z.sqrtrem M) as [q0 r]. cbn [fst snd] in *. subst q0.
    destruct (Z.leb_spec r (Z.sqrt M)); [lia|]. split; [lia|].
    destruct (Z.eq_dec (Z.sqrt M) (2 ^ 53 - 1)) as [Heq | Hne]; [|lia].
    exfalso. rewrite Heq in *.
    change (2 ^ 53) with 9007199254740992 in *. change (2 ^ 106) with 81129638414606681695789005144064 in *.
    change (2 ^ 56) with 72057594037927936 in *. lia. }
  split; [|exact Hqb].
  unfold SFsqrt, SFsqrt_core_binary. cbn [Zdigits2]. rewrite Hdig.
  assert (He' : Z.min (fexp prec emax (Z.div2 (53 + (d - 53) + 1))) (Z.div2 (d - 53)) = - E).
  { rewrite !Z.div2_div, fexp_normal by (Z.div_mod_to_equations; lia).
    Z.div_mod_to_equations; lia. }
  cbv zeta. rewrite He'.
  assert (Hm' : match d - 53 - 2 * - E with
                | 0 => Zpos m
                | Zpos _ => Z.shiftl (Zpos m) (d - 53 - 2 * - E)
                | Zneg _ => 0
                end = M).
  { destruct (d - 53 - 2 * - E) as [|s|s] eqn:Hs; try lia.
    rewrite Z.shiftl_mul_pow2 by lia. rewrite Hm, HM, <- Z.mul_assoc, <- Z.pow_add_r by lia.
    f_equal. f_equal. Z.div_mod_to_equations; lia. }
  rewrite Hm'.
  destruct (Z.sqrtrem M) as [q0 r]. cbn [fst snd] in *. subst q0.
  destruct (Z.sqrt M) as [|qp|qp] eqn:Hqp; try lia.
  apply binary_round_aux_53.
  - apply digits2_pos_unique. lia.
  - apply digits2_pos_unique. rewrite Z2Pos.id by lia. lia.
  - lia.
  - rewrite Z2Pos.id by lia. rewrite Hrnd.
    destruct (Z.eqb_spec r 0) as [-> | Hr]; cbn [round_nearest_even].
    + destruct (Z.leb_spec 0 (Zpos qp)); [reflexivity | lia].
    + destruct (Z.leb_spec r (Zpos qp)); reflexivity.
Qed.

Lemma dist_exp_range (n : Z) : 1 <= n < 2 ^ 50 -> 28 <= dist_exp n <= 52.
Proof.
  intros Hn. unfold dist_exp.
  assert (Z.log2 n < 50) by (apply Z.log2_lt_pow2; lia).
  pose proof (Z.log2_nonneg n). Z.div_mod_to_equations; lia.
Qed.

Lemma Prim2SF_sqrt_float_of_Z (n : Z) :
  1 <= n < 2 ^ 50 ->
  Prim2SF (PrimFloat.sqrt (float_of_Z n)) = S754_finite false (Z.to_pos (dist_mant n)) (- dist_exp n)
  /\ 2 ^ 52 <= dist_mant n < 2 ^ 53.
Proof.
  intros Hn. destruct n as [|p|p]; try lia.
  pose proof (Z.log2_spec (Zpos p) ltac:(lia)) as Hlog.
  assert (Hd : Zpos (digits2_pos p) = Z.log2 (Zpos p) + 1).
  { apply digits2_pos_unique.
    replace (Z.log2 (Zpos p) + 1 - 1) with (Z.log2 (Zpos p)) by lia.
    replace (Z.log2 (Zpos p) + 1) with (Z.succ (Z.log2 (Zpos p))) by lia. exact Hlog. }
  assert (Hlt : Z.log2 (Zpos p) < 50) by (apply Z.log2_lt_pow2; lia).
  pose proof (Z.log2_nonneg (Zpos p)) as Hnn.
  destruct (Prim2SF_float_of_Z_pos p) as (m & Hrepr & Hm & Hdig); [lia|].
  rewrite FloatAxioms.sqrt_spec, Hrepr. unfold SF64sqrt.
  destruct (SFsqrt_normal m (Zpos p) (Zpos (digits2_pos p)) Hdig) as [Hs Hb];
    [lia | | exact Hm |].
  - rewrite Hd. replace (Z.log2 (Zpos p) + 1 - 1) with (Z.log2 (Zpos p)) by lia.
    replace (Z.log2 (Zpos p) + 1) with (Z.succ (Z.log2 (Zpos p))) by lia. exact Hlog.
  - rewrite Hd in Hs, Hb. unfold dist_mant, dist_exp.
    replace (Z.log2 (Zpos p) + 2) with (Z.log2 (Zpos p) + 1 + 1) by lia.
    rewrite Hd. split; assumption.
Qed.

Lemma Prim2SF_sqrt_float_of_Z_0 : Prim2SF (PrimFloat.sqrt (float_of_Z 0)) = S754_zero false.
Proof. vm_compute. reflexivity. Qed.

(** The computed distance grows strictly with the squared distance. *)
Lemma dist_strict_mono (n1 n2 : Z) :
  0 <= n1 < n2 -> n2 < 2 ^ 50 ->
  (PrimFloat.sqrt (float_of_Z n1) <? PrimFloat.sqrt (float_of_Z n2))%float = true.
Proof.
  intros Hn Hb. rewrite ltb_spec.
  destruct (Prim2SF_sqrt_float_of_Z n2) as [H2 Hq2]; [lia|]. rewrite H2.
  destruct (Z.eq_dec n1 0) as [-> | Hne].
  { rewrite Prim2SF_sqrt_float_of_Z_0. reflexivity. }
  destruct (Prim2SF_sqrt_float_of_Z n1) as [H1 Hq1]; [lia|]. rewrite H1.
  pose proof (dist_exp_range n1 ltac:(lia)) as HE1.
  pose proof (dist_exp_range n2 ltac:(lia)) as HE2.
  assert (HE : dist_exp n2 <= dist_exp n1).
  { unfold dist_exp. pose proof (Z.log2_le_mono n1 n2 ltac:(lia)).
    Z.div_mod_to_equations; lia. }
  unfold SFltb, SFcompare.
  destruct (Z.compare_spec (- dist_exp n1) (- dist_exp n2)) as [Heq | Hlt | Hgt];
    [|reflexivity | lia].
  change (Pos.compare_cont Eq) with Pos.compare.
  assert (Hlt : dist_mant n1 < dist_mant n2).
  { unfold dist_mant in *. replace (dist_exp n1) with (dist_exp n2) in * by lia.
    assert (HP : 2 ^ 56 <= 2 ^ (2 * dist_exp n2)) by (apply Z.pow_le_mono_r; lia).
    set (P := 2 ^ (2 * dist_exp n2)) in *.
    destruct (rnd_sqrt_spec (n1 * P)) as (Hp1 & Hlo1 & Hhi1); [nia|].
    destruct (rnd_sqrt_spec (n2 * P)) as (Hp2 & Hlo2 & Hhi2); [nia|].
    set (q1 := rnd_sqrt (n1 * P)) in *. set (q2 := rnd_sqrt (n2 * P)) in *.
    destruct (Z.lt_ge_cases q1 q2) as [|Hge]; [assumption|]. exfalso.
    assert (q2 * q2 <= q1 * q1) by (apply Z.mul_le_mono_nonneg; lia).
    assert (n1 * P + P <= n2 * P) by nia.
    change (2 ^ 53) with 9007199254740992 in *. change (2 ^ 56) with 72057594037927936 in *.
    lia. }
  destruct (Pos.compare_spec (Z.to_pos (dist_mant n1)) (Z.to_pos (dist_mant n2)))
    as [Heq' | Hlt' | Hgt']; [|reflexivity|]; exfalso.
  - apply (f_equal Zpos) in Heq'. rewrite !Z2Pos.id in Heq' by lia. lia.
  - apply Pos2Z.pos_lt_pos in Hgt'. rewrite !Z2Pos.id in Hgt' by lia. lia.
Qed.

(** An integer distance is computed exactly. *)
Lemma dist_square (k : Z) : 0 <= k < 2 ^ 25 -> PrimFloat.sqrt (float_of_Z (k * k)) = float_of_Z k.
Proof.
  intros Hk. destruct (Z.eq_dec k 0) as [-> | Hne]; [vm_compute; reflexivity|].
  apply Prim2SF_inj.
  assert (Hkk : 1 <= k * k < 2 ^ 50).
  { change (2 ^ 50) with (2 ^ 25 * 2 ^ 25). nia. }
  destruct (Prim2SF_sqrt_float_of_Z (k * k) Hkk) as [Hs _]. rewrite Hs.
  destruct k as [|p|p]; try lia.
  pose proof (Z.log2_spec (Zpos p) ltac:(lia)) as Hlog.
  pose proof (Z.log2_nonneg (Zpos p)) as Hnn.
  set (l := Z.log2 (Zpos p)) in *.
  assert (Hd : Zpos (digits2_pos p) = l + 1).
  { apply digits2_pos_unique.
    replace (l + 1 - 1) with l by lia. replace (l + 1) with (Z.succ l) by lia. exact Hlog. }
  assert (Hl : l < 25) by (apply Z.log2_lt_pow2; lia).
  destruct (Prim2SF_float_of_Z_pos p) as (m & Hrepr & Hm & Hdig); [lia|].
  rewrite Hrepr, Hd.
  assert (HE : dist_exp (Zpos p * Zpos p) = 53 - (l + 1)).
  { unfold dist_exp.
    assert (Hlo : 2 * l <= Z.log2 (Zpos p * Zpos p)).
    { apply Z.log2_le_pow2; [lia|]. replace (2 * l) with (l + l) by lia.
      rewrite Z.pow_add_r by lia. apply Z.mul_le_mono_nonneg; lia. }
    assert (Hhi : Z.log2 (Zpos p * Zpos p) < 2 * l + 2).
    { apply Z.log2_lt_pow2; [lia|]. replace (2 * l + 2) with (Z.succ l + Z.succ l) by lia.
      rewrite Z.pow_add_r by lia. apply Z.mul_lt_mono_nonneg; lia. }
    Z.div_mod_to_equations; lia. }
  assert (HM : dist_mant (Zpos p * Zpos p) = Zpos p * 2 ^ (53 - (l + 1))).
  { unfold dist_mant. rewrite HE.
    replace (2 * (53 - (l + 1))) with ((53 - (l + 1)) + (53 - (l + 1))) by lia.
    rewrite Z.pow_add_r by lia.
    set (P := 2 ^ (53 - (l + 1))).
    assert (0 < P) by (apply Z.pow_pos_nonneg; lia).
    replace (Zpos p * Zpos p * (P * P)) with ((Zpos p * P) * (Zpos p * P)) by ring.
    unfold rnd_sqrt. cbv zeta. rewrite Z.sqrt_square by nia.
    rewrite Z.sub_diag. destruct (Z.leb_spec 0 (Zpos p * P)); [reflexivity | nia]. }
  rewrite HM, HE. rewrite Hd in Hm. rewrite <- Hm. rewrite Pos2Z.id.
  f_equal. lia.
Qed.

(** ** Rounding of longer mantissas: the exponent of the result *)

Lemma shr_1_m (mrs : shr_record) :
  0 <= shr_m mrs -> shr_m (shr_1 mrs) = shr_m mrs / 2.
Proof.
  destruct mrs as [m r s]. cbn [shr_m]. intros Hm. rewrite <- Z.div2_div.
  destruct m as [|[p|p|]|p]; try reflexivity; lia.
Qed.

Lemma shr_m_iter (p : positive) :
  forall mrs, 0 <= shr_m mrs -> shr_m (SpecFloat.iter_pos shr_1 p mrs) = shr_m mrs / 2 ^ Zpos p.
Proof.
  induction p as [p IH | p IH |]; intros mrs Hm; cbn [SpecFloat.iter_pos].
  - assert (H1 : 0 <= shr_m (shr_1 mrs)) by (rewrite shr_1_m by lia; apply Z.div_pos; lia).
    assert (H2 : 0 <= shr_m (SpecFloat.iter_pos shr_1 p (shr_1 mrs)))
      by (rewrite IH by lia; apply Z.div_pos; [lia | apply Z.pow_pos_nonneg; lia]).
    rewrite IH, IH, shr_1_m by lia.
    assert (0 < 2 ^ Zpos p) by (apply Z.pow_pos_nonneg; lia).
    rewrite !Z.div_div by lia. f_equal.
    rewrite (Pos2Z.inj_xI p). replace (2 * Zpos p + 1) with (1 + Zpos p + Zpos p) by lia.
    rewrite !Z.pow_add_r, Z.pow_1_r by lia. ring.
  - assert (H2 : 0 <= shr_m (SpecFloat.iter_pos shr_1 p mrs))
      by (rewrite IH by lia; apply Z.div_pos; [lia | apply Z.pow_pos_nonneg; lia]).
    rewrite IH, IH by lia.
    assert (0 < 2 ^ Zpos p) by (apply Z.pow_pos_nonneg; lia).
    rewrite !Z.div_div by lia. f_equal.
    rewrite (Pos2Z.inj_xO p). replace (2 * Zpos p) with (Zpos p + Zpos p) by lia.
    rewrite !Z.pow_add_r by lia. ring.
  - rewrite shr_1_m by lia. rewrite Z.pow_1_r. reflexivity.
Qed.

Lemma round_nearest_even_cases (m : Z) (l : location) :
  round_nearest_even m l = m \/ round_nearest_even m l = m + 1.
Proof. destruct l as [|[]]; cbn [round_nearest_even]; try destruct (Z.even m); auto. Qed.

(** The closing step of [binary_round_aux] on a rounded 53-bit mantissa:
    a finite float with a 53-bit mantissa, or an infinity on overflow. *)
Lemma round_phase (s : bool) (m1 e : Z) :
  2 ^ 52 <= m1 <= 2 ^ 53 -> -1074 <= e ->
  exists e',
    e <= e' <= e + 1
    /\ if e' <=? 971
       then exists m',
              (let '(mrs, e'') := shr_fexp prec emax m1 e loc_Exact in
               match shr_m mrs with
               | 0 => S754_zero s
               | Zpos m => if e'' <=? emax - prec then S754_finite s m e'' else S754_infinity s
               | Zneg _ => S754_nan
               end) = S754_finite s m' e'
              /\ Zpos (digits2_pos m') = 53
       else (let '(mrs, e'') := shr_fexp prec emax m1 e loc_Exact in
             match shr_m mrs with
             | 0 => S754_zero s
             | Zpos m => if e'' <=? emax - prec then S754_finite s m e'' else S754_infinity s
             | Zneg _ => S754_nan
             end) = S754_infinity s.
Proof.
  intros Hm He. destruct m1 as [|p|p]; try lia.
  unfold shr_fexp. cbn [Zdigits2].
  destruct (Z.eq_dec (Zpos p) (2 ^ 53)) as [Heq | Hne].
  - assert (Hd : Zpos (digits2_pos p) = 54)
      by (apply digits2_pos_unique; rewrite Heq; change (2 ^ (54 - 1)) with (2 ^ 53); split; [lia|];
          apply Z.pow_lt_mono_r; lia).
    rewrite Hd, fexp_normal by lia. replace (54 + e - 53 - e) with 1 by lia.
    cbn [shr SpecFloat.iter_pos shr_record_of_loc]. rewrite Heq.
    cbn [Z.pow Z.pow_pos Pos.iter Z.mul Pos.mul shr_1 shr_m].
    exists (e + 1). split; [lia|]. change (emax - prec) with 971.
    destruct (e + 1 <=? 971); [|reflexivity].
    exists (4503599627370496%positive). split; reflexivity.
  - assert (Hd : Zpos (digits2_pos p) = 53)
      by (apply digits2_pos_unique; change (2 ^ (53 - 1)) with (2 ^ 52); lia).
    rewrite Hd, fexp_normal by lia. replace (53 + e - 53 - e) with 0 by lia.
    cbn [shr shr_record_of_loc shr_m].
    exists e. split; [lia|]. change (emax - prec) with 971.
    destruct (e <=? 971); [|reflexivity].
    exists p. split; [reflexivity | exact Hd].
Qed.

(** Rounding a mantissa of at least 53 bits: the result has a 53-bit
    mantissa and the canonical exponent, or one more; it is an infinity
    when that exponent is out of range. *)
Lemma binary_round_aux_any (s : bool) (m : positive) (e : Z) (l : location) :
  53 <= Zpos (digits2_pos m) -> -1074 <= e ->
  exists e',
    Zpos (digits2_pos m) + e - 53 <= e' <= Zpos (digits2_pos m) + e - 52
    /\ if e' <=? 971
       then exists m',
              binary_round_aux prec emax s (Zpos m) e l = S754_finite s m' e'
              /\ Zpos (digits2_pos m') = 53
       else binary_round_aux prec emax s (Zpos m) e l = S754_infinity s.
Proof.
  intros Hd He. pose proof (digits2_pos_bounds m) as Hb.
  remember (binary_round_aux prec emax s (Zpos m) e l) as r eqn:Hr.
  set (d := Zpos (digits2_pos m)) in *.
  unfold binary_round_aux in Hr. unfold shr_fexp at 1 in Hr. cbn [Zdigits2] in Hr. fold d in Hr.
  rewrite fexp_normal in Hr by lia.
  assert (Hl : shr_m (shr_record_of_loc (Zpos m) l) = Zpos m)
    by (destruct l as [|[]]; reflexivity).
  destruct (d + e - 53 - e) as [|c|c] eqn:Hsh; try lia.
  - cbn [shr] in Hr. rewrite Hl in Hr.
    assert (d = 53) by lia.
    destruct (round_phase s (round_nearest_even (Zpos m)
                               (loc_of_shr_record (shr_record_of_loc (Zpos m) l))) e)
      as (e' & He' & Hcase).
    + destruct (round_nearest_even_cases (Zpos m)
                  (loc_of_shr_record (shr_record_of_loc (Zpos m) l)))
        as [-> | ->]; replace d with 53 in Hb by lia; change (2 ^ (53 - 1)) with (2 ^ 52) in Hb; lia.
    + lia.
    + exists e'. split; [lia|]. rewrite Hr. exact Hcase.
  - cbn [shr] in Hr.
    assert (Hm0 : shr_m (SpecFloat.iter_pos shr_1 c (shr_record_of_loc (Zpos m) l)) = Zpos m / 2 ^ Zpos c)
      by (rewrite shr_m_iter by (rewrite Hl; lia); rewrite Hl; reflexivity).
    assert (Hrange : 2 ^ 52 <= Zpos m / 2 ^ Zpos c < 2 ^ 53).
    { assert (Hc : Zpos c = d - 53) by lia.
      assert (0 < 2 ^ Zpos c) by (apply Z.pow_pos_nonneg; lia).
      assert (H1 : 2 ^ (d - 1) = 2 ^ 52 * 2 ^ Zpos c)
        by (rewrite <- Z.pow_add_r by lia; f_equal; lia).
      assert (H2 : 2 ^ d = 2 ^ 53 * 2 ^ Zpos c)
        by (rewrite <- Z.pow_add_r by lia; f_equal; lia).
      split.
      - apply Z.div_le_lower_bound; lia.
      - apply Z.div_lt_upper_bound; lia. }
    destruct (round_phase s (round_nearest_even
                               (shr_m (SpecFloat.iter_pos shr_1 c (shr_record_of_loc (Zpos m) l)))
                               (loc_of_shr_record (SpecFloat.iter_pos shr_1 c (shr_record_of_loc (Zpos m) l))))
                          (e + Zpos c))
      as (e' & He' & Hcase).
    + destruct (round_nearest_even_cases
                  (shr_m (SpecFloat.iter_pos shr_1 c (shr_record_of_loc (Zpos m) l)))
                  (loc_of_shr_record (SpecFloat.iter_pos shr_1 c (shr_record_of_loc (Zpos m) l))))
        as [-> | ->]; rewrite Hm0; lia.
    + lia.
    + exists e'. split; [lia|]. rewrite Hr. exact Hcase.
Qed.

Lemma binary_round_aux_long (s : bool) (m : positive) (e : Z) (l : location) :
  53 <= Zpos (digits2_pos m) -> -1074 <= e -> Zpos (digits2_pos m) + e <= 1023 ->
  exists m' e',
    binary_round_aux prec emax s (Zpos m) e l = S754_finite s m' e'
    /\ Zpos (digits2_pos m) + e - 53 <= e' <= Zpos (digits2_pos m) + e - 52
    /\ Zpos (digits2_pos m') = 53.
Proof.
  intros Hd He Hmax.
  destruct (binary_round_aux_any s m e l Hd He) as (e' & He' & Hcase).
  destruct (Z.leb_spec e' 971); [|lia].
  destruct Hcase as (m' & Hres & Hdig). exists m', e'. auto.
Qed.










(** The test on either side of its threshold, as [math.acos] answers. *)
Lemma acos_test_threshold :
  BehaviorAnalyzer.acos_gt_half_pi (-1)%float = true
  /\ BehaviorAnalyzer.acos_gt_half_pi (-0x1.cd2b297d889bcp-55)%float = true
  /\ BehaviorAnalyzer.acos_gt_half_pi (-0x1.cb3b399d747f5p-55)%float = true
  /\ BehaviorAnalyzer.acos_gt_half_pi (-0x1.cb3b399d747f4p-55)%float = false
  /\ BehaviorAnalyzer.acos_gt_half_pi (-0x1p-60)%float = false
  /\ BehaviorAnalyzer.acos_gt_half_pi 0%float = false
  /\ BehaviorAnalyzer.acos_gt_half_pi 1%float = false.
Proof. repeat split; vm_compute; reflexivity. Qed.

(** ** Integers of more than 53 bits *)

Lemma shl_align_ge (mx : positive) (ex ex' : Z) : ex <= ex' -> shl_align mx ex ex' = (mx, ex).
Proof.
  intros H. unfold shl_align. destruct (ex' - ex) as [|c|c] eqn:E; try reflexivity. lia.
Qed.

Lemma valid_binary_53 (s : bool) (m : positive) (e : Z) :
  Zpos (digits2_pos m) = 53 -> -1074 <= e <= 971 ->
  valid_binary (S754_finite s m e) = true.
Proof.
  intros Hdig He. cbn [valid_binary]. unfold SpecFloat.bounded, SpecFloat.canonical_mantissa.
  rewrite Hdig. unfold fexp, SpecFloat.emin, prec, emax.
  apply andb_true_intro. split; [apply Z.eqb_eq; lia | apply Z.leb_le; lia].
Qed.

(** The binary64 value of an integer of 54 bits or more: a 53-bit
    mantissa with a positive exponent, or an infinity. *)
Lemma Prim2SF_float_of_Z_big (p : positive) :
  54 <= Zpos (digits2_pos p) ->
  Prim2SF (float_of_Z (Zpos p)) = S754_infinity false
  \/ exists m e,
       Prim2SF (float_of_Z (Zpos p)) = S754_finite false m e
       /\ Zpos (digits2_pos m) = 53 /\ 1 <= e <= 971.
Proof.
  intros Hd. unfold float_of_Z. cbn [binary_normalize]. unfold binary_round.
  rewrite shl_align_ge by (rewrite fexp_normal by lia; lia).
  destruct (binary_round_aux_any false p 0 loc_Exact) as (e' & He' & Hcase); try lia.
  destruct (Z.leb_spec e' 971).
  - destruct Hcase as (m' & -> & Hdig). right. exists m', e'.
    rewrite Prim2SF_SF2Prim by (apply valid_binary_53; [assumption | lia]).
    split; [reflexivity|]. split; [assumption | lia].
  - rewrite Hcase. left. reflexivity.
Qed.

(** The square root of a float with a 53-bit mantissa. *)
Lemma SFsqrt_exp (m : positive) (e : Z) :
  Zpos (digits2_pos m) = 53 -> -1000 <= e <= 971 ->
  exists q e',
    SFsqrt prec emax (S754_finite false m e) = S754_finite false q e'
    /\ Z.div2 e - 26 <= e' <= Z.div2 e - 25
    /\ Zpos (digits2_pos q) = 53.
Proof.
  intros Hdig He.
  pose proof (digits2_pos_bounds m) as Hb. rewrite Hdig in Hb.
  change (2 ^ (53 - 1)) with (2 ^ 52) in Hb.
  unfold SFsqrt, SFsqrt_core_binary. cbn [Zdigits2]. rewrite Hdig.
  assert (He' : Z.min (fexp prec emax (Z.div2 (53 + e + 1))) (Z.div2 e) = Z.div2 e - 26).
  { rewrite !Z.div2_div, fexp_normal by (Z.div_mod_to_equations; lia).
    Z.div_mod_to_equations; lia. }
  cbv zeta. rewrite He'.
  set (sh := e - 2 * (Z.div2 e - 26)).
  assert (Hsh : sh = 52 \/ sh = 53)
    by (subst sh; rewrite Z.div2_div; Z.div_mod_to_equations; lia).
  set (M := match sh with 0 => Zpos m | Zpos _ => Z.shiftl (Zpos m) sh | Zneg _ => 0 end).
  assert (HM : 2 ^ 104 <= M < 2 ^ 106).
  { subst M. destruct Hsh as [-> | ->]; rewrite Z.shiftl_mul_pow2 by lia;
      change (2 ^ 52) with 4503599627370496 in *; change (2 ^ 53) with 9007199254740992 in *;
      change (2 ^ 104) with 20282409603651670423947251286016;
      change (2 ^ 106) with 81129638414606681695789005144064; lia. }
  assert (Hq0 : 2 ^ 52 <= Z.sqrt M < 2 ^ 53).
  { split.
    - apply Z.sqrt_le_square; [lia | lia |]. change (2 ^ 52 * 2 ^ 52) with (2 ^ 104). lia.
    - apply Z.sqrt_lt_square; [lia | lia |]. change (2 ^ 53 * 2 ^ 53) with (2 ^ 106). lia. }
  pose proof (Z.sqrtrem_sqrt M) as Hfst.
  destruct (Z.sqrtrem M) as [q0 r]. cbn [fst] in Hfst. subst q0.
  destruct (Z.sqrt M) as [|qp|qp] eqn:Hqp; try lia.
  assert (Hdq : Zpos (digits2_pos qp) = 53)
    by (apply digits2_pos_unique; change (2 ^ (53 - 1)) with (2 ^ 52); lia).
  destruct (binary_round_aux_long false qp (Z.div2 e - 26)
              (if r =? 0 then loc_Exact else loc_Inexact (if r <=? Zpos qp then Lt else Gt)))
    as (q & e' & Hres & Hexp & Hdigq).
  - lia.
  - rewrite Z.div2_div. Z.div_mod_to_equations; lia.
  - rewrite Hdq, Z.div2_div. Z.div_mod_to_equations; lia.
  - exists q, e'. split; [exact Hres|]. split; [lia | exact Hdigq].
Qed.

(** A squared distance of [2^50] or more: the computed distance is an
    infinity or has an exponent above those of the smaller distances. *)
Lemma Prim2SF_sqrt_float_of_Z_large (n : Z) :
  2 ^ 50 <= n ->
  Prim2SF (PrimFloat.sqrt (float_of_Z n)) = S754_infinity false
  \/ exists q e, Prim2SF (PrimFloat.sqrt (float_of_Z n)) = S754_finite false q e /\ -27 <= e.
Proof.
  intros Hn. destruct n as [|p|p]; try lia.
  pose proof (digits2_pos_bounds p) as Hb.
  assert (Hd : 51 <= Zpos (digits2_pos p)).
  { destruct (Z.le_gt_cases 51 (Zpos (digits2_pos p))) as [|Hlt]; [assumption|]. exfalso.
    assert (2 ^ Zpos (digits2_pos p) <= 2 ^ 50) by (apply Z.pow_le_mono_r; lia). lia. }
  rewrite FloatAxioms.sqrt_spec. unfold SF64sqrt.
  destruct (Z.le_gt_cases (Zpos (digits2_pos p)) 53) as [Hsmall | Hbig].
  - destruct (Prim2SF_float_of_Z_pos p Hsmall) as (m & -> & _ & Hdig).
    destruct (SFsqrt_exp m (Zpos (digits2_pos p) - 53) Hdig) as (q & e' & -> & He' & _); [lia|].
    right. exists q, e'. split; [reflexivity|].
    rewrite Z.div2_div in He'. Z.div_mod_to_equations; lia.
  - destruct (Prim2SF_float_of_Z_big p) as [-> | (m & e & -> & Hdig & He)]; [lia | |].
    + left. reflexivity.
    + destruct (SFsqrt_exp m e Hdig) as (q & e' & -> & He' & _); [lia|].
      right. exists q, e'. split; [reflexivity|].
      rewrite Z.div2_div in He'. Z.div_mod_to_equations; lia.
Qed.

(** ** Distances against integer thresholds and against each other *)

(** ** Distances against integer thresholds and against each other *)

(** A computed distance is below an integer [k] exactly when the squared
    distance is below [k * k]. *)
Lemma dist_ltb_int (n k : Z) :
  0 <= n -> 0 < k < 2 ^ 25 ->
  (PrimFloat.sqrt (float_of_Z n) <? float_of_Z k)%float = (n <? k * k).
Proof.
  intros Hn Hk.
  assert (Hkk : 0 < k * k < 2 ^ 50) by (change (2 ^ 50) with (2 ^ 25 * 2 ^ 25); nia).
  rewrite <- (dist_square k) by lia.
  destruct (Z.ltb_spec n (k * k)) as [Hlt | Hge].
  - apply dist_strict_mono; lia.
  - destruct (Z.eq_dec n (k * k)) as [-> | Hne]; [apply float_ltb_irrefl|].
    destruct (Z.lt_ge_cases n (2 ^ 50)) as [Hsmall | Hlarge].
    + apply float_ltb_asym, dist_strict_mono; lia.
    + rewrite ltb_spec.
      destruct (Prim2SF_sqrt_float_of_Z (k * k)) as [-> _]; [lia|].
      pose proof (dist_exp_range (k * k) ltac:(lia)) as HE.
      destruct (Prim2SF_sqrt_float_of_Z_large n Hlarge) as [-> | (q & e & -> & He)];
        [reflexivity|].
      unfold SFltb, SFcompare.
      destruct (Z.compare_spec e (- dist_exp (k * k))); [lia | lia | reflexivity].
Qed.

(** Two computed distances, one of them in the exact range, compare as
    the squared distances do. *)
Lemma dist_ltb (n1 n2 : Z) :
  0 <= n1 -> 0 <= n2 -> n1 < 2 ^ 50 \/ n2 < 2 ^ 50 ->
  (PrimFloat.sqrt (float_of_Z n1) <? PrimFloat.sqrt (float_of_Z n2))%float = (n1 <? n2).
Proof.
  intros H1 H2 Hb.
  destruct (Z.ltb_spec n1 n2) as [Hlt | Hge].
  - destruct (Z.lt_ge_cases n2 (2 ^ 50)) as [Hsmall | Hlarge]; [apply dist_strict_mono; lia|].
    rewrite ltb_spec.
    destruct (Z.eq_dec n1 0) as [-> | Hne].
    + rewrite Prim2SF_sqrt_float_of_Z_0.
      destruct (Prim2SF_sqrt_float_of_Z_large n2 Hlarge) as [-> | (q & e & -> & He)]; reflexivity.
    + destruct (Prim2SF_sqrt_float_of_Z n1) as [-> _]; [lia|].
      pose proof (dist_exp_range n1 ltac:(lia)) as HE.
      destruct (Prim2SF_sqrt_float_of_Z_large n2 Hlarge) as [-> | (q & e & -> & He)];
        [reflexivity|].
      unfold SFltb, SFcompare.
      destruct (Z.compare_spec (- dist_exp n1) e); [lia | reflexivity | lia].
  - destruct (Z.eq_dec n1 n2) as [-> | Hne]; [apply float_ltb_irrefl|].
    destruct (Z.lt_ge_cases n1 (2 ^ 50)) as [Hsmall | Hlarge];
      [apply float_ltb_asym, dist_strict_mono; lia|].
    rewrite ltb_spec.
    assert (Hn2 : Prim2SF (PrimFloat.sqrt (float_of_Z n2)) = S754_zero false
                  \/ exists m e, Prim2SF (PrimFloat.sqrt (float_of_Z n2)) = S754_finite false m e /\ e <= -28).
    { destruct (Z.eq_dec n2 0) as [-> | Hne2]; [left; apply Prim2SF_sqrt_float_of_Z_0|].
      right. destruct (Prim2SF_sqrt_float_of_Z n2) as [-> _]; [lia|].
      pose proof (dist_exp_range n2 ltac:(lia)) as HE. eexists _, _. split; [reflexivity | lia]. }
    destruct (Prim2SF_sqrt_float_of_Z_large n1 Hlarge) as [-> | (q & e & -> & He)];
      destruct Hn2 as [-> | (m2 & e2 & -> & He2)]; try reflexivity.
    unfold SFltb, SFcompare.
    destruct (Z.compare_spec e e2); [lia | lia | reflexivity].
Qed.

(** The shapes a computed distance can take: never a NaN, never
    negative. *)
Lemma Prim2SF_dist_shape (n : Z) :
  0 <= n ->
  Prim2SF (PrimFloat.sqrt (float_of_Z n)) = S754_zero false
  \/ Prim2SF (PrimFloat.sqrt (float_of_Z n)) = S754_infinity false
  \/ exists m e, Prim2SF (PrimFloat.sqrt (float_of_Z n)) = S754_finite false m e.
Proof.
  intros Hn. destruct (Z.eq_dec n 0) as [-> | Hne]; [left; apply Prim2SF_sqrt_float_of_Z_0|].
  right. destruct (Z.lt_ge_cases n (2 ^ 50)) as [Hsmall | Hlarge].
  - right. destruct (Prim2SF_sqrt_float_of_Z n) as [-> _]; [lia | eauto].
  - destruct (Prim2SF_sqrt_float_of_Z_large n Hlarge) as [-> | (q & e & -> & _)]; eauto.
Qed.

Lemma dist_leb (n1 n2 : Z) :
  0 <= n1 -> 0 <= n2 -> n1 < 2 ^ 50 \/ n2 < 2 ^ 50 ->
  (PrimFloat.sqrt (float_of_Z n1) <=? PrimFloat.sqrt (float_of_Z n2))%float = (n1 <=? n2).
Proof.
  intros H1 H2 Hb.
  assert (Hneg : (PrimFloat.sqrt (float_of_Z n1) <=? PrimFloat.sqrt (float_of_Z n2))%float
                 = negb (PrimFloat.sqrt (float_of_Z n2) <? PrimFloat.sqrt (float_of_Z n1))%float).
  { rewrite leb_spec, ltb_spec. unfold SFleb, SFltb, SFcompare.
    destruct (Prim2SF_dist_shape n1 H1) as [-> | [-> | (m1 & e1 & ->)]],
             (Prim2SF_dist_shape n2 H2) as [-> | [-> | (m2 & e2 & ->)]]; try reflexivity.
    rewrite (Z.compare_antisym e1 e2).
    destruct (e1 ?= e2); cbn [CompOpp negb]; try reflexivity.
    change (Pos.compare_cont Eq) with Pos.compare.
    rewrite (Pos.compare_antisym m1 m2). destruct (m1 ?= m2)%positive; reflexivity. }
  rewrite Hneg, dist_ltb by (lia || tauto).
  destruct (Z.ltb_spec n2 n1), (Z.leb_spec n1 n2); try reflexivity; lia.
Qed.

(** ** Deques and slices *)

Section Sequences.
Context {A : Type}.
Implicit Types (l : list A) (x : A).

Lemma deque_append_nil (n : nat) x : (0 < n)%nat -> deque_append n [] x = [x].
Proof. intros Hn. unfold deque_append. simpl. destruct n; [lia | reflexivity]. Qed.

Lemma deque_append_length (n : nat) l x :
  (0 < n)%nat -> (length l <= n)%nat ->
  length (deque_append n l x) = Nat.min n (S (length l)).
Proof.
  intros Hn Hl. unfold deque_append.
  destruct (Nat.ltb_spec (length l) n) as [Hlt | Hge].
  - rewrite length_app. simpl. lia.
  - rewrite length_app. destruct l as [|a l']; simpl in *; lia.
Qed.

Lemma deque_append_last (n : nat) l x (d : A) : List.last (deque_append n l x) d = x.
Proof. unfold deque_append. destruct (_ <? _)%nat; apply last_last. Qed.

(** Appending to a deque is appending to the list and keeping the
    newest [n] entries. *)
Lemma deque_append_last_n (n : nat) l x :
  (0 < n)%nat -> (length l <= n)%nat -> deque_append n l x = last_n n (l ++ [x]).
Proof.
  intros Hn Hl. unfold deque_append, last_n. rewrite length_app. simpl.
  destruct (Nat.ltb_spec (length l) n) as [Hlt | Hge].
  - replace (length l + 1 - n)%nat with 0%nat by lia. reflexivity.
  - replace (length l + 1 - n)%nat with 1%nat by lia.
    destruct l as [|a l']; simpl in *; [lia | reflexivity].
Qed.

Lemma last_n_length (n : nat) l : length (last_n n l) = Nat.min n (length l).
Proof. unfold last_n. rewrite length_skipn. lia. Qed.

Lemma last_n_all (n : nat) l : (length l <= n)%nat -> last_n n l = l.
Proof. intros H. unfold last_n. replace (length l - n)%nat with 0%nat by lia. reflexivity. Qed.

End Sequences.

(** ** Dictionaries *)

Section PyDictFacts.
Context {V : Type}.
Implicit Types (d : list (Z * V)) (k : Z) (v : V).

Lemma dict_get_cons k k' v d :
  dict_get k ((k', v) :: d) = if k' =? k then Some v else dict_get k d.
Proof. unfold dict_get. simpl. destruct (k' =? k); reflexivity. Qed.

Lemma dict_get_Some_In k v d : dict_get k d = Some v -> In (k, v) d.
Proof.
  induction d as [|[k' v'] d IH]; [discriminate|].
  rewrite dict_get_cons. destruct (Z.eqb_spec k' k) as [-> | Hne].
  - intros [= ->]. now left.
  - intros H. right. auto.
Qed.

Lemma dict_get_None k d : dict_get k d = None <-> ~ In k (dict_keys d).
Proof.
  induction d as [|[k' v'] d IH]; simpl.
  - split; [intros _ [] | reflexivity].
  - rewrite dict_get_cons. destruct (Z.eqb_spec k' k) as [-> | Hne].
    + split; [discriminate | intros H; exfalso; apply H; now left].
    + rewrite IH. split; [intros H [?|?]; [congruence | auto] | intros H ?; apply H; now right].
Qed.

Lemma In_dict_keys k v d : In (k, v) d -> In k (dict_keys d).
Proof. intros H. apply in_map_iff. exists (k, v). auto. Qed.

Lemma dict_get_In k v d : List.NoDup (dict_keys d) -> In (k, v) d -> dict_get k d = Some v.
Proof.
  induction d as [|[k' v'] d IH]; simpl; [intros _ []|].
  intros Hnd Hin. apply NoDup_cons_iff in Hnd as [Hk' Hnd].
  rewrite dict_get_cons. destruct Hin as [[= -> ->] | Hin].
  - now rewrite Z.eqb_refl.
  - destruct (Z.eqb_spec k' k) as [-> | Hne]; [|auto].
    exfalso. apply Hk'. eapply In_dict_keys; eauto.
Qed.

Lemma dict_keys_alter (f : V -> V) k d : dict_keys (dict_alter f k d) = dict_keys d.
Proof.
  induction d as [|[k' v'] d IH]; simpl; [reflexivity|].
  destruct (k' =? k); simpl; [reflexivity | now rewrite IH].
Qed.

Lemma dict_get_alter (f : V -> V) k k' d :
  dict_get k' (dict_alter f k d) = if k' =? k then f <$> dict_get k d else dict_get k' d.
Proof.
  induction d as [|[k0 v0] d IH]; simpl.
  - destruct (k' =? k); reflexivity.
  - destruct (Z.eqb_spec k0 k) as [-> | Hne]; rewrite !dict_get_cons.
    + rewrite Z.eqb_refl. destruct (Z.eqb_spec k' k) as [-> | Hne'].
      * now rewrite Z.eqb_refl.
      * destruct (Z.eqb_spec k k'); [congruence | reflexivity].
    + rewrite IH. destruct (Z.eqb_spec k' k) as [-> | Hne'].
      * destruct (Z.eqb_spec k0 k); [congruence | reflexivity].
      * reflexivity.
Qed.

(** What [dict_alter] leaves in the dictionary: old items, or the image
    of an old item under the key that was altered. *)
Lemma In_dict_alter (f : V -> V) k k' v' d :
  In (k', v') (dict_alter f k d) ->
  In (k', v') d \/ (k' = k /\ exists v, In (k, v) d /\ v' = f v).
Proof.
  induction d as [|[k0 v0] d IH]; simpl; [tauto|].
  destruct (Z.eqb_spec k0 k) as [-> | Hne]; simpl.
  - intros [[= <- <-] | Hin]; [right | left; now right].
    split; [reflexivity | exists v0; split; [now left | reflexivity]].
  - intros [Heq | Hin]; [left; now left|].
    destruct (IH Hin) as [? | (-> & v & ? & ->)]; [left; now right | right].
    split; [reflexivity | exists v; split; [now right | reflexivity]].
Qed.

Lemma dict_set_fresh k v d : ~ In k (dict_keys d) -> dict_set k v d = d ++ [(k, v)].
Proof.
  induction d as [|[k0 v0] d IH]; simpl; [reflexivity|].
  intros Hk. destruct (Z.eqb_spec k0 k) as [-> | Hne]; [exfalso; apply Hk; now left|].
  rewrite IH; [reflexivity | intros ?; apply Hk; now right].
Qed.

Lemma dict_get_set k k' v d :
  dict_get k' (dict_set k v d) = if k' =? k then Some v else dict_get k' d.
Proof.
  induction d as [|[k0 v0] d IH]; simpl.
  - rewrite dict_get_cons. rewrite (Z.eqb_sym k k'). destruct (k' =? k); reflexivity.
  - destruct (Z.eqb_spec k0 k) as [-> | Hne]; rewrite !dict_get_cons.
    + rewrite (Z.eqb_sym k k'). destruct (k' =? k); reflexivity.
    + rewrite IH. destruct (Z.eqb_spec k' k) as [-> | Hne'].
      * destruct (Z.eqb_spec k0 k); [congruence | reflexivity].
      * reflexivity.
Qed.

Lemma In_dict_set k v d : In (k, v) (dict_set k v d).
Proof.
  induction d as [|[k0 v0] d IH]; simpl; [now left|].
  destruct (k0 =? k); [now left | now right].
Qed.

Lemma In_dict_del k item d : In item (dict_del k d) -> In item d.
Proof.
  induction d as [|[k0 v0] d IH]; simpl; [tauto|].
  destruct (k0 =? k); [intros ?; now right|].
  intros [? | ?]; [now left | right; auto].
Qed.

Lemma dict_keys_del_NoDup k d : List.NoDup (dict_keys d) -> List.NoDup (dict_keys (dict_del k d)).
Proof.
  induction d as [|[k0 v0] d IH]; simpl; [auto|].
  intros Hnd. apply NoDup_cons_iff in Hnd as [Hk0 Hnd].
  destruct (k0 =? k); [assumption|].
  simpl. constructor; [|auto].
  intros Hin. apply Hk0. apply in_map_iff in Hin as ([k1 v1] & Heq & Hin). simpl in Heq. subst k1.
  eapply In_dict_keys, In_dict_del, Hin.
Qed.

Lemma dict_get_del k k' d :
  List.NoDup (dict_keys d) ->
  dict_get k' (dict_del k d) = if k' =? k then None else dict_get k' d.
Proof.
  induction d as [|[k0 v0] d IH]; simpl.
  - intros _. destruct (k' =? k); reflexivity.
  - intros Hnd. apply NoDup_cons_iff in Hnd as [Hk0 Hnd].
    destruct (Z.eqb_spec k0 k) as [-> | Hne]; rewrite ?dict_get_cons.
    + destruct (Z.eqb_spec k' k) as [-> | Hne'].
      * now apply dict_get_None.
      * destruct (Z.eqb_spec k k'); [congruence | reflexivity].
    + rewrite (IH Hnd). destruct (Z.eqb_spec k' k) as [-> | Hne'].
      * destruct (Z.eqb_spec k0 k); [congruence | reflexivity].
      * reflexivity.
Qed.

(** Deleting a list of keys one by one. *)
Lemma dict_get_del_all (ks : list Z) k d :
  List.NoDup (dict_keys d) ->
  dict_get k (fold_left (fun d obj_id => dict_del obj_id d) ks d)
  = if existsb (Z.eqb k) ks then None else dict_get k d.
Proof.
  revert d. induction ks as [|k0 ks IH]; intros d Hnd; simpl; [reflexivity|].
  rewrite IH by now apply dict_keys_del_NoDup.
  rewrite dict_get_del by assumption.
  destruct (k =? k0); simpl; [|reflexivity].
  destruct (existsb _ ks); reflexivity.
Qed.

Lemma In_dict_del_all (ks : list Z) item d :
  In item (fold_left (fun d obj_id => dict_del obj_id d) ks d) -> In item d.
Proof.
  revert d. induction ks as [|k0 ks IH]; intros d; simpl; [auto|].
  intros H. eapply In_dict_del, IH, H.
Qed.

Lemma dict_keys_del_all_NoDup (ks : list Z) d :
  List.NoDup (dict_keys d) ->
  List.NoDup (dict_keys (fold_left (fun d obj_id => dict_del obj_id d) ks d)).
Proof.
  revert d. induction ks as [|k0 ks IH]; intros d Hnd; simpl; [auto|].
  apply IH, dict_keys_del_NoDup, Hnd.
Qed.

End PyDictFacts.

(** ** The history invariant of a track *)

Section DictForall.
Context {V : Type} (P : Z * V -> Prop).

Lemma Forall_dict_alter (f : V -> V) k d :
  Forall P d -> (forall v, P (k, v) -> P (k, f v)) -> Forall P (dict_alter f k d).
Proof.
  intros Hd Hf. induction Hd as [|[k0 v0] d Hx Hd IH]; simpl; [constructor|].
  destruct (Z.eqb_spec k0 k) as [-> | Hne]; constructor; auto.
Qed.

Lemma Forall_dict_set k v d : Forall P d -> P (k, v) -> Forall P (dict_set k v d).
Proof.
  intros Hd Hv. induction Hd as [|[k0 v0] d Hx Hd IH]; simpl; [repeat constructor; auto|].
  destruct (k0 =? k); constructor; auto.
Qed.

Lemma Forall_dict_del_all (ks : list Z) d :
  Forall P d -> Forall P (fold_left (fun d obj_id => dict_del obj_id d) ks d).
Proof.
  rewrite !List.Forall_forall. intros Hd item Hin. eapply Hd, In_dict_del_all, Hin.
Qed.

End DictForall.

Lemma track_inv_init (object_id : Z) (detection : Detection) (frame_number : Z) :
  track_inv (TrackedObject.init object_id detection frame_number).
Proof. unfold track_inv. simpl. repeat split; lia. Qed.

Lemma track_inv_update (o : TrackedObject.t) (detection : Detection) (frame_number : Z) :
  track_inv o -> TrackedObject.last_seen o <= frame_number ->
  track_inv (TrackedObject.update o detection frame_number).
Proof.
  intros (Hlen & Hbound & Hseen) Hframe. unfold track_inv, TrackedObject.update. simpl.
  rewrite !deque_append_length by (unfold TrackedObject.maxlen; lia).
  unfold TrackedObject.maxlen. repeat split; lia.
Qed.

(** The newest position of an updated track is the detection's centre,
    and the histories are the old ones with the new entry appended, cut to
    their 30 newest entries. *)
Lemma update_histories (o : TrackedObject.t) (detection : Detection) (frame_number : Z) :
  track_inv o ->
  let o' := TrackedObject.update o detection frame_number in
  TrackedObject.position_history o'
  = last_n 30 (TrackedObject.position_history o ++ [det_center detection])
  /\ TrackedObject.bbox_history o'
     = last_n 30 (TrackedObject.bbox_history o ++ [det_bbox detection]).
Proof.
  intros (Hlen & Hbound & _). simpl.
  split; apply deque_append_last_n; unfold TrackedObject.maxlen; lia.
Qed.

Lemma frame_count_track_detection st detection :
  BehaviorAnalyzer.frame_count (BehaviorAnalyzer.track_detection st detection).1
  = BehaviorAnalyzer.frame_count st.1.
Proof.
  destruct st as [s m]. unfold BehaviorAnalyzer.track_detection.
  destruct (BehaviorAnalyzer.match_detection_to_tracked _ _ _); reflexivity.
Qed.

Lemma frame_count_match_all s detections :
  BehaviorAnalyzer.frame_count (BehaviorAnalyzer.match_all s detections).1
  = BehaviorAnalyzer.frame_count s + 1.
Proof.
  unfold BehaviorAnalyzer.match_all.
  change (BehaviorAnalyzer.frame_count s + 1)
    with (BehaviorAnalyzer.frame_count (BehaviorAnalyzer.next_frame s, (∅ : gset Z)).1).
  generalize (BehaviorAnalyzer.next_frame s, (∅ : gset Z)).
  induction detections as [|d ds IH]; intros st; simpl; [reflexivity|].
  rewrite IH. apply frame_count_track_detection.
Qed.

Lemma frame_count_update_tracks s detections :
  BehaviorAnalyzer.frame_count (BehaviorAnalyzer.update_tracks s detections)
  = BehaviorAnalyzer.frame_count s + 1.
Proof. unfold BehaviorAnalyzer.update_tracks. simpl. apply frame_count_match_all. Qed.

Lemma tracks_inv_track_detection st detection :
  tracks_inv st.1 -> tracks_inv (BehaviorAnalyzer.track_detection st detection).1.
Proof.
  destruct st as [s m]. unfold tracks_inv, BehaviorAnalyzer.track_detection. simpl.
  intros Hs.
  destruct (BehaviorAnalyzer.match_detection_to_tracked _ _ _) as [matched_id|]; simpl.
  - apply Forall_dict_alter; [assumption|].
    simpl. intros o [Ho Hseen]. split; [|simpl; lia].
    now apply track_inv_update.
  - apply Forall_dict_set; [assumption|].
    simpl. split; [apply track_inv_init | lia].
Qed.

Lemma tracks_inv_next_frame s : tracks_inv s -> tracks_inv (BehaviorAnalyzer.next_frame s).
Proof.
  unfold tracks_inv. simpl. apply List.Forall_impl. intros item [? ?]. split; [assumption | lia].
Qed.

Lemma tracks_inv_match_all s detections :
  tracks_inv s -> tracks_inv (BehaviorAnalyzer.match_all s detections).1.
Proof.
  intros Hs. apply tracks_inv_next_frame in Hs. unfold BehaviorAnalyzer.match_all.
  change (tracks_inv (BehaviorAnalyzer.next_frame s, (∅ : gset Z)).1) in Hs.
  revert Hs. generalize (BehaviorAnalyzer.next_frame s, (∅ : gset Z)).
  induction detections as [|d ds IH]; intros st Hst; simpl; [assumption|].
  apply IH. now apply tracks_inv_track_detection.
Qed.

(** C9.  Track creation and every per-frame update of the tracker keep the
    histories of every track of equal length, between 1 and 30 entries
    long, and keep [last_seen >= first_seen]: if the tracks of the
    analyzer satisfy the invariant before [update_tracks], those it holds
    afterwards (updated, newly created or untouched) satisfy it too. *)
Theorem history_invariant_preserved (s : BehaviorAnalyzer.t) (detections : list Detection) :
  tracks_inv s -> tracks_inv (BehaviorAnalyzer.update_tracks s detections).
Proof.
  intros Hs. apply (tracks_inv_match_all s detections) in Hs.
  unfold BehaviorAnalyzer.update_tracks, BehaviorAnalyzer.remove_old, tracks_inv in *.
  simpl. now apply Forall_dict_del_all.
Qed.

Lemma history_invariant_preserved_witness :
  tracks_inv BehaviorAnalyzer.init
  /\ tracks_inv (BehaviorAnalyzer.update_tracks
                   (BehaviorAnalyzer.update_tracks BehaviorAnalyzer.init [person_at 100 100])
                   [person_at 105 100; person_at 300 100]).
Proof.
  assert (H0 : tracks_inv BehaviorAnalyzer.init) by constructor.
  split; [exact H0|].
  apply history_invariant_preserved, history_invariant_preserved, H0.
Defined.

(** ** Nearest-neighbour matching *)

Lemma match_step_cases s detection best obj_id o :
  (BehaviorAnalyzer.match_step s detection best (obj_id, o) = (Some obj_id, match_distance detection o)
   /\ eligible s detection o
   /\ (match_distance detection o <? best.2)%float = true)
  \/ (BehaviorAnalyzer.match_step s detection best (obj_id, o) = best
      /\ (eligible s detection o -> (match_distance detection o <? best.2)%float = false)).
Proof.
  unfold BehaviorAnalyzer.match_step, eligible, match_distance.
  destruct (String.eqb_spec (TrackedObject.class_name o) (det_class_name detection))
    as [Hc | Hc]; simpl.
  - destruct (Z.ltb_spec 10 (BehaviorAnalyzer.frame_count s - TrackedObject.last_seen o))
      as [Hr | Hr].
    + right. split; [reflexivity | intros [_ ?]; lia].
    + destruct (euclid _ _ <? best.2)%float eqn:Hd.
      * left. repeat split; auto.
      * right. split; [reflexivity | auto].
  - right. split; [reflexivity | intros [? _]; contradiction].
Qed.

(** The loop of the matcher, from any starting accumulator: either no item
    improved on it, or the result is an eligible item that is strictly
    closer than the starting radius and that no eligible item beats. *)
Lemma match_fold_spec s detection (items : list (Z * TrackedObject.t)) :
  forall (best : option Z * float),
    (fold_left (BehaviorAnalyzer.match_step s detection) items best = best
     /\ forall k o, In (k, o) items -> eligible s detection o ->
                    (match_distance detection o <? best.2)%float = false)
    \/ (exists k o, In (k, o) items
                    /\ fold_left (BehaviorAnalyzer.match_step s detection) items best
                       = (Some k, match_distance detection o)
                    /\ eligible s detection o
                    /\ (match_distance detection o <? best.2)%float = true
                    /\ forall k' o', In (k', o') items -> eligible s detection o' ->
                         (match_distance detection o' <? match_distance detection o)%float
                         = false).
Proof.
  induction items as [|[k0 o0] items IH]; intros best; cbn [fold_left].
  - left. split; [reflexivity | intros ? ? []].
  - destruct (match_step_cases s detection best k0 o0) as [(Hstep & Hel & Hlt) | (Hstep & Hno)];
      rewrite Hstep.
    + destruct (IH (Some k0, match_distance detection o0))
        as [(Hres & Hrest) | (k & o & Hin & Hres & Helo & Hlto & Hmin)].
      * right. exists k0, o0.
        split; [now left|]. split; [assumption|]. split; [assumption|]. split; [assumption|].
        intros k' o' [[= <- <-] | Hin] Hel'; [apply float_ltb_irrefl | eauto].
      * simpl in Hlto. right. exists k, o.
        split; [now right|]. split; [assumption|]. split; [assumption|].
        split; [eapply float_ltb_trans; eauto|].
        intros k' o' [[= <- <-] | Hin'] Hel'; [now apply float_ltb_asym | eauto].
    + destruct (IH best) as [(Hres & Hrest) | (k & o & Hin & Hres & Helo & Hlto & Hmin)].
      * left. split; [assumption|].
        intros k o [[= <- <-] | Hin] Helo; eauto.
      * right. exists k, o.
        split; [now right|]. split; [assumption|]. split; [assumption|]. split; [assumption|].
        intros k' o' [[= <- <-] | Hin'] Hel'; [|eauto].
        eapply float_not_ltb_trans; eauto.
Qed.

(** The matcher answers [Some k] only for a track it holds under [k]. *)
Lemma match_Some_eligible s detection r k :
  BehaviorAnalyzer.match_detection_to_tracked s detection r = Some k ->
  exists o, In (k, o) (BehaviorAnalyzer.tracked_objects s) /\ eligible s detection o
            /\ (match_distance detection o <? r)%float = true.
Proof.
  unfold BehaviorAnalyzer.match_detection_to_tracked. intros Hm.
  destruct (match_fold_spec s detection (BehaviorAnalyzer.tracked_objects s) (None, r))
    as [(Hres & _) | (k' & o & Hin & Hres & Hel & Hlt & _)]; rewrite Hres in Hm; simpl in Hm.
  - discriminate.
  - injection Hm as <-. eauto.
Qed.

(** *** Distances in whole pixels

    The matcher and the tracker compare distances with [100] and [10] and
    with each other; each comparison comes out as it does on the squared
    distances, which are integers. *)

Lemma sq_dist_nonneg (a b : Point) : 0 <= sq_dist a b.
Proof.
  unfold sq_dist. rewrite !Z.pow_2_r.
  pose proof (Z.square_nonneg (a.1 - b.1)). pose proof (Z.square_nonneg (a.2 - b.2)). lia.
Qed.

Lemma euclid_ltb_int (a b : Point) (k : Z) :
  0 < k < 2 ^ 25 -> (euclid a b <? float_of_Z k)%float = (sq_dist a b <? k * k).
Proof. intros Hk. apply dist_ltb_int; [apply sq_dist_nonneg | exact Hk]. Qed.

Lemma euclid_ltb (a b c d : Point) :
  sq_dist a b < 2 ^ 50 \/ sq_dist c d < 2 ^ 50 ->
  (euclid a b <? euclid c d)%float = (sq_dist a b <? sq_dist c d).
Proof. intros Hb. apply dist_ltb; [apply sq_dist_nonneg | apply sq_dist_nonneg | exact Hb]. Qed.

Lemma euclid_leb (a b c d : Point) :
  sq_dist a b < 2 ^ 50 \/ sq_dist c d < 2 ^ 50 ->
  (euclid a b <=? euclid c d)%float = (sq_dist a b <=? sq_dist c d).
Proof. intros Hb. apply dist_leb; [apply sq_dist_nonneg | apply sq_dist_nonneg | exact Hb]. Qed.

Lemma euclid_ltb_100 (a b : Point) : (euclid a b <? 100)%float = (sq_dist a b <? 100 ^ 2).
Proof. apply (euclid_ltb_int a b 100). split; reflexivity. Qed.

Lemma euclid_ltb_10 (a b : Point) : (euclid a b <? 10)%float = (sq_dist a b <? 10 ^ 2).
Proof. apply (euclid_ltb_int a b 10). split; reflexivity. Qed.

(** The matcher with the radius of [update_tracks], in whole pixels: the
    track it answers is eligible, less than 100 px away, and no eligible
    track is nearer. *)
Lemma match_Some_nearest s detection k :
  BehaviorAnalyzer.match_detection_to_tracked s detection 100%float = Some k ->
  exists o,
    In (k, o) (BehaviorAnalyzer.tracked_objects s)
    /\ eligible s detection o
    /\ sq_dist (det_center detection) (TrackedObject.current_position o) < 100 ^ 2
    /\ forall k' o',
         In (k', o') (BehaviorAnalyzer.tracked_objects s) -> eligible s detection o' ->
         sq_dist (det_center detection) (TrackedObject.current_position o)
         <= sq_dist (det_center detection) (TrackedObject.current_position o').
Proof.
  unfold BehaviorAnalyzer.match_detection_to_tracked. intros Hk.
  destruct (match_fold_spec s detection (BehaviorAnalyzer.tracked_objects s) (None, 100%float))
    as [(Hres & _) | (k' & o & Hin & Hres & Hel & Hlt & Hmin)];
    rewrite Hres in Hk; cbn [fst] in Hk; [discriminate|].
  injection Hk as <-. exists o. unfold match_distance in *. cbn [snd] in Hlt.
  rewrite euclid_ltb_100 in Hlt. apply Z.ltb_lt in Hlt.
  split; [exact Hin|]. split; [exact Hel|]. split; [exact Hlt|].
  intros k'' o' Hin' Hel'. specialize (Hmin k'' o' Hin' Hel').
  rewrite euclid_ltb in Hmin by (right; lia). apply Z.ltb_ge in Hmin. exact Hmin.
Qed.

(** It answers [None] exactly when every eligible track is 100 px away or
    more. *)
Lemma match_None_far s detection :
  BehaviorAnalyzer.match_detection_to_tracked s detection 100%float = None <->
  forall k o,
    In (k, o) (BehaviorAnalyzer.tracked_objects s) -> eligible s detection o ->
    100 ^ 2 <= sq_dist (det_center detection) (TrackedObject.current_position o).
Proof.
  unfold BehaviorAnalyzer.match_detection_to_tracked.
  destruct (match_fold_spec s detection (BehaviorAnalyzer.tracked_objects s) (None, 100%float))
    as [(Hres & Hnone) | (k' & o & Hin & Hres & Hel & Hlt & _)]; rewrite Hres; cbn [fst snd] in *.
  - split; [|reflexivity]. intros _ k o Hin Hel. specialize (Hnone k o Hin Hel).
    unfold match_distance in Hnone. rewrite euclid_ltb_100 in Hnone.
    apply Z.ltb_ge in Hnone. exact Hnone.
  - split; [discriminate|]. intros Hall. specialize (Hall k' o Hin Hel).
    unfold match_distance in Hlt. rewrite euclid_ltb_100 in Hlt. apply Z.ltb_lt in Hlt. lia.
Qed.

(** C3.  A detection is matched to a track only if the track has the
    detection's class, was seen at most 10 frames ago and lies strictly
    less than 100 px from the detection's centre (Euclidean distance from
    the centre to the newest stored position: the squared distance, an
    integer, is below [100^2]); no track satisfying these conditions is
    nearer than the chosen one; the chosen track is the one
    [update_tracks] updates; and the matcher answers [None] exactly when
    no track satisfies the conditions, in which case [update_tracks]
    creates a track for the detection under the next free id. *)
Theorem match_nearest_eligible (s : BehaviorAnalyzer.t) (detection : Detection) :
  (forall k,
     BehaviorAnalyzer.match_detection_to_tracked s detection 100%float = Some k ->
     (exists o,
        In (k, o) (BehaviorAnalyzer.tracked_objects s)
        /\ TrackedObject.class_name o = det_class_name detection
        /\ BehaviorAnalyzer.frame_count s - TrackedObject.last_seen o <= 10
        /\ ((det_center detection).1 - (TrackedObject.current_position o).1) ^ 2
           + ((det_center detection).2 - (TrackedObject.current_position o).2) ^ 2
           < 100 ^ 2
        /\ forall k' o',
             In (k', o') (BehaviorAnalyzer.tracked_objects s) ->
             TrackedObject.class_name o' = det_class_name detection ->
             BehaviorAnalyzer.frame_count s - TrackedObject.last_seen o' <= 10 ->
             ((det_center detection).1 - (TrackedObject.current_position o).1) ^ 2
             + ((det_center detection).2 - (TrackedObject.current_position o).2) ^ 2
             <= ((det_center detection).1 - (TrackedObject.current_position o').1) ^ 2
                + ((det_center detection).2 - (TrackedObject.current_position o').2) ^ 2)
     /\ forall matched_ids,
          BehaviorAnalyzer.tracked_objects
            (BehaviorAnalyzer.track_detection (s, matched_ids) detection).1
          = dict_alter (fun o => TrackedObject.update o detection (BehaviorAnalyzer.frame_count s))
                       k (BehaviorAnalyzer.tracked_objects s))
  /\ (BehaviorAnalyzer.match_detection_to_tracked s detection 100%float = None <->
      forall k o,
        In (k, o) (BehaviorAnalyzer.tracked_objects s) ->
        TrackedObject.class_name o = det_class_name detection ->
        BehaviorAnalyzer.frame_count s - TrackedObject.last_seen o <= 10 ->
        100 ^ 2
        <= ((det_center detection).1 - (TrackedObject.current_position o).1) ^ 2
           + ((det_center detection).2 - (TrackedObject.current_position o).2) ^ 2)
  /\ (BehaviorAnalyzer.match_detection_to_tracked s detection 100%float = None ->
      forall matched_ids,
        BehaviorAnalyzer.tracked_objects
          (BehaviorAnalyzer.track_detection (s, matched_ids) detection).1
        = dict_set (BehaviorAnalyzer.next_object_id s)
                   (TrackedObject.init (BehaviorAnalyzer.next_object_id s) detection
                                       (BehaviorAnalyzer.frame_count s))
                   (BehaviorAnalyzer.tracked_objects s)).
Proof.
  split; [|split].
  - intros k Hk. split.
    + destruct (match_Some_nearest s detection k Hk) as (o & Hin & [Hc Hr] & Hlt & Hmin).
      exists o. split; [exact Hin|]. split; [exact Hc|]. split; [exact Hr|].
      split; [exact Hlt|].
      intros k' o' Hin' Hc' Hr'. exact (Hmin k' o' Hin' (conj Hc' Hr')).
    + intros matched_ids. unfold BehaviorAnalyzer.track_detection. rewrite Hk. reflexivity.
  - rewrite match_None_far. split.
    + intros Hall k o Hin Hc Hr. exact (Hall k o Hin (conj Hc Hr)).
    + intros Hall k o Hin [Hc Hr]. exact (Hall k o Hin Hc Hr).
  - intros Hnone matched_ids. unfold BehaviorAnalyzer.track_detection.
    rewrite Hnone. reflexivity.
Qed.

Lemma match_nearest_eligible_witness :
  exists o,
    In (0, o) (BehaviorAnalyzer.tracked_objects
                 (BehaviorAnalyzer.next_frame
                    (BehaviorAnalyzer.update_tracks BehaviorAnalyzer.init [person_at 100 100])))
    /\ TrackedObject.class_name o = "person"%string
    /\ (105 - (TrackedObject.current_position o).1) ^ 2
       + (100 - (TrackedObject.current_position o).2) ^ 2 < 100 ^ 2.
Proof.
  destruct (proj1 (proj1 (match_nearest_eligible
                            (BehaviorAnalyzer.next_frame
                               (BehaviorAnalyzer.update_tracks BehaviorAnalyzer.init
                                                               [person_at 100 100]))
                            (person_at 105 100)) 0 eq_refl))
    as (o & Hin & Hclass & _ & Hdist & _).
  exists o. exact (conj Hin (conj Hclass Hdist)).
Defined.

(** ** Track identifiers *)

Lemma keys_inv_init : keys_inv BehaviorAnalyzer.init.
Proof. split; constructor. Qed.

Lemma keys_inv_fresh s :
  keys_inv s ->
  ~ In (BehaviorAnalyzer.next_object_id s) (dict_keys (BehaviorAnalyzer.tracked_objects s)).
Proof.
  intros [_ Hlt] Hin. rewrite List.Forall_forall in Hlt. specialize (Hlt _ Hin). lia.
Qed.

Lemma keys_inv_track_detection st detection :
  keys_inv st.1 -> keys_inv (BehaviorAnalyzer.track_detection st detection).1.
Proof.
  destruct st as [s m]. simpl. intros Hs. pose proof (keys_inv_fresh s Hs) as Hfresh.
  destruct Hs as [Hnd Hlt]. unfold keys_inv, BehaviorAnalyzer.track_detection.
  destruct (BehaviorAnalyzer.match_detection_to_tracked _ _ _) as [matched_id|]; simpl.
  - rewrite dict_keys_alter. now split.
  - rewrite dict_set_fresh by assumption. unfold dict_keys in *. rewrite map_app. simpl. split.
    + apply NoDup_app_remove_l with (l := []). simpl.
      apply List.NoDup_rev in Hnd. rewrite <- (rev_involutive (map fst _ ++ _)).
      apply List.NoDup_rev. rewrite rev_app_distr. simpl. constructor; [|assumption].
      now rewrite <- in_rev.
    + apply Forall_app. split.
      * eapply List.Forall_impl; [|exact Hlt]. simpl. intros; lia.
      * repeat constructor. lia.
Qed.

Lemma keys_inv_match_all s detections :
  keys_inv s -> keys_inv (BehaviorAnalyzer.match_all s detections).1.
Proof.
  intros Hs. unfold BehaviorAnalyzer.match_all.
  assert (H0 : keys_inv (BehaviorAnalyzer.next_frame s, (∅ : gset Z)).1) by exact Hs.
  revert H0. generalize (BehaviorAnalyzer.next_frame s, (∅ : gset Z)).
  induction detections as [|d ds IH]; intros st Hst; simpl; [assumption|].
  apply IH. now apply keys_inv_track_detection.
Qed.

Lemma keys_inv_update_tracks s detections :
  keys_inv s -> keys_inv (BehaviorAnalyzer.update_tracks s detections).
Proof.
  intros Hs. apply (keys_inv_match_all s detections) in Hs. destruct Hs as [Hnd Hlt].
  unfold keys_inv, BehaviorAnalyzer.update_tracks, BehaviorAnalyzer.remove_old. simpl. split.
  - now apply dict_keys_del_all_NoDup.
  - rewrite List.Forall_forall in *. intros k Hk.
    apply in_map_iff in Hk as ([k' o] & Heq & Hin). simpl in Heq. subst k'.
    apply Hlt. eapply In_dict_keys, In_dict_del_all, Hin.
Qed.

(** ** Eviction *)

(** The keys collected in [to_remove], seen from one key. *)
Lemma to_remove_spec {V : Type} (P : Z * V -> bool) (k : Z) (d : list (Z * V)) :
  List.NoDup (dict_keys d) ->
  existsb (Z.eqb k) (map fst (List.filter P d))
  = match dict_get k d with Some v => P (k, v) | None => false end.
Proof.
  induction d as [|[k0 v0] d IH]; simpl; [reflexivity|].
  intros Hnd. apply NoDup_cons_iff in Hnd as [Hk0 Hnd]. specialize (IH Hnd).
  rewrite dict_get_cons. destruct (Z.eqb_spec k0 k) as [-> | Hne].
  - assert (Hnone : dict_get k d = None) by now apply dict_get_None.
    rewrite Hnone in IH. destruct (P (k, v0)); simpl; [now rewrite Z.eqb_refl | exact IH].
  - destruct (P (k0, v0)); simpl; [|exact IH].
    destruct (Z.eqb_spec k k0); [congruence | exact IH].
Qed.

(** The sweep keeps exactly the tracks that are not old. *)
Lemma dict_get_remove_old (s : BehaviorAnalyzer.t) (k : Z) :
  List.NoDup (dict_keys (BehaviorAnalyzer.tracked_objects s)) ->
  dict_get k (BehaviorAnalyzer.tracked_objects (BehaviorAnalyzer.remove_old s))
  = match dict_get k (BehaviorAnalyzer.tracked_objects s) with
    | Some o => if BehaviorAnalyzer.is_old (BehaviorAnalyzer.frame_count s) (k, o)
                then None else Some o
    | None => None
    end.
Proof.
  intros Hnd. unfold BehaviorAnalyzer.remove_old. simpl.
  rewrite dict_get_del_all by assumption. rewrite to_remove_spec by assumption.
  destruct (dict_get k _) as [o|]; reflexivity.
Qed.

(** What one iteration of the matching loop does to the track stored
    under a key: nothing, or an update by a detection it was eligible for. *)
Lemma dict_get_track_detection st detection k o :
  keys_inv st.1 ->
  dict_get k (BehaviorAnalyzer.tracked_objects st.1) = Some o ->
  exists o',
    dict_get k (BehaviorAnalyzer.tracked_objects
                  (BehaviorAnalyzer.track_detection st detection).1) = Some o'
    /\ (o' = o
        \/ (eligible st.1 detection o
            /\ o' = TrackedObject.update o detection (BehaviorAnalyzer.frame_count st.1))).
Proof.
  destruct st as [s m]. simpl. intros Hs Hget.
  pose proof (keys_inv_fresh s Hs) as Hfresh. destruct Hs as [Hnd Hlt].
  unfold BehaviorAnalyzer.track_detection.
  destruct (BehaviorAnalyzer.match_detection_to_tracked s detection 100%float)
    as [matched_id|] eqn:Hm; simpl.
  - rewrite dict_get_alter. destruct (Z.eqb_spec k matched_id) as [-> | Hne].
    + rewrite Hget. simpl. eexists. split; [reflexivity|]. right. split; [|reflexivity].
      apply match_Some_eligible in Hm as (o2 & Hin & Hel & _).
      apply (dict_get_In _ _ _ Hnd) in Hin. congruence.
    + exists o. auto.
  - rewrite dict_get_set. destruct (Z.eqb_spec k (BehaviorAnalyzer.next_object_id s)) as [-> | Hne].
    + exfalso. apply Hfresh. eapply In_dict_keys, dict_get_Some_In, Hget.
    + exists o. auto.
Qed.

(** Through the whole matching loop: a track stays under its key, and it
    is either untouched or was seen in the current frame, the latter only
    if it had been seen during the last 10 frames. *)
Lemma dict_get_match_loop detections :
  forall st k o,
    keys_inv st.1 ->
    dict_get k (BehaviorAnalyzer.tracked_objects st.1) = Some o ->
    exists o',
      dict_get k (BehaviorAnalyzer.tracked_objects
                    (fold_left BehaviorAnalyzer.track_detection detections st).1) = Some o'
      /\ (o' = o
          \/ (BehaviorAnalyzer.frame_count st.1 - TrackedObject.last_seen o <= 10
              /\ TrackedObject.last_seen o' = BehaviorAnalyzer.frame_count st.1)).
Proof.
  induction detections as [|d ds IH]; intros st k o Hs Hget; cbn [fold_left].
  - exists o. auto.
  - destruct (dict_get_track_detection st d k o Hs Hget) as (o1 & Hget1 & Ho1).
    destruct (IH _ k o1 (keys_inv_track_detection st d Hs) Hget1) as (o' & Hget' & Ho').
    rewrite frame_count_track_detection in Ho'.
    exists o'. split; [exact Hget'|].
    destruct Ho1 as [-> | ([_ Hrecent] & ->)]; [exact Ho'|].
    right. split; [exact Hrecent|].
    destruct Ho' as [-> | [_ ?]]; [reflexivity | assumption].
Qed.

(** C4.  After [update_tracks] has processed the detections of frame [N]
    (the analyzer's frame counter plus one), the analyzer holds exactly
    the tracks of the matching loop whose gap [N - last_seen] is at most
    30.  In terms of the tracks held before the call: one whose gap is at
    most 30 (in particular exactly 30) is still there, and one whose gap
    exceeds 30 (in particular is exactly 31) is gone. *)
Theorem eviction_after_30_frames (s : BehaviorAnalyzer.t) (detections : list Detection) :
  keys_inv s ->
  let N := BehaviorAnalyzer.frame_count s + 1 in
  let matched := (BehaviorAnalyzer.match_all s detections).1 in
  let s' := BehaviorAnalyzer.update_tracks s detections in
  BehaviorAnalyzer.frame_count s' = N
  /\ (forall k o,
        dict_get k (BehaviorAnalyzer.tracked_objects s') = Some o <->
        dict_get k (BehaviorAnalyzer.tracked_objects matched) = Some o
        /\ N - TrackedObject.last_seen o <= 30)
  /\ (forall k o,
        dict_get k (BehaviorAnalyzer.tracked_objects s) = Some o ->
        N - TrackedObject.last_seen o <= 30 ->
        exists o', dict_get k (BehaviorAnalyzer.tracked_objects s') = Some o')
  /\ (forall k o,
        dict_get k (BehaviorAnalyzer.tracked_objects s) = Some o ->
        30 < N - TrackedObject.last_seen o ->
        dict_get k (BehaviorAnalyzer.tracked_objects s') = None).
Proof.
  intros Hs N matched s'.
  pose proof (keys_inv_match_all s detections Hs) as [Hnd _]. fold matched in Hnd.
  assert (Hfc : BehaviorAnalyzer.frame_count matched = N)
    by apply frame_count_match_all.
  assert (Hsweep : forall k,
             dict_get k (BehaviorAnalyzer.tracked_objects s')
             = match dict_get k (BehaviorAnalyzer.tracked_objects matched) with
               | Some o => if 30 <? N - TrackedObject.last_seen o then None else Some o
               | None => None
               end).
  { intros k. unfold s', BehaviorAnalyzer.update_tracks. fold matched.
    rewrite dict_get_remove_old by assumption. unfold BehaviorAnalyzer.is_old.
    rewrite Hfc. reflexivity. }
  assert (Hloop : forall k o,
             dict_get k (BehaviorAnalyzer.tracked_objects s) = Some o ->
             exists o', dict_get k (BehaviorAnalyzer.tracked_objects matched) = Some o'
                        /\ (o' = o \/ (N - TrackedObject.last_seen o <= 10
                                       /\ TrackedObject.last_seen o' = N))).
  { intros k o Hget.
    exact (dict_get_match_loop detections (BehaviorAnalyzer.next_frame s, ∅) k o Hs Hget). }
  split; [apply frame_count_update_tracks|]. split; [|split].
  - intros k o. rewrite Hsweep.
    destruct (dict_get k (BehaviorAnalyzer.tracked_objects matched)) as [o1|]; [|split; [discriminate | intros [? _]; discriminate]].
    destruct (Z.ltb_spec 30 (N - TrackedObject.last_seen o1)).
    + split; [discriminate | intros [[= ->] ?]; lia].
    + split; [intros [= ->]; auto | intros [? _]; assumption].
  - intros k o Hget Hgap. destruct (Hloop k o Hget) as (o' & Hget' & Ho').
    rewrite Hsweep, Hget'.
    destruct (Z.ltb_spec 30 (N - TrackedObject.last_seen o')); [|eauto].
    destruct Ho' as [-> | [_ ?]]; lia.
  - intros k o Hget Hgap. destruct (Hloop k o Hget) as (o' & Hget' & Ho').
    rewrite Hsweep, Hget'.
    destruct Ho' as [-> | [? _]]; [|lia].
    destruct (Z.ltb_spec 30 (N - TrackedObject.last_seen o)); [reflexivity | lia].
Qed.

Lemma eviction_after_30_frames_witness :
  (exists o',
     dict_get 0 (BehaviorAnalyzer.tracked_objects
                   (BehaviorAnalyzer.update_tracks (idle_after_one_person 29) []))
     = Some o')
  /\ dict_get 0 (BehaviorAnalyzer.tracked_objects
                   (BehaviorAnalyzer.update_tracks (idle_after_one_person 30) []))
     = None.
Proof.
  assert (H29 : keys_inv (idle_after_one_person 29)).
  { split; vm_compute; repeat constructor. intros []. }
  assert (H30 : keys_inv (idle_after_one_person 30)).
  { split; vm_compute; repeat constructor. intros []. }
  split.
  - destruct (eviction_after_30_frames (idle_after_one_person 29) [] H29)
      as (_ & _ & Hstay & _).
    eapply Hstay; [vm_compute; reflexivity | vm_compute; discriminate].
  - destruct (eviction_after_30_frames (idle_after_one_person 30) [] H30)
      as (_ & _ & _ & Hgone).
    eapply Hgone; [vm_compute; reflexivity | vm_compute; reflexivity].
Defined.

(** ** The classifier and its cooldown *)

Lemma in_cooldown_ext (frame : Z) (m1 m2 : gmap Z Z) (t : Z) :
  m1 !! t = m2 !! t ->
  BehaviorAnalyzer.in_cooldown frame m1 t = BehaviorAnalyzer.in_cooldown frame m2 t.
Proof. unfold BehaviorAnalyzer.in_cooldown. intros ->. reflexivity. Qed.

(** The cooldown test spelled out: the track has a last-alert frame and it
    is fewer than 90 frames old. *)
Lemma in_cooldown_spec (frame : Z) (m : gmap Z Z) (t : Z) :
  BehaviorAnalyzer.in_cooldown frame m t = true <->
  exists last_alert, m !! t = Some last_alert /\ frame - last_alert < 90.
Proof.
  unfold BehaviorAnalyzer.in_cooldown, BehaviorAnalyzer.ALERT_COOLDOWN_FRAMES.
  destruct (m !! t) as [l|].
  - rewrite Z.ltb_lt. split; [eauto | intros (? & [= <-] & ?); assumption].
  - split; [discriminate | intros (? & [=] & _)].
Qed.

(** The loop body of the classifier in one piece: a track that is not a
    person or is cooling down is skipped; otherwise every qualifying
    behaviour is reported and the track's cooldown entry is set if any
    was. *)
Lemma analyze_object_unfold (frame : Z) (acc : list Event * gmap Z Z) (obj_id : Z)
    (o : TrackedObject.t) :
  BehaviorAnalyzer.analyze_object frame acc (obj_id, o)
  = if negb (String.eqb (TrackedObject.class_name o) "person")
       || BehaviorAnalyzer.in_cooldown frame acc.2 obj_id
    then acc
    else (acc.1 ++ qualifying_events obj_id o,
          if existsb (fun k => BehaviorAnalyzer.qualifies k o) kinds
          then <[obj_id := frame]> acc.2 else acc.2).
Proof.
  unfold BehaviorAnalyzer.analyze_object.
  destruct (negb _); [reflexivity|]. cbn [orb].
  destruct (BehaviorAnalyzer.in_cooldown _ _ _); [reflexivity|].
  unfold BehaviorAnalyzer.behavior_check, qualifying_events, kinds.
  cbn [List.filter map existsb].
  destruct acc as [events cooldown].
  destruct (BehaviorAnalyzer.qualifies fast_movement o),
    (BehaviorAnalyzer.qualifies loitering o),
    (BehaviorAnalyzer.qualifies erratic_movement o);
    cbn [fst snd map orb]; rewrite ?insert_insert_eq, <- ?app_assoc, ?app_nil_r; reflexivity.
Qed.

Lemma events_for_app (t : Z) (a b : list Event) :
  events_for t (a ++ b) = events_for t a ++ events_for t b.
Proof. apply List.filter_app. Qed.

Lemma events_for_event_of (t obj_id : Z) (o : TrackedObject.t) (ks : list BehaviorKind) :
  events_for t (map (fun k => BehaviorAnalyzer.event_of k obj_id o) ks)
  = if obj_id =? t then map (fun k => BehaviorAnalyzer.event_of k obj_id o) ks else [].
Proof.
  unfold events_for.
  induction ks as [|k ks IH]; cbn [map List.filter]; [destruct (obj_id =? t); reflexivity|].
  assert (Hid : ev_object_id (BehaviorAnalyzer.event_of k obj_id o) = obj_id)
    by (destruct k; reflexivity).
  rewrite Hid, IH. destruct (obj_id =? t); reflexivity.
Qed.

Lemma events_for_qualifying (t obj_id : Z) (o : TrackedObject.t) :
  events_for t (qualifying_events obj_id o)
  = if obj_id =? t then qualifying_events obj_id o else [].
Proof. apply events_for_event_of. Qed.

(** A track's events and cooldown entry are out of reach of the other
    tracks' iterations. *)
Lemma analyze_object_other (frame : Z) (acc : list Event * gmap Z Z) (obj_id t : Z)
    (o : TrackedObject.t) :
  obj_id <> t ->
  events_for t (BehaviorAnalyzer.analyze_object frame acc (obj_id, o)).1 = events_for t acc.1
  /\ (BehaviorAnalyzer.analyze_object frame acc (obj_id, o)).2 !! t = acc.2 !! t.
Proof.
  intros Hne. rewrite analyze_object_unfold.
  destruct (_ || _); [split; reflexivity|]. cbn [fst snd]. split.
  - rewrite events_for_app, events_for_qualifying.
    destruct (Z.eqb_spec obj_id t); [contradiction | apply app_nil_r].
  - destruct (existsb _ _); [|reflexivity]. now apply lookup_insert_ne.
Qed.

Lemma classify_fold_other (frame : Z) (t : Z) (items : list (Z * TrackedObject.t)) :
  ~ In t (dict_keys items) ->
  forall acc,
    events_for t (fold_left (BehaviorAnalyzer.analyze_object frame) items acc).1
    = events_for t acc.1
    /\ (fold_left (BehaviorAnalyzer.analyze_object frame) items acc).2 !! t = acc.2 !! t.
Proof.
  induction items as [|[k o] items IH]; intros Hnot acc; cbn [fold_left]; [split; reflexivity|].
  simpl in Hnot.
  destruct (IH (fun H => Hnot (or_intror H))
               (BehaviorAnalyzer.analyze_object frame acc (k, o))) as [He Hc].
  destruct (analyze_object_other frame acc k t o (fun H => Hnot (or_introl H))) as [He' Hc'].
  split; congruence.
Qed.

(** While a track cools down, a whole pass of the classifier reports
    nothing for it and leaves its cooldown entry alone. *)
Lemma classify_fold_suppressed (frame : Z) (t : Z) (items : list (Z * TrackedObject.t)) :
  forall acc,
    BehaviorAnalyzer.in_cooldown frame acc.2 t = true ->
    events_for t (fold_left (BehaviorAnalyzer.analyze_object frame) items acc).1
    = events_for t acc.1
    /\ (fold_left (BehaviorAnalyzer.analyze_object frame) items acc).2 !! t = acc.2 !! t.
Proof.
  induction items as [|[k o] items IH]; intros acc Hcool; cbn [fold_left]; [split; reflexivity|].
  assert (Hstep : events_for t (BehaviorAnalyzer.analyze_object frame acc (k, o)).1
                  = events_for t acc.1
                  /\ (BehaviorAnalyzer.analyze_object frame acc (k, o)).2 !! t = acc.2 !! t).
  { destruct (Z.eq_dec k t) as [-> | Hne]; [|now apply analyze_object_other].
    rewrite analyze_object_unfold, Hcool, orb_true_r. split; reflexivity. }
  destruct Hstep as [He Hc].
  destruct (IH (BehaviorAnalyzer.analyze_object frame acc (k, o))) as [He' Hc'].
  - rewrite (in_cooldown_ext frame _ acc.2 t Hc). exact Hcool.
  - split; congruence.
Qed.

Lemma filter_none {A : Type} (P : A -> bool) (l : list A) :
  existsb P l = false -> List.filter P l = [].
Proof.
  induction l as [|a l IH]; simpl; [reflexivity|].
  destruct (P a); simpl; [discriminate | exact IH].
Qed.

(** A pass that reports something for a track leaves the current frame in
    its cooldown entry. *)
Lemma classify_fold_records (frame : Z) (t : Z) (items : list (Z * TrackedObject.t)) :
  forall acc,
    (events_for t acc.1 <> [] -> acc.2 !! t = Some frame) ->
    events_for t (fold_left (BehaviorAnalyzer.analyze_object frame) items acc).1 <> [] ->
    (fold_left (BehaviorAnalyzer.analyze_object frame) items acc).2 !! t = Some frame.
Proof.
  induction items as [|[k o] items IH]; intros acc Hacc; cbn [fold_left]; [exact Hacc|].
  apply IH. destruct (Z.eq_dec k t) as [-> | Hne].
  - rewrite analyze_object_unfold. destruct (_ || _); [exact Hacc|]. cbn [fst snd].
    rewrite events_for_app, events_for_qualifying, Z.eqb_refl.
    unfold qualifying_events.
    destruct (existsb (fun k => BehaviorAnalyzer.qualifies k o) kinds) eqn:Hany.
    + intros _. apply lookup_insert_eq.
    + rewrite (filter_none _ _ Hany). simpl. rewrite app_nil_r. exact Hacc.
  - destruct (analyze_object_other frame acc k t o Hne) as [He Hc]. rewrite He, Hc. exact Hacc.
Qed.

Lemma detect_suppressed (s : BehaviorAnalyzer.t) (t : Z) :
  BehaviorAnalyzer.in_cooldown (BehaviorAnalyzer.frame_count s)
                               (BehaviorAnalyzer.alert_cooldown s) t = true ->
  events_for t (BehaviorAnalyzer.detect_suspicious_behaviors s).1 = []
  /\ BehaviorAnalyzer.alert_cooldown (BehaviorAnalyzer.detect_suspicious_behaviors s).2 !! t
     = BehaviorAnalyzer.alert_cooldown s !! t.
Proof.
  intros Hcool. unfold BehaviorAnalyzer.detect_suspicious_behaviors. cbn [fst snd].
  exact (classify_fold_suppressed _ t (BehaviorAnalyzer.tracked_objects s)
           ([], BehaviorAnalyzer.alert_cooldown s) Hcool).
Qed.

Lemma detect_records (s : BehaviorAnalyzer.t) (t : Z) :
  events_for t (BehaviorAnalyzer.detect_suspicious_behaviors s).1 <> [] ->
  BehaviorAnalyzer.alert_cooldown (BehaviorAnalyzer.detect_suspicious_behaviors s).2 !! t
  = Some (BehaviorAnalyzer.frame_count s).
Proof.
  unfold BehaviorAnalyzer.detect_suspicious_behaviors. cbn [fst snd].
  apply (classify_fold_records _ t (BehaviorAnalyzer.tracked_objects s)
           ([], BehaviorAnalyzer.alert_cooldown s)).
  intros H. now contradiction H.
Qed.

Lemma alert_cooldown_track_detection st detection :
  BehaviorAnalyzer.alert_cooldown (BehaviorAnalyzer.track_detection st detection).1
  = BehaviorAnalyzer.alert_cooldown st.1.
Proof.
  destruct st as [s m]. unfold BehaviorAnalyzer.track_detection.
  destruct (BehaviorAnalyzer.match_detection_to_tracked _ _ _); reflexivity.
Qed.

(** The tracker never touches the cooldowns. *)
Lemma alert_cooldown_update_tracks s detections :
  BehaviorAnalyzer.alert_cooldown (BehaviorAnalyzer.update_tracks s detections)
  = BehaviorAnalyzer.alert_cooldown s.
Proof.
  unfold BehaviorAnalyzer.update_tracks, BehaviorAnalyzer.match_all. simpl.
  change (BehaviorAnalyzer.alert_cooldown s)
    with (BehaviorAnalyzer.alert_cooldown (BehaviorAnalyzer.next_frame s, (∅ : gset Z)).1).
  generalize (BehaviorAnalyzer.next_frame s, (∅ : gset Z)).
  induction detections as [|d ds IH]; intros st; simpl; [reflexivity|].
  rewrite IH. apply alert_cooldown_track_detection.
Qed.

Lemma frame_count_process_frame s detections :
  BehaviorAnalyzer.frame_count (process_frame s detections).2
  = BehaviorAnalyzer.frame_count s + 1.
Proof. unfold process_frame. simpl. apply frame_count_update_tracks. Qed.

Lemma run_cons s detections frames :
  (run s (detections :: frames)).1
  = (process_frame s detections).1 :: (run (process_frame s detections).2 frames).1.
Proof.
  cbn [run]. destruct (process_frame s detections) as [events s1].
  cbn [fst snd]. destruct (run s1 frames) as [out final]. reflexivity.
Qed.

(** One frame of the loop for a track that cools down. *)
Lemma process_frame_suppressed s detections t last_alert :
  BehaviorAnalyzer.alert_cooldown s !! t = Some last_alert ->
  BehaviorAnalyzer.frame_count s + 1 - last_alert < 90 ->
  events_for t (process_frame s detections).1 = []
  /\ BehaviorAnalyzer.alert_cooldown (process_frame s detections).2 !! t = Some last_alert.
Proof.
  intros Hlast Hrecent. unfold process_frame.
  destruct (detect_suppressed (BehaviorAnalyzer.update_tracks s detections) t) as [He Hc].
  - apply in_cooldown_spec. exists last_alert.
    rewrite alert_cooldown_update_tracks, frame_count_update_tracks. auto.
  - split; [exact He|]. rewrite Hc, alert_cooldown_update_tracks. exact Hlast.
Qed.

Lemma process_frame_records s detections t :
  events_for t (process_frame s detections).1 <> [] ->
  BehaviorAnalyzer.alert_cooldown (process_frame s detections).2 !! t
  = Some (BehaviorAnalyzer.frame_count s + 1).
Proof.
  unfold process_frame. intros Hfired. apply detect_records in Hfired.
  now rewrite frame_count_update_tracks in Hfired.
Qed.

(** A track whose last alert is [last_alert] stays silent on every frame
    numbered below [last_alert + 90]. *)
Lemma run_suppressed (t last_alert : Z) (frames : list (list Detection)) :
  forall s j events,
    BehaviorAnalyzer.alert_cooldown s !! t = Some last_alert ->
    nth_error (run s frames).1 j = Some events ->
    BehaviorAnalyzer.frame_count s + Z.of_nat (S j) - last_alert < 90 ->
    events_for t events = [].
Proof.
  induction frames as [|detections frames IH]; intros s j events Hlast Hj Hrecent.
  - destruct j; discriminate.
  - rewrite run_cons in Hj.
    destruct (process_frame_suppressed s detections t last_alert Hlast ltac:(lia)) as [He Hc].
    destruct j as [|j]; cbn [nth_error] in Hj.
    + injection Hj as <-. exact He.
    + apply (IH _ j events Hc Hj). rewrite frame_count_process_frame. lia.
Qed.

(** C10.  In a stream of frames, once the classifier has reported an event
    of any kind for a track at some frame, it reports no event of any
    kind for that track on the next 89 frames. *)
Theorem one_alert_silences_track (s : BehaviorAnalyzer.t) (frames : list (list Detection))
    (t : Z) (i j : nat) (events_i events_j : list Event) :
  nth_error (run s frames).1 i = Some events_i ->
  nth_error (run s frames).1 j = Some events_j ->
  (i < j <= i + 89)%nat ->
  events_for t events_i <> [] ->
  events_for t events_j = [].
Proof.
  revert s i j. induction frames as [|detections frames IH]; intros s i j Hi Hj Hij Hfired.
  - destruct i; discriminate.
  - rewrite run_cons in Hi, Hj. destruct j as [|j]; [lia|]. cbn [nth_error] in Hj.
    destruct i as [|i]; cbn [nth_error] in Hi.
    + injection Hi as <-. apply process_frame_records in Hfired.
      apply (run_suppressed t _ frames _ j events_j Hfired Hj).
      rewrite frame_count_process_frame. lia.
    + apply (IH _ i j Hi Hj); [lia | exact Hfired].
Qed.

Lemma one_alert_silences_track_witness :
  exists events_i events_j,
    nth_error (run BehaviorAnalyzer.init (zigzag_walk 12)).1 9 = Some events_i
    /\ nth_error (run BehaviorAnalyzer.init (zigzag_walk 12)).1 10 = Some events_j
    /\ events_for 0 events_i <> []
    /\ events_for 0 events_j = [].
Proof.
  eexists. eexists.
  split; [vm_compute; reflexivity|]. split; [vm_compute; reflexivity|].
  split; [vm_compute; discriminate|].
  eapply (one_alert_silences_track BehaviorAnalyzer.init (zigzag_walk 12) 0 9 10).
  - vm_compute. reflexivity.
  - vm_compute. reflexivity.
  - lia.
  - vm_compute. discriminate.
Defined.

(** ** One cooldown entry per track *)

Lemma has_event_events_for (t : Z) (k : BehaviorKind) (events : list Event) :
  has_event t k events = has_event t k (events_for t events).
Proof.
  unfold has_event, events_for.
  induction events as [|e events IH]; cbn [existsb List.filter]; [reflexivity|].
  destruct (ev_object_id e =? t) eqn:He; cbn [existsb andb]; rewrite ?He; cbn [andb orb];
    [now rewrite IH | exact IH].
Qed.

Lemma has_event_qualifying (t : Z) (k : BehaviorKind) (o : TrackedObject.t) :
  has_event t k (qualifying_events t o) = BehaviorAnalyzer.qualifies k o.
Proof.
  unfold has_event, qualifying_events, kinds. cbn [List.filter].
  destruct (BehaviorAnalyzer.qualifies fast_movement o) eqn:Hf,
    (BehaviorAnalyzer.qualifies loitering o) eqn:Hl,
    (BehaviorAnalyzer.qualifies erratic_movement o) eqn:He;
    destruct k; cbn [map existsb BehaviorAnalyzer.event_of BehaviorAnalyzer.fast_movement_event
                       BehaviorAnalyzer.loitering_event BehaviorAnalyzer.erratic_movement_event
                       ev_object_id ev_behavior_type];
    rewrite ?Z.eqb_refl, ?Hf, ?Hl, ?He; reflexivity.
Qed.

Lemma has_event_nonempty (t : Z) (k : BehaviorKind) (events : list Event) :
  has_event t k events = true -> events_for t events <> [].
Proof.
  rewrite has_event_events_for. intros H Hnil. rewrite Hnil in H. discriminate.
Qed.

(** C1, as the code has it.  The classifier keeps one cooldown entry per
    track, shared by the three behaviour kinds.  For a person track [t]
    of an analyzer whose track ids are distinct: the track is suppressed
    at frame [N] iff it has a last-alert frame [L] (of whatever kind) with
    [N - L < 90]; a qualifying behaviour of kind [k] is reported iff the
    track is not suppressed, so that all the kinds that qualify in one
    frame are reported together; and each report leaves [N] in the
    track's entry. *)
Theorem per_track_cooldown (s : BehaviorAnalyzer.t) (t : Z) (o : TrackedObject.t) :
  List.NoDup (dict_keys (BehaviorAnalyzer.tracked_objects s)) ->
  In (t, o) (BehaviorAnalyzer.tracked_objects s) ->
  TrackedObject.class_name o = "person"%string ->
  let N := BehaviorAnalyzer.frame_count s in
  let suppressed := BehaviorAnalyzer.in_cooldown N (BehaviorAnalyzer.alert_cooldown s) t in
  let r := BehaviorAnalyzer.detect_suspicious_behaviors s in
  (suppressed = true <->
   exists L, BehaviorAnalyzer.alert_cooldown s !! t = Some L /\ N - L < 90)
  /\ events_for t r.1 = (if suppressed then [] else qualifying_events t o)
  /\ (forall k, has_event t k r.1 = BehaviorAnalyzer.qualifies k o && negb suppressed)
  /\ (forall k, has_event t k r.1 = true ->
                BehaviorAnalyzer.alert_cooldown r.2 !! t = Some N).
Proof.
  intros Hnd Hin Hperson N suppressed r.
  assert (Hevents : events_for t r.1 = if suppressed then [] else qualifying_events t o).
  { unfold r, BehaviorAnalyzer.detect_suspicious_behaviors. cbn [fst snd].
    destruct (in_split _ _ Hin) as (l1 & l2 & Hsplit). rewrite Hsplit in Hnd |- *.
    unfold dict_keys in Hnd. rewrite map_app in Hnd. cbn [map fst] in Hnd.
    pose proof (NoDup_remove_2 _ _ _ Hnd) as Hnot.
    rewrite fold_left_app. cbn [fold_left]. fold N.
    destruct (classify_fold_other N t l1 (fun H => Hnot (in_or_app _ _ _ (or_introl H)))
                ([], BehaviorAnalyzer.alert_cooldown s)) as [He1 Hc1].
    cbn [fst snd] in He1, Hc1.
    remember (fold_left (BehaviorAnalyzer.analyze_object N) l1
                        ([], BehaviorAnalyzer.alert_cooldown s)) as acc1 eqn:Hacc1.
    destruct (classify_fold_other N t l2 (fun H => Hnot (in_or_app _ _ _ (or_intror H)))
                (BehaviorAnalyzer.analyze_object N acc1 (t, o))) as [He2 _].
    rewrite He2, analyze_object_unfold, Hperson.
    rewrite (in_cooldown_ext N acc1.2 (BehaviorAnalyzer.alert_cooldown s) t Hc1).
    fold suppressed. cbn [String.eqb Ascii.eqb Bool.eqb negb orb].
    destruct suppressed; [exact He1|]. cbn [fst].
    rewrite events_for_app, He1, events_for_qualifying, Z.eqb_refl. reflexivity. }
  split; [apply in_cooldown_spec|]. split; [exact Hevents|]. split.
  - intros k. rewrite has_event_events_for, Hevents.
    destruct suppressed; [now rewrite andb_false_r|].
    rewrite has_event_qualifying. now rewrite andb_true_r.
  - intros k Hk. apply detect_records. eapply has_event_nonempty, Hk.
Qed.

Lemma per_track_cooldown_witness :
  BehaviorAnalyzer.qualifies fast_movement (first_track zigzag_frame_11) = true
  /\ has_event 0 fast_movement
               (BehaviorAnalyzer.detect_suspicious_behaviors zigzag_frame_11).1 = false.
Proof.
  assert (Hnd : List.NoDup (dict_keys (BehaviorAnalyzer.tracked_objects zigzag_frame_11))).
  { vm_compute. repeat constructor. intros []. }
  assert (Hin : In (0, first_track zigzag_frame_11)
                   (BehaviorAnalyzer.tracked_objects zigzag_frame_11)).
  { vm_compute. left. reflexivity. }
  destruct (per_track_cooldown zigzag_frame_11 0 (first_track zigzag_frame_11)
              Hnd Hin eq_refl) as (_ & _ & Hkinds & _).
  split; [vm_compute; reflexivity|].
  rewrite Hkinds. vm_compute. reflexivity.
Defined.

(** The zig-zag walk refutes it: the erratic-movement report of frame 10
    silences the fast movement that first qualifies at frame 11, although
    no fast movement was ever reported for the track. *)
Lemma per_kind_cooldown_refuted : ~ per_kind_cooldown_claim.
Proof.
  intros Hclaim.
  specialize (Hclaim (zigzag_walk 10) [person_at 0 0] 0 (first_track zigzag_frame_11)
                     fast_movement).
  cbv zeta in Hclaim. fold zigzag_frame_11 in Hclaim.
  assert (Hin : In (0, first_track zigzag_frame_11)
                   (BehaviorAnalyzer.tracked_objects zigzag_frame_11))
    by (vm_compute; left; reflexivity).
  assert (Hq : BehaviorAnalyzer.qualifies fast_movement (first_track zigzag_frame_11) = true)
    by (vm_compute; reflexivity).
  destruct (Hclaim Hin eq_refl Hq) as [_ Hfires].
  assert (Hsilent : has_event 0 fast_movement
                      (BehaviorAnalyzer.detect_suspicious_behaviors zigzag_frame_11).1 = false)
    by (vm_compute; reflexivity).
  rewrite Hfires in Hsilent; [discriminate|].
  intros i events Hi Hev. exfalso.
  assert (Hpast : Forall (fun events => has_event 0 fast_movement events = false)
                         (run BehaviorAnalyzer.init (zigzag_walk 10)).1)
    by (vm_compute; repeat constructor).
  rewrite List.Forall_forall in Hpast.
  rewrite (Hpast events (nth_error_In _ _ Hi)) in Hev. discriminate.
Qed.

(** ** Two detections, one track *)

(** The set [matched_ids] is written by the matching loop and read by
    nothing: the analyzer it leaves does not depend on it. *)
Lemma matched_ids_never_read (s : BehaviorAnalyzer.t) (m m' : gset Z) (detection : Detection) :
  (BehaviorAnalyzer.track_detection (s, m) detection).1
  = (BehaviorAnalyzer.track_detection (s, m') detection).1.
Proof.
  unfold BehaviorAnalyzer.track_detection.
  destruct (BehaviorAnalyzer.match_detection_to_tracked s detection 100%float); reflexivity.
Qed.

(** C2, on the code.  In frame 2 the first detection claims track 0 (it
    enters [matched_ids]); the matcher then hands the same track to the
    second detection.  The frame ends with the single track 0, updated
    twice: two positions appended, two stationary steps counted, and no
    track created for the second person. *)
Theorem claimed_track_matched_again :
  let after_first :=
    BehaviorAnalyzer.track_detection (BehaviorAnalyzer.next_frame crowded_frame_1, ∅)
                                     (person_at 105 100) in
  elements after_first.2 = [0]
  /\ BehaviorAnalyzer.match_detection_to_tracked after_first.1 (person_at 110 100) 100%float
     = Some 0
  /\ dict_keys (BehaviorAnalyzer.tracked_objects crowded_frame_2) = [0]
  /\ TrackedObject.position_history (first_track crowded_frame_2)
     = [(100, 100); (105, 100); (110, 100)]
  /\ TrackedObject.stationary_frames (first_track crowded_frame_2) = 2
  /\ BehaviorAnalyzer.next_object_id crowded_frame_2 = 1.
Proof.
  cbv zeta. split; [vm_compute; reflexivity|].
  split; [vm_compute; reflexivity|].
  split; [vm_compute; reflexivity|].
  split; [vm_compute; reflexivity|].
  split; vm_compute; reflexivity.
Qed.

(** ** Malformed boxes *)

(** The code tracks the malformed detection: it creates track 0 for it,
    where rejecting it would leave the analyzer without tracks. *)
Lemma malformed_detection_is_tracked :
  malformed inverted_box = true
  /\ dict_keys (BehaviorAnalyzer.tracked_objects
                  (BehaviorAnalyzer.update_tracks BehaviorAnalyzer.init [inverted_box])) = [0]
  /\ dict_keys (BehaviorAnalyzer.tracked_objects
                  (update_tracks_rejecting BehaviorAnalyzer.init [inverted_box])) = []
  /\ BehaviorAnalyzer.update_tracks BehaviorAnalyzer.init [inverted_box]
     <> update_tracks_rejecting BehaviorAnalyzer.init [inverted_box].
Proof.
  split; [reflexivity|]. split; [vm_compute; reflexivity|]. split; [vm_compute; reflexivity|].
  intros Heq. apply (f_equal (fun s => dict_keys (BehaviorAnalyzer.tracked_objects s))) in Heq.
  vm_compute in Heq. discriminate.
Qed.

Lemma match_step_bbox s detection b best item :
  BehaviorAnalyzer.match_step s (with_bbox detection b) best item
  = BehaviorAnalyzer.match_step s detection best item.
Proof. reflexivity. Qed.

Lemma match_bbox s detection b r :
  BehaviorAnalyzer.match_detection_to_tracked s (with_bbox detection b) r
  = BehaviorAnalyzer.match_detection_to_tracked s detection r.
Proof.
  unfold BehaviorAnalyzer.match_detection_to_tracked.
  apply (f_equal fst). generalize (@None Z, r).
  induction (BehaviorAnalyzer.tracked_objects s) as [|item items IH]; intros best;
    cbn [fold_left]; [reflexivity|].
  rewrite match_step_bbox. apply IH.
Qed.

(** *** Blanking the boxes commutes with the tracker *)

Section DictMap.
Context {V : Type} (h : V -> V).

Lemma map_dict_alter (f f' : V -> V) (k : Z) (d : list (Z * V)) :
  (forall v, h (f v) = f' (h v)) ->
  map (fun item => (item.1, h item.2)) (dict_alter f k d)
  = dict_alter f' k (map (fun item => (item.1, h item.2)) d).
Proof.
  intros Hf. induction d as [|[k0 v0] d IH]; cbn [dict_alter map fst snd]; [reflexivity|].
  destruct (k0 =? k); cbn [map fst snd]; [now rewrite Hf | now rewrite IH].
Qed.

Lemma map_dict_set (k : Z) (v : V) (d : list (Z * V)) :
  map (fun item => (item.1, h item.2)) (dict_set k v d)
  = dict_set k (h v) (map (fun item => (item.1, h item.2)) d).
Proof.
  induction d as [|[k0 v0] d IH]; cbn [dict_set map fst snd]; [reflexivity|].
  destruct (k0 =? k); cbn [map fst snd]; [reflexivity | now rewrite IH].
Qed.

Lemma map_dict_del (k : Z) (d : list (Z * V)) :
  map (fun item => (item.1, h item.2)) (dict_del k d)
  = dict_del k (map (fun item => (item.1, h item.2)) d).
Proof.
  induction d as [|[k0 v0] d IH]; cbn [dict_del map fst snd]; [reflexivity|].
  destruct (k0 =? k); cbn [map fst snd]; [reflexivity | now rewrite IH].
Qed.

Lemma map_dict_del_all (ks : list Z) :
  forall d : list (Z * V),
    map (fun item => (item.1, h item.2)) (fold_left (fun d obj_id => dict_del obj_id d) ks d)
    = fold_left (fun d obj_id => dict_del obj_id d) ks (map (fun item => (item.1, h item.2)) d).
Proof.
  induction ks as [|k ks IH]; intros d; cbn [fold_left]; [reflexivity|].
  now rewrite IH, map_dict_del.
Qed.

Lemma filter_map_values (P : Z * V -> bool) (d : list (Z * V)) :
  (forall item, P (item.1, h item.2) = P item) ->
  map fst (List.filter P (map (fun item => (item.1, h item.2)) d)) = map fst (List.filter P d).
Proof.
  intros HP. induction d as [|item d IH]; cbn [map List.filter]; [reflexivity|].
  rewrite HP. destruct (P item); cbn [map fst]; now rewrite IH.
Qed.

End DictMap.

Lemma map_deque_append {A B : Type} (f : A -> B) (n : nat) (l : list A) (x : A) :
  map f (deque_append n l x) = deque_append n (map f l) (f x).
Proof.
  unfold deque_append. rewrite length_map.
  destruct (length l <? n)%nat; rewrite map_app; [reflexivity|].
  now destruct l.
Qed.

Lemma forget_update (o : TrackedObject.t) (detection : Detection) (frame_number : Z) :
  forget_track_boxes (TrackedObject.update o detection frame_number)
  = TrackedObject.update (forget_track_boxes o) (forget_bbox detection) frame_number.
Proof.
  unfold forget_track_boxes, TrackedObject.update.
  cbn [TrackedObject.bbox_history]. rewrite map_deque_append. reflexivity.
Qed.

Lemma forget_init (object_id : Z) (detection : Detection) (frame_number : Z) :
  forget_track_boxes (TrackedObject.init object_id detection frame_number)
  = TrackedObject.init object_id (forget_bbox detection) frame_number.
Proof. reflexivity. Qed.

Lemma match_forget s detection r :
  BehaviorAnalyzer.match_detection_to_tracked (forget_boxes s) (forget_bbox detection) r
  = BehaviorAnalyzer.match_detection_to_tracked s detection r.
Proof.
  unfold forget_bbox. rewrite match_bbox.
  unfold BehaviorAnalyzer.match_detection_to_tracked.
  apply (f_equal fst). cbn [forget_boxes BehaviorAnalyzer.tracked_objects].
  generalize (@None Z, r).
  induction (BehaviorAnalyzer.tracked_objects s) as [|[k o] items IH]; intros best;
    cbn [map fold_left]; [reflexivity|].
  rewrite <- IH. reflexivity.
Qed.

Lemma forget_track_detection st detection :
  (forget_boxes (BehaviorAnalyzer.track_detection st detection).1,
   (BehaviorAnalyzer.track_detection st detection).2)
  = BehaviorAnalyzer.track_detection (forget_boxes st.1, st.2) (forget_bbox detection).
Proof.
  destruct st as [s m]. cbn [fst snd]. unfold BehaviorAnalyzer.track_detection.
  rewrite match_forget.
  destruct (BehaviorAnalyzer.match_detection_to_tracked s detection 100%float) as [k|];
    cbn [fst snd]; unfold forget_boxes;
    cbn [BehaviorAnalyzer.tracked_objects BehaviorAnalyzer.next_object_id
         BehaviorAnalyzer.frame_count BehaviorAnalyzer.alert_cooldown].
  - rewrite (map_dict_alter forget_track_boxes _
               (fun o => TrackedObject.update o (forget_bbox detection)
                                              (BehaviorAnalyzer.frame_count s)))
      by (intros v; apply forget_update).
    reflexivity.
  - rewrite (map_dict_set forget_track_boxes), forget_init. reflexivity.
Qed.

Lemma forget_match_loop detections :
  forall st,
    (forget_boxes (fold_left BehaviorAnalyzer.track_detection detections st).1,
     (fold_left BehaviorAnalyzer.track_detection detections st).2)
    = fold_left BehaviorAnalyzer.track_detection (map forget_bbox detections)
                (forget_boxes st.1, st.2).
Proof.
  induction detections as [|d detections IH]; intros st; cbn [map fold_left]; [reflexivity|].
  rewrite IH, forget_track_detection. reflexivity.
Qed.

Lemma forget_remove_old s :
  forget_boxes (BehaviorAnalyzer.remove_old s) = BehaviorAnalyzer.remove_old (forget_boxes s).
Proof.
  unfold BehaviorAnalyzer.remove_old, forget_boxes.
  cbn [BehaviorAnalyzer.tracked_objects BehaviorAnalyzer.next_object_id
       BehaviorAnalyzer.frame_count BehaviorAnalyzer.alert_cooldown].
  rewrite (map_dict_del_all forget_track_boxes).
  rewrite (filter_map_values forget_track_boxes) by reflexivity.
  reflexivity.
Qed.

(** The tracker on blanked boxes is the tracker, blanked. *)
Lemma forget_update_tracks s detections :
  forget_boxes (BehaviorAnalyzer.update_tracks s detections)
  = BehaviorAnalyzer.update_tracks (forget_boxes s) (map forget_bbox detections).
Proof.
  unfold BehaviorAnalyzer.update_tracks, BehaviorAnalyzer.match_all.
  rewrite forget_remove_old. f_equal.
  pose proof (forget_match_loop detections (BehaviorAnalyzer.next_frame s, ∅)) as Hloop.
  apply (f_equal fst) in Hloop. cbn [fst snd] in Hloop. exact Hloop.
Qed.

(** The classifier does not read the boxes. *)
Lemma detect_forget s :
  (BehaviorAnalyzer.detect_suspicious_behaviors (forget_boxes s)).1
  = (BehaviorAnalyzer.detect_suspicious_behaviors s).1.
Proof.
  unfold BehaviorAnalyzer.detect_suspicious_behaviors. cbn [fst].
  apply (f_equal fst).
  cbn [forget_boxes BehaviorAnalyzer.tracked_objects BehaviorAnalyzer.frame_count
       BehaviorAnalyzer.alert_cooldown].
  generalize (@nil Event, BehaviorAnalyzer.alert_cooldown s).
  induction (BehaviorAnalyzer.tracked_objects s) as [|[k o] items IH]; intros acc;
    cbn [map fold_left]; [reflexivity|].
  rewrite <- IH. reflexivity.
Qed.

(** C8, as the code has it.  The tracker never looks at the box, so a
    detection with a malformed box is processed as any other.  (1) The
    match found for a detection is the same whatever its box.  (2) Every
    detection either updates the nearest eligible track (same class, seen
    at most 10 frames ago, less than 100 px away, none of these nearer) and
    no id is used up, or - when every eligible track is 100 px away or
    more - creates a track under the next free id.  (3) In both cases the
    box is stored as it came, as the newest entry of the track's box
    history.  (4) Two frames that differ only in the boxes of their
    detections leave analyzers that differ only in the stored boxes, and
    give the same events: a malformed box changes nothing for the other
    detections of the frame. *)
Theorem bbox_never_inspected (s : BehaviorAnalyzer.t) (detection : Detection) :
  (forall b r,
     BehaviorAnalyzer.match_detection_to_tracked s (with_bbox detection b) r
     = BehaviorAnalyzer.match_detection_to_tracked s detection r)
  /\ (forall matched_ids,
        let s' := (BehaviorAnalyzer.track_detection (s, matched_ids) detection).1 in
        (exists k o,
           In (k, o) (BehaviorAnalyzer.tracked_objects s)
           /\ TrackedObject.class_name o = det_class_name detection
           /\ BehaviorAnalyzer.frame_count s - TrackedObject.last_seen o <= 10
           /\ ((det_center detection).1 - (TrackedObject.current_position o).1) ^ 2
              + ((det_center detection).2 - (TrackedObject.current_position o).2) ^ 2
              < 100 ^ 2
           /\ (forall k' o',
                 In (k', o') (BehaviorAnalyzer.tracked_objects s) ->
                 TrackedObject.class_name o' = det_class_name detection ->
                 BehaviorAnalyzer.frame_count s - TrackedObject.last_seen o' <= 10 ->
                 ((det_center detection).1 - (TrackedObject.current_position o).1) ^ 2
                 + ((det_center detection).2 - (TrackedObject.current_position o).2) ^ 2
                 <= ((det_center detection).1 - (TrackedObject.current_position o').1) ^ 2
                    + ((det_center detection).2 - (TrackedObject.current_position o').2) ^ 2)
           /\ BehaviorAnalyzer.tracked_objects s'
              = dict_alter
                  (fun o => TrackedObject.update o detection (BehaviorAnalyzer.frame_count s))
                  k (BehaviorAnalyzer.tracked_objects s)
           /\ (List.NoDup (dict_keys (BehaviorAnalyzer.tracked_objects s)) ->
               dict_get k (BehaviorAnalyzer.tracked_objects s')
               = Some (TrackedObject.update o detection (BehaviorAnalyzer.frame_count s)))
           /\ BehaviorAnalyzer.next_object_id s' = BehaviorAnalyzer.next_object_id s)
        \/ ((forall k o,
               In (k, o) (BehaviorAnalyzer.tracked_objects s) ->
               TrackedObject.class_name o = det_class_name detection ->
               BehaviorAnalyzer.frame_count s - TrackedObject.last_seen o <= 10 ->
               100 ^ 2
               <= ((det_center detection).1 - (TrackedObject.current_position o).1) ^ 2
                  + ((det_center detection).2 - (TrackedObject.current_position o).2) ^ 2)
            /\ BehaviorAnalyzer.tracked_objects s'
               = dict_set (BehaviorAnalyzer.next_object_id s)
                          (TrackedObject.init (BehaviorAnalyzer.next_object_id s) detection
                                              (BehaviorAnalyzer.frame_count s))
                          (BehaviorAnalyzer.tracked_objects s)
            /\ BehaviorAnalyzer.next_object_id s' = BehaviorAnalyzer.next_object_id s + 1))
  /\ (forall o k frame_number,
        List.last (TrackedObject.bbox_history (TrackedObject.update o detection frame_number))
                  (0, 0, 0, 0) = det_bbox detection
        /\ TrackedObject.current_position (TrackedObject.update o detection frame_number)
           = det_center detection
        /\ TrackedObject.bbox_history (TrackedObject.init k detection frame_number)
           = [det_bbox detection]
        /\ TrackedObject.position_history (TrackedObject.init k detection frame_number)
           = [det_center detection])
  /\ (forall s1 s2 detections1 detections2,
        forget_boxes s1 = forget_boxes s2 ->
        map forget_bbox detections1 = map forget_bbox detections2 ->
        forget_boxes (BehaviorAnalyzer.update_tracks s1 detections1)
        = forget_boxes (BehaviorAnalyzer.update_tracks s2 detections2)
        /\ (process_frame s1 detections1).1 = (process_frame s2 detections2).1).
Proof.
  split; [|split; [|split]].
  - intros b r. apply match_bbox.
  - intros matched_ids. cbv zeta. unfold BehaviorAnalyzer.track_detection.
    destruct (BehaviorAnalyzer.match_detection_to_tracked s detection 100%float)
      as [k|] eqn:Hm; cbn [fst BehaviorAnalyzer.tracked_objects BehaviorAnalyzer.next_object_id].
    + left. destruct (match_Some_nearest s detection k Hm) as (o & Hin & [Hc Hr] & Hlt & Hmin).
      exists k, o. split; [exact Hin|]. split; [exact Hc|]. split; [exact Hr|].
      split; [exact Hlt|]. split.
      { intros k' o' Hin' Hc' Hr'. exact (Hmin k' o' Hin' (conj Hc' Hr')). }
      split; [reflexivity|]. split; [|reflexivity].
      intros Hnodup. rewrite dict_get_alter, Z.eqb_refl.
      rewrite (dict_get_In _ _ _ Hnodup Hin). reflexivity.
    + right. split; [|split; reflexivity].
      intros k o Hin Hc Hr. exact (proj1 (match_None_far s detection) Hm k o Hin (conj Hc Hr)).
  - intros o k frame_number. unfold TrackedObject.current_position, TrackedObject.update.
    cbn [TrackedObject.bbox_history TrackedObject.position_history].
    rewrite !deque_append_last. repeat split.
  - intros s1 s2 detections1 detections2 Hs Hd. split.
    + rewrite !forget_update_tracks, Hs, Hd. reflexivity.
    + unfold process_frame.
      rewrite <- (detect_forget (BehaviorAnalyzer.update_tracks s1 detections1)).
      rewrite <- (detect_forget (BehaviorAnalyzer.update_tracks s2 detections2)).
      rewrite !forget_update_tracks, Hs, Hd. reflexivity.
Qed.

Lemma bbox_never_inspected_witness :
  (exists k o,
     dict_get k (BehaviorAnalyzer.tracked_objects
                   (BehaviorAnalyzer.track_detection
                      (BehaviorAnalyzer.next_frame crowded_frame_1, ∅)
                      (with_bbox (person_at 105 100) (50, 10, 30, 60))).1)
     = Some (TrackedObject.update o (with_bbox (person_at 105 100) (50, 10, 30, 60)) 2)
     /\ In (k, o) (BehaviorAnalyzer.tracked_objects crowded_frame_1))
  /\ List.last (TrackedObject.bbox_history
                  (TrackedObject.update (first_track crowded_frame_1)
                                        (with_bbox (person_at 105 100) (50, 10, 30, 60)) 2))
               (0, 0, 0, 0) = (50, 10, 30, 60).
Proof.
  pose proof (bbox_never_inspected (BehaviorAnalyzer.next_frame crowded_frame_1)
                (with_bbox (person_at 105 100) (50, 10, 30, 60))) as (_ & Hstep & Hbox & _).
  split.
  - destruct (Hstep ∅) as [(k & o & Hin & _ & _ & _ & _ & _ & Hget & _) | (Hfar & _)].
    + exists k, o. split; [|exact Hin]. apply Hget. vm_compute. constructor; [intros [] | constructor].
    + exfalso.
      specialize (Hfar 0 (first_track crowded_frame_1) (or_introl eq_refl) eq_refl).
      vm_compute in Hfar. apply Hfar; [discriminate | reflexivity].
  - exact (proj1 (Hbox (first_track crowded_frame_1) 0 2)).
Defined.

(** ** Loops over indices and loops over the list *)

Section IndexLoops.
Context {A B : Type}.

Lemma fold_left_ext_in (f g : A -> B -> A) (l : list B) :
  (forall a b, In b l -> f a b = g a b) ->
  forall a, fold_left f l a = fold_left g l a.
Proof.
  induction l as [|b l IH]; intros Hfg a; simpl; [reflexivity|].
  rewrite (Hfg a b) by now left. apply IH. intros a' b' Hb'. apply Hfg. now right.
Qed.

Lemma fold_left_seq_shift (f : A -> nat -> A) (start len : nat) (a : A) :
  fold_left f (seq (S start) len) a = fold_left (fun a i => f a (S i)) (seq start len) a.
Proof.
  rewrite <- seq_shift. generalize (seq start len). intros l. revert a.
  induction l as [|i l IH]; intros a; simpl; [reflexivity | apply IH].
Qed.

End IndexLoops.

(** ** Speed *)


Lemma steps_skipn (k : nat) (l : list Point) : steps (skipn k l) = skipn k (steps l).
Proof.
  revert l. induction k as [|k IH]; intros l; [reflexivity|].
  destruct l as [|p [|q r]]; [reflexivity | now destruct k|].
  change (steps (p :: q :: r)) with (euclid q p :: steps (q :: r)).
  cbn [skipn]. apply IH.
Qed.

(** The index loop of [get_speed] adds up the steps of the list. *)
Lemma path_length_from (l : list Point) :
  forall acc,
    fold_left
      (fun total_distance i =>
         let prev := nth (i - 1) l (0, 0) in
         let curr := nth i l (0, 0) in
         (total_distance + euclid curr prev)%float)
      (seq 1 (length l - 1)) acc
    = fold_left PrimFloat.add (steps l) acc.
Proof.
  induction l as [|p [|q r] IH]; intros acc; [reflexivity | reflexivity|].
  change (steps (p :: q :: r)) with (euclid q p :: steps (q :: r)).
  replace (length (p :: q :: r) - 1)%nat with (S (length (q :: r) - 1)) by (cbn [length]; lia).
  cbn [seq fold_left]. rewrite fold_left_seq_shift, <- IH.
  change (nth 1 (p :: q :: r) (0, 0)) with q. change (nth (1 - 1) (p :: q :: r) (0, 0)) with p.
  apply fold_left_ext_in. intros a i Hi. apply in_seq in Hi.
  destruct i as [|i]; [lia|]. cbn [nth]. replace (S (S i) - 1)%nat with (S i) by lia.
  replace (S i - 1)%nat with i by lia. reflexivity.
Qed.

Lemma path_length_steps (l : list Point) : TrackedObject.path_length l = float_sum (steps l).
Proof. apply path_length_from. Qed.


(** ** Erratic movement *)



Lemma erratic_step_sharp_turn (l : list Point) (n : Z) (i : nat) :
  BehaviorAnalyzer.erratic_step l n i
  = n + (if sharp_turn (nth (i - 2) l (0, 0)) (nth (i - 1) l (0, 0)) (nth i l (0, 0))
         then 1 else 0).
Proof.
  unfold sharp_turn, BehaviorAnalyzer.erratic_step, cos_between, sq_norm, displacement.
  cbv zeta. cbn [fst snd].
  destruct (_ && _); cbn [andb]; [|rewrite Z.add_0_r; reflexivity].
  destruct (BehaviorAnalyzer.acos_gt_half_pi _); [reflexivity | rewrite Z.add_0_r; reflexivity].
Qed.

(** The index loop of [detect_erratic_movement] counts the sharp turns. *)
Lemma erratic_loop_counts (l : list Point) :
  forall n,
    fold_left (BehaviorAnalyzer.erratic_step l) (seq 2 (length l - 2)) n
    = n + count_sharp_turns l.
Proof.
  induction l as [|p0 [|p1 [|p2 r]] IH]; intros n;
    try (cbn [length Nat.sub seq fold_left count_sharp_turns]; lia).
  change (count_sharp_turns (p0 :: p1 :: p2 :: r))
    with ((if sharp_turn p0 p1 p2 then 1 else 0) + count_sharp_turns (p1 :: p2 :: r)).
  replace (length (p0 :: p1 :: p2 :: r) - 2)%nat with (S (length (p1 :: p2 :: r) - 2))
    by (cbn [length]; lia).
  cbn [seq fold_left]. rewrite fold_left_seq_shift.
  rewrite (fold_left_ext_in _ (BehaviorAnalyzer.erratic_step (p1 :: p2 :: r))).
  - rewrite IH, erratic_step_sharp_turn. cbn [nth Nat.sub]. lia.
  - intros a i Hi. apply in_seq in Hi. rewrite !erratic_step_sharp_turn.
    destruct i as [|[|i]]; [lia | lia|].
    replace (S (S (S i)) - 2)%nat with (S i) by lia.
    replace (S (S (S i)) - 1)%nat with (S (S i)) by lia.
    replace (S (S i) - 2)%nat with i by lia.
    replace (S (S i) - 1)%nat with (S i) by lia.
    reflexivity.
Qed.

(** ** Streams of frames *)

Lemma run_app s frames1 frames2 :
  run s (frames1 ++ frames2)
  = ((run s frames1).1 ++ (run (run s frames1).2 frames2).1,
     (run (run s frames1).2 frames2).2).
Proof.
  revert s. induction frames1 as [|detections frames1 IH]; intros s.
  - cbn [app run fst snd]. now destruct (run s frames2).
  - cbn [app run]. destruct (process_frame s detections) as [events s1].
    rewrite IH. destruct (run s1 frames1) as [out1 s2]. cbn [fst snd]. reflexivity.
Qed.

Lemma run_cons_snd s detections frames :
  (run s (detections :: frames)).2 = (run (process_frame s detections).2 frames).2.
Proof.
  cbn [run]. destruct (process_frame s detections) as [events s1].
  cbn [fst snd]. destruct (run s1 frames) as [out final]. reflexivity.
Qed.

Lemma run_length s frames : length (run s frames).1 = length frames.
Proof.
  revert s. induction frames as [|detections frames IH]; intros s; [reflexivity|].
  rewrite run_cons. cbn [length]. now rewrite IH.
Qed.

Lemma frame_count_run s frames :
  BehaviorAnalyzer.frame_count (run s frames).2
  = BehaviorAnalyzer.frame_count s + Z.of_nat (length frames).
Proof.
  revert s. induction frames as [|detections frames IH]; intros s.
  - cbn [run snd length]. lia.
  - rewrite run_cons_snd, IH, frame_count_process_frame. cbn [length]. lia.
Qed.

(** Every analyzer the surveillance loop can reach from a fresh one has
    distinct track ids below the next id and satisfies the history
    invariant: the hypotheses of the theorems above hold along any
    stream. *)
Lemma reachable_invariants (frames : list (list Detection)) :
  forall s,
    keys_inv s -> tracks_inv s ->
    keys_inv (run s frames).2 /\ tracks_inv (run s frames).2.
Proof.
  induction frames as [|detections frames IH]; intros s Hkeys Htracks.
  - split; assumption.
  - rewrite run_cons_snd. apply IH.
    + exact (keys_inv_update_tracks s detections Hkeys).
    + apply (tracks_inv_match_all s detections) in Htracks.
      unfold tracks_inv, process_frame, BehaviorAnalyzer.update_tracks,
        BehaviorAnalyzer.remove_old in *.
      cbn [snd BehaviorAnalyzer.detect_suspicious_behaviors BehaviorAnalyzer.tracked_objects
           BehaviorAnalyzer.frame_count].
      now apply Forall_dict_del_all.
Qed.

(** The events of frame [k] come from the analyzer left by the first [k]
    frames. *)
Lemma run_nth_error s frames k detections :
  nth_error frames k = Some detections ->
  (run s (firstn k frames)).1 = firstn k (run s frames).1
  /\ nth_error (run s frames).1 k
     = Some (process_frame (run s (firstn k frames)).2 detections).1.
Proof.
  intros Hk. destruct (nth_error_split _ _ Hk) as (l1 & l2 & Hsplit & Hlen).
  assert (Hfirst : firstn k frames = l1).
  { rewrite Hsplit, <- Hlen, firstn_app, Nat.sub_diag, firstn_all. cbn [firstn]. apply app_nil_r. }
  rewrite Hfirst, Hsplit, run_app, run_cons. cbn [fst].
  assert (Hl : length (run s l1).1 = k) by now rewrite run_length.
  split.
  - rewrite <- Hl at 1. rewrite firstn_app, Nat.sub_diag, firstn_all. cbn [firstn].
    now rewrite app_nil_r.
  - rewrite nth_error_app2 by lia. rewrite Hl, Nat.sub_diag. reflexivity.
Qed.

Lemma filter_nil_none {A : Type} (P : A -> bool) (l : list A) :
  List.filter P l = [] -> existsb P l = false.
Proof.
  induction l as [|a l IH]; simpl; [reflexivity|].
  destruct (P a); simpl; [discriminate | exact IH].
Qed.

(** A pass of the classifier only appends events, and it leaves alone the
    cooldown entry of a track it reports nothing for. *)
Lemma classify_fold_quiet (frame : Z) (t : Z) (items : list (Z * TrackedObject.t)) :
  forall acc,
    exists new,
      (fold_left (BehaviorAnalyzer.analyze_object frame) items acc).1 = acc.1 ++ new
      /\ (events_for t new = [] ->
          (fold_left (BehaviorAnalyzer.analyze_object frame) items acc).2 !! t = acc.2 !! t).
Proof.
  induction items as [|[k o] items IH]; intros acc; cbn [fold_left].
  - exists []. split; [now rewrite app_nil_r | reflexivity].
  - rewrite analyze_object_unfold. destruct (_ || _); [apply IH|].
    destruct (IH (acc.1 ++ qualifying_events k o,
                  if existsb (fun k => BehaviorAnalyzer.qualifies k o) kinds
                  then <[k := frame]> acc.2 else acc.2)) as (new & Hnew & Hquiet).
    cbn [fst snd] in Hnew, Hquiet.
    exists (qualifying_events k o ++ new). split; [now rewrite app_assoc|].
    rewrite events_for_app, events_for_qualifying. intros Hnil.
    apply app_eq_nil in Hnil as [Hq Hn]. rewrite (Hquiet Hn).
    destruct (Z.eqb_spec k t) as [-> | Hne].
    + unfold qualifying_events in Hq. apply map_eq_nil in Hq.
      now rewrite (filter_nil_none _ _ Hq).
    + destruct (existsb _ _); [now apply lookup_insert_ne | reflexivity].
Qed.

Lemma process_frame_quiet s detections t :
  events_for t (process_frame s detections).1 = [] ->
  BehaviorAnalyzer.alert_cooldown (process_frame s detections).2 !! t
  = BehaviorAnalyzer.alert_cooldown s !! t.
Proof.
  unfold process_frame, BehaviorAnalyzer.detect_suspicious_behaviors. cbn [fst snd].
  destruct (classify_fold_quiet
              (BehaviorAnalyzer.frame_count (BehaviorAnalyzer.update_tracks s detections)) t
              (BehaviorAnalyzer.tracked_objects (BehaviorAnalyzer.update_tracks s detections))
              ([], BehaviorAnalyzer.alert_cooldown (BehaviorAnalyzer.update_tracks s detections)))
    as (new & Hnew & Hquiet).
  rewrite Hnew. cbn [fst snd app BehaviorAnalyzer.alert_cooldown] in *. intros Hnil.
  rewrite (Hquiet Hnil). now rewrite alert_cooldown_update_tracks.
Qed.

Lemma cooldown_is_last_report (frames : list (list Detection)) (t : Z) :
  last_report_inv t (run BehaviorAnalyzer.init frames).1
                  (BehaviorAnalyzer.alert_cooldown (run BehaviorAnalyzer.init frames).2).
Proof.
  induction frames as [|detections frames IH] using rev_ind.
  - unfold last_report_inv. cbn [run fst snd BehaviorAnalyzer.init BehaviorAnalyzer.alert_cooldown].
    rewrite lookup_empty. intros [|j] events; discriminate.
  - rewrite run_app. cbn [fst snd run].
    pose proof (frame_count_run BehaviorAnalyzer.init frames) as Hfc.
    pose proof (run_length BehaviorAnalyzer.init frames) as Hlen.
    destruct (run BehaviorAnalyzer.init frames) as [out s]. cbn [fst snd] in *.
    pose proof (process_frame_records s detections t) as Hrec.
    pose proof (process_frame_quiet s detections t) as Hquiet.
    destruct (process_frame s detections) as [events s']. cbn [fst snd] in *.
    unfold last_report_inv in *.
    destruct (events_for t events) as [|e es] eqn:He.
    + rewrite (Hquiet eq_refl).
      destruct (BehaviorAnalyzer.alert_cooldown s !! t) as [last_alert|].
      * destruct IH as (j & Hj & (ej & Hnth & Hne) & Hlater).
        exists j. split; [exact Hj|]. split.
        -- exists ej. split; [|exact Hne]. rewrite nth_error_app1; [exact Hnth|].
           apply nth_error_Some. congruence.
        -- intros j' ev' Hlt Hnth'.
           destruct (Nat.lt_ge_cases j' (length out)) as [Hin | Hout].
           ++ rewrite nth_error_app1 in Hnth' by exact Hin. eauto.
           ++ rewrite nth_error_app2 in Hnth' by exact Hout.
              destruct (j' - length out)%nat as [|[|?]]; cbn [nth_error] in Hnth';
                try discriminate. now injection Hnth' as <-.
      * intros j' ev' Hnth'.
        destruct (Nat.lt_ge_cases j' (length out)) as [Hin | Hout].
        -- rewrite nth_error_app1 in Hnth' by exact Hin. eauto.
        -- rewrite nth_error_app2 in Hnth' by exact Hout.
           destruct (j' - length out)%nat as [|[|?]]; cbn [nth_error] in Hnth';
             try discriminate. now injection Hnth' as <-.
    + rewrite Hrec by discriminate. exists (length out). split.
      * cbn [BehaviorAnalyzer.init BehaviorAnalyzer.frame_count] in Hfc. lia.
      * split.
        -- exists events. split; [|rewrite He; discriminate].
           rewrite nth_error_app2 by lia. now rewrite Nat.sub_diag.
        -- intros j' ev' Hlt Hnth'.
           assert (Hbound : (j' < length (out ++ [events]))%nat)
             by (apply nth_error_Some; congruence).
           rewrite length_app in Hbound. cbn [length] in Hbound. lia.
Qed.

(** ** A person standing still *)

(** The cooldown test of a frame, read off the events of the earlier
    frames. *)
Lemma in_cooldown_quiet (t : Z) (out : list (list Event)) (k : nat) (cooldown : gmap Z Z) :
  last_report_inv t (firstn k out) cooldown ->
  BehaviorAnalyzer.in_cooldown (Z.of_nat (S k)) cooldown t = false <-> quiet_before t out k.
Proof.
  unfold last_report_inv, quiet_before, BehaviorAnalyzer.in_cooldown,
    BehaviorAnalyzer.ALERT_COOLDOWN_FRAMES.
  destruct (cooldown !! t) as [last_alert|].
  - intros (j0 & -> & (e0 & Hnth0 & Hne0) & Hlater).
    rewrite nth_error_firstn in Hnth0.
    destruct (Nat.ltb_spec j0 k) as [Hj0 | Hj0]; [|discriminate].
    rewrite Z.ltb_ge. split.
    + intros Hold j events Hj Hnth. apply (Hlater j events); [lia|].
      rewrite nth_error_firstn. destruct (Nat.ltb_spec j k); [exact Hnth | lia].
    + intros Hquiet. destruct (Z.le_gt_cases 90 (Z.of_nat (S k) - Z.of_nat (S j0)));
        [assumption|].
      exfalso. apply Hne0. apply (Hquiet j0 e0); [lia | exact Hnth0].
  - intros Hnone. split; [|reflexivity].
    intros _ j events Hj Hnth. apply (Hnone j events).
    rewrite nth_error_firstn. destruct (Nat.ltb_spec j k); [exact Hnth | lia].
Qed.

(** * Further properties of the code *)

(** ** Track identifiers along a stream *)

Lemma tracked_objects_process_frame s detections :
  BehaviorAnalyzer.tracked_objects (process_frame s detections).2
  = BehaviorAnalyzer.tracked_objects (BehaviorAnalyzer.update_tracks s detections).
Proof. unfold process_frame. reflexivity. Qed.

Lemma next_object_id_process_frame s detections :
  BehaviorAnalyzer.next_object_id (process_frame s detections).2
  = BehaviorAnalyzer.next_object_id (BehaviorAnalyzer.update_tracks s detections).
Proof. unfold process_frame. reflexivity. Qed.

Lemma keys_inv_process_frame s detections :
  keys_inv s -> keys_inv (process_frame s detections).2.
Proof. intros H. exact (keys_inv_update_tracks s detections H). Qed.

Lemma keys_inv_run (frames : list (list Detection)) :
  forall s, keys_inv s -> keys_inv (run s frames).2.
Proof.
  induction frames as [|detections frames IH]; intros s H; [exact H|].
  rewrite run_cons_snd. apply IH, keys_inv_process_frame, H.
Qed.

(** A key that is absent and below the next identifier stays absent: the
    matcher only returns keys of the dictionary, and a new track takes
    the next identifier. *)
Lemma absent_track_detection st detection k :
  k < BehaviorAnalyzer.next_object_id st.1 ->
  dict_get k (BehaviorAnalyzer.tracked_objects st.1) = None ->
  k < BehaviorAnalyzer.next_object_id (BehaviorAnalyzer.track_detection st detection).1
  /\ dict_get k (BehaviorAnalyzer.tracked_objects
                   (BehaviorAnalyzer.track_detection st detection).1) = None.
Proof.
  destruct st as [s m]. cbn [fst]. intros Hk Hnone.
  unfold BehaviorAnalyzer.track_detection.
  destruct (BehaviorAnalyzer.match_detection_to_tracked s detection 100%float) as [matched|];
    cbn [fst BehaviorAnalyzer.tracked_objects BehaviorAnalyzer.next_object_id].
  - split; [exact Hk|]. rewrite dict_get_alter.
    destruct (Z.eqb_spec k matched) as [<- |]; [rewrite Hnone; reflexivity | exact Hnone].
  - split; [lia|]. rewrite dict_get_set.
    destruct (Z.eqb_spec k (BehaviorAnalyzer.next_object_id s)); [lia | exact Hnone].
Qed.

Lemma absent_match_loop detections k :
  forall st,
    k < BehaviorAnalyzer.next_object_id st.1 ->
    dict_get k (BehaviorAnalyzer.tracked_objects st.1) = None ->
    k < BehaviorAnalyzer.next_object_id
          (fold_left BehaviorAnalyzer.track_detection detections st).1
    /\ dict_get k (BehaviorAnalyzer.tracked_objects
                     (fold_left BehaviorAnalyzer.track_detection detections st).1) = None.
Proof.
  induction detections as [|d detections IH]; intros st Hk Hnone; cbn [fold_left].
  - split; assumption.
  - destruct (absent_track_detection st d k Hk Hnone) as [Hk' Hnone']. now apply IH.
Qed.

Lemma absent_process_frame s detections k :
  k < BehaviorAnalyzer.next_object_id s ->
  dict_get k (BehaviorAnalyzer.tracked_objects s) = None ->
  k < BehaviorAnalyzer.next_object_id (process_frame s detections).2
  /\ dict_get k (BehaviorAnalyzer.tracked_objects (process_frame s detections).2) = None.
Proof.
  intros Hk Hnone.
  rewrite tracked_objects_process_frame, next_object_id_process_frame.
  destruct (absent_match_loop detections k (BehaviorAnalyzer.next_frame s, ∅) Hk Hnone)
    as [Hk' Hnone'].
  split; [exact Hk'|].
  apply dict_get_None. intros Hin. apply dict_get_None in Hnone'. apply Hnone'.
  apply in_map_iff in Hin as ([k' o] & Heq & Hin). cbn [fst] in Heq. subst k'.
  unfold BehaviorAnalyzer.update_tracks, BehaviorAnalyzer.remove_old in Hin.
  cbn [BehaviorAnalyzer.tracked_objects] in Hin.
  apply In_dict_del_all in Hin. exact (In_dict_keys _ _ _ Hin).
Qed.

Lemma absent_run (frames : list (list Detection)) k :
  forall s,
    k < BehaviorAnalyzer.next_object_id s ->
    dict_get k (BehaviorAnalyzer.tracked_objects s) = None ->
    dict_get k (BehaviorAnalyzer.tracked_objects (run s frames).2) = None.
Proof.
  induction frames as [|detections frames IH]; intros s Hk Hnone; [exact Hnone|].
  rewrite run_cons_snd.
  destruct (absent_process_frame s detections k Hk Hnone) as [Hk' Hnone']. now apply IH.
Qed.

Lemma next_object_id_track_detection st detection :
  BehaviorAnalyzer.next_object_id st.1
  <= BehaviorAnalyzer.next_object_id (BehaviorAnalyzer.track_detection st detection).1
  <= BehaviorAnalyzer.next_object_id st.1 + 1.
Proof.
  destruct st as [s m]. unfold BehaviorAnalyzer.track_detection.
  destruct (BehaviorAnalyzer.match_detection_to_tracked s detection 100%float);
    cbn [fst BehaviorAnalyzer.next_object_id]; lia.
Qed.

Lemma next_object_id_match_loop detections :
  forall st,
    BehaviorAnalyzer.next_object_id st.1
    <= BehaviorAnalyzer.next_object_id
         (fold_left BehaviorAnalyzer.track_detection detections st).1
    <= BehaviorAnalyzer.next_object_id st.1 + Z.of_nat (length detections).
Proof.
  induction detections as [|d detections IH]; intros st; cbn [fold_left length].
  - lia.
  - pose proof (next_object_id_track_detection st d).
    pose proof (IH (BehaviorAnalyzer.track_detection st d)). lia.
Qed.

Lemma next_object_id_run (frames : list (list Detection)) :
  forall s, BehaviorAnalyzer.next_object_id s <= BehaviorAnalyzer.next_object_id (run s frames).2.
Proof.
  induction frames as [|detections frames IH]; intros s; [cbn [run snd]; lia|].
  rewrite run_cons_snd. pose proof (IH (process_frame s detections).2) as H.
  rewrite next_object_id_process_frame in H.
  pose proof (next_object_id_match_loop detections (BehaviorAnalyzer.next_frame s, ∅)) as H'.
  unfold BehaviorAnalyzer.update_tracks, BehaviorAnalyzer.remove_old in H.
  cbn [BehaviorAnalyzer.next_object_id] in H.
  unfold BehaviorAnalyzer.match_all in H.
  cbn [fst BehaviorAnalyzer.next_frame BehaviorAnalyzer.next_object_id] in H'. lia.
Qed.

Lemma firstn_le_split {A : Type} (i j : nat) (l : list A) :
  (i <= j)%nat -> firstn j l = firstn i l ++ firstn (j - i) (skipn i l).
Proof.
  intros Hij. rewrite <- (firstn_skipn i l) at 1.
  rewrite firstn_app, length_firstn.
  destruct (Nat.le_gt_cases i (length l)) as [Hi | Hi].
  - rewrite Nat.min_l by exact Hi. rewrite firstn_firstn, Nat.min_r by exact Hij. reflexivity.
  - rewrite Nat.min_r by lia. rewrite firstn_firstn, Nat.min_r by exact Hij.
    rewrite !skipn_all2 by lia. rewrite !firstn_nil. reflexivity.
Qed.

(** X1.  Identifiers are not reused.  Along a stream of frames, a track
    that is in the dictionary at the start and gone after [i] frames is
    still gone after any [j >= i] frames: whatever is detected later, even
    at the same place, gets a new identifier. *)
Theorem evicted_ids_never_return (s : BehaviorAnalyzer.t) (frames : list (list Detection))
    (k : Z) (o : TrackedObject.t) (i j : nat) :
  keys_inv s ->
  dict_get k (BehaviorAnalyzer.tracked_objects s) = Some o ->
  (i <= j)%nat ->
  dict_get k (BehaviorAnalyzer.tracked_objects (run s (firstn i frames)).2) = None ->
  dict_get k (BehaviorAnalyzer.tracked_objects (run s (firstn j frames)).2) = None.
Proof.
  intros [_ Hbelow] Hk Hij Hgone.
  assert (Hlt : k < BehaviorAnalyzer.next_object_id s).
  { rewrite List.Forall_forall in Hbelow. apply Hbelow.
    exact (In_dict_keys _ _ _ (dict_get_Some_In _ _ _ Hk)). }
  rewrite (firstn_le_split i j frames Hij), run_app. cbn [snd].
  apply absent_run; [|exact Hgone].
  pose proof (next_object_id_run (firstn i frames) s). lia.
Qed.

Lemma evicted_ids_never_return_witness :
  dict_get 0 (BehaviorAnalyzer.tracked_objects
                (run crowded_frame_1
                     (firstn 32 (repeat [] 31 ++ [[person_at 100 100]]))).2) = None.
Proof.
  apply (evicted_ids_never_return crowded_frame_1 (repeat [] 31 ++ [[person_at 100 100]]) 0
           (TrackedObject.init 0 (person_at 100 100) 1) 31 32).
  - split; vm_compute; repeat constructor. intros [].
  - vm_compute. reflexivity.
  - lia.
  - vm_compute. reflexivity.
Defined.

(** ** What a track keeps *)

Lemma same_identity_refl o : same_identity o o.
Proof. unfold same_identity. auto. Qed.

Lemma same_identity_trans o1 o2 o3 :
  same_identity o1 o2 -> same_identity o2 o3 -> same_identity o1 o3.
Proof. unfold same_identity. intros (? & ? & ?) (? & ? & ?). split; [|split]; congruence. Qed.

Lemma same_identity_update o detection frame_number :
  same_identity o (TrackedObject.update o detection frame_number).
Proof. unfold same_identity. auto. Qed.

Lemma identity_match_loop detections :
  forall st k o,
    keys_inv st.1 ->
    dict_get k (BehaviorAnalyzer.tracked_objects st.1) = Some o ->
    exists o',
      dict_get k (BehaviorAnalyzer.tracked_objects
                    (fold_left BehaviorAnalyzer.track_detection detections st).1) = Some o'
      /\ same_identity o o'.
Proof.
  induction detections as [|d detections IH]; intros st k o Hkeys Hk; cbn [fold_left].
  - exists o. split; [exact Hk | apply same_identity_refl].
  - destruct (dict_get_track_detection st d k o Hkeys Hk) as (o1 & Hk1 & Ho1).
    destruct (IH _ k o1 (keys_inv_track_detection st d Hkeys) Hk1) as (o' & Hk' & Hid).
    exists o'. split; [exact Hk'|].
    apply (same_identity_trans o o1 o'); [|exact Hid].
    destruct Ho1 as [-> | [_ ->]]; [apply same_identity_refl | apply same_identity_update].
Qed.

Lemma identity_process_frame s detections k o :
  keys_inv s ->
  dict_get k (BehaviorAnalyzer.tracked_objects s) = Some o ->
  match dict_get k (BehaviorAnalyzer.tracked_objects (process_frame s detections).2) with
  | Some o' => same_identity o o'
  | None => True
  end.
Proof.
  intros Hkeys Hk.
  destruct (identity_match_loop detections (BehaviorAnalyzer.next_frame s, ∅) k o Hkeys Hk)
    as (o1 & Hk1 & Hid).
  rewrite tracked_objects_process_frame. unfold BehaviorAnalyzer.update_tracks.
  rewrite dict_get_remove_old by apply (keys_inv_match_all s detections Hkeys).
  unfold BehaviorAnalyzer.match_all. rewrite Hk1.
  destruct (BehaviorAnalyzer.is_old _ _); [exact I | exact Hid].
Qed.

(** X2.  An identifier denotes one object for as long as the analyzer
    runs: a track found under the key [k] at the start of a stream and one
    found under [k] at its end have the same [id], the same class and the
    same [first_seen] frame, however often the track was updated in
    between. *)
Theorem track_identity_is_fixed (frames : list (list Detection)) :
  forall (s : BehaviorAnalyzer.t) (k : Z) (o o' : TrackedObject.t),
    keys_inv s ->
    dict_get k (BehaviorAnalyzer.tracked_objects s) = Some o ->
    dict_get k (BehaviorAnalyzer.tracked_objects (run s frames).2) = Some o' ->
    TrackedObject.id o' = TrackedObject.id o
    /\ TrackedObject.class_name o' = TrackedObject.class_name o
    /\ TrackedObject.first_seen o' = TrackedObject.first_seen o.
Proof.
  induction frames as [|detections frames IH]; intros s k o o' Hkeys Hk Hk'.
  - cbn [run snd] in Hk'. assert (o' = o) as -> by congruence. apply same_identity_refl.
  - rewrite run_cons_snd in Hk'.
    pose proof (identity_process_frame s detections k o Hkeys Hk) as Hstep.
    pose proof (keys_inv_process_frame s detections Hkeys) as Hkeys1.
    destruct (dict_get k (BehaviorAnalyzer.tracked_objects (process_frame s detections).2))
      as [o1|] eqn:Hk1.
    + apply (same_identity_trans o o1 o' Hstep). exact (IH _ k o1 o' Hkeys1 Hk1 Hk').
    + exfalso.
      assert (Hlt : k < BehaviorAnalyzer.next_object_id (process_frame s detections).2).
      { destruct Hkeys as [_ Hbelow]. rewrite List.Forall_forall in Hbelow.
        pose proof (Hbelow k (In_dict_keys _ _ _ (dict_get_Some_In _ _ _ Hk))).
        pose proof (next_object_id_run [detections] s) as Hmono.
        rewrite run_cons_snd in Hmono. cbn [run snd] in Hmono. lia. }
      rewrite (absent_run frames k _ Hlt Hk1) in Hk'. discriminate Hk'.
Qed.

Lemma track_identity_is_fixed_witness :
  exists o',
    dict_get 0 (BehaviorAnalyzer.tracked_objects
                  (run crowded_frame_1 [[person_at 105 100; person_at 110 100]]).2) = Some o'
    /\ TrackedObject.first_seen o' = 1.
Proof.
  eexists. split; [vm_compute; reflexivity|].
  refine (proj2 (proj2 (track_identity_is_fixed [[person_at 105 100; person_at 110 100]]
                          crowded_frame_1 0 (TrackedObject.init 0 (person_at 100 100) 1) _
                          _ _ _))).
  - split; vm_compute; repeat constructor. intros [].
  - vm_compute. reflexivity.
  - vm_compute. reflexivity.
Defined.

(** ** Invariants of the tracks *)

(** A property of dictionary entries that [TrackedObject.__init__]
    establishes and [TrackedObject.update] keeps holds of every track,
    frame after frame. *)
Section TrackInvariant.
Variable Q : Z * TrackedObject.t -> Prop.
Hypothesis Q_init :
  forall k detection frame_number, Q (k, TrackedObject.init k detection frame_number).
Hypothesis Q_update :
  forall k o detection frame_number,
    Q (k, o) -> Q (k, TrackedObject.update o detection frame_number).

Lemma Forall_tracks_track_detection st detection :
  Forall Q (BehaviorAnalyzer.tracked_objects st.1) ->
  Forall Q (BehaviorAnalyzer.tracked_objects (BehaviorAnalyzer.track_detection st detection).1).
Proof.
  destruct st as [s m]. unfold BehaviorAnalyzer.track_detection. cbn [fst]. intros Hs.
  destruct (BehaviorAnalyzer.match_detection_to_tracked _ _ _) as [matched_id|];
    cbn [fst BehaviorAnalyzer.tracked_objects].
  - apply Forall_dict_alter; [exact Hs|]. intros o Ho. apply Q_update, Ho.
  - apply Forall_dict_set; [exact Hs | apply Q_init].
Qed.

Lemma Forall_tracks_match_loop detections :
  forall st,
    Forall Q (BehaviorAnalyzer.tracked_objects st.1) ->
    Forall Q (BehaviorAnalyzer.tracked_objects
                (fold_left BehaviorAnalyzer.track_detection detections st).1).
Proof.
  induction detections as [|d detections IH]; intros st Hst; cbn [fold_left]; [exact Hst|].
  apply IH, Forall_tracks_track_detection, Hst.
Qed.

Lemma Forall_tracks_update_tracks s detections :
  Forall Q (BehaviorAnalyzer.tracked_objects s) ->
  Forall Q (BehaviorAnalyzer.tracked_objects (BehaviorAnalyzer.update_tracks s detections)).
Proof.
  intros Hs. unfold BehaviorAnalyzer.update_tracks, BehaviorAnalyzer.remove_old.
  cbn [BehaviorAnalyzer.tracked_objects].
  apply Forall_dict_del_all. unfold BehaviorAnalyzer.match_all.
  apply Forall_tracks_match_loop. exact Hs.
Qed.

Lemma Forall_tracks_run (frames : list (list Detection)) :
  forall s,
    Forall Q (BehaviorAnalyzer.tracked_objects s) ->
    Forall Q (BehaviorAnalyzer.tracked_objects (run s frames).2).
Proof.
  induction frames as [|detections frames IH]; intros s Hs; [exact Hs|].
  rewrite run_cons_snd. apply IH. rewrite tracked_objects_process_frame.
  apply Forall_tracks_update_tracks, Hs.
Qed.

End TrackInvariant.

(** X3.  The stationary flag is a function of the stationary run: if
    [is_stationary] says [stationary_frames > 30] for every track of an
    analyzer, it still does for every track the analyzer holds after any
    stream of frames, and no run is negative.  A track is therefore flagged
    exactly from its 31st consecutive update that moved it by less than
    10 px, and the flag falls with the first update that moves it more. *)
Theorem stationary_flag_follows_run (s : BehaviorAnalyzer.t) (frames : list (list Detection))
    (k : Z) (o : TrackedObject.t) :
  tracks_stationary_inv s ->
  In (k, o) (BehaviorAnalyzer.tracked_objects (run s frames).2) ->
  TrackedObject.is_stationary o = (30 <? TrackedObject.stationary_frames o)
  /\ 0 <= TrackedObject.stationary_frames o.
Proof.
  intros Hs Hin.
  assert (Hall : Forall (fun item => stationary_inv item.2)
                        (BehaviorAnalyzer.tracked_objects (run s frames).2)).
  { apply Forall_tracks_run; [| |exact Hs].
    - intros k0 detection frame_number. split; [reflexivity | cbn; lia].
    - intros k0 o0 detection frame_number [Hflag Hrun].
      cbn [snd] in Hflag, Hrun. unfold stationary_inv, TrackedObject.update. cbn [snd].
      cbn [TrackedObject.is_stationary TrackedObject.stationary_frames].
      destruct (euclid _ _ <? 10)%float.
      + split; [|lia].
        destruct (Z.ltb_spec 30 (TrackedObject.stationary_frames o0 + 1)); [reflexivity|].
        rewrite Hflag. apply Z.ltb_ge. lia.
      + split; [reflexivity | lia]. }
  rewrite List.Forall_forall in Hall. exact (Hall (k, o) Hin).
Qed.

Lemma stationary_flag_follows_run_witness :
  TrackedObject.is_stationary (first_track crowded_frame_2)
  = (30 <? TrackedObject.stationary_frames (first_track crowded_frame_2)).
Proof.
  refine (proj1 (stationary_flag_follows_run BehaviorAnalyzer.init
                   [[person_at 100 100]; [person_at 105 100; person_at 110 100]]
                   0 (first_track crowded_frame_2) _ _)).
  - constructor.
  - vm_compute. left. reflexivity.
Defined.

(** X4.  A track is stored under its own identifier: in every analyzer
    reached from a fresh one, the [id] field of the track found under the
    key [k] is [k]. *)
Theorem tracks_keyed_by_id (frames : list (list Detection)) :
  Forall (fun item => TrackedObject.id item.2 = item.1)
         (BehaviorAnalyzer.tracked_objects (run BehaviorAnalyzer.init frames).2).
Proof.
  apply (Forall_tracks_run (fun item => TrackedObject.id item.2 = item.1)).
  - intros k detection frame_number. reflexivity.
  - intros k o detection frame_number Hid. exact Hid.
  - constructor.
Qed.

(** ** How many tracks a frame can add *)

Lemma dict_alter_length {V : Type} (f : V -> V) (k : Z) (d : list (Z * V)) :
  length (dict_alter f k d) = length d.
Proof.
  induction d as [|[k0 v0] d IH]; cbn [dict_alter]; [reflexivity|].
  destruct (k0 =? k); cbn [length]; congruence.
Qed.

Lemma dict_set_length {V : Type} (k : Z) (v : V) (d : list (Z * V)) :
  (length (dict_set k v d) <= S (length d))%nat.
Proof.
  induction d as [|[k0 v0] d IH]; cbn [dict_set length]; [lia|].
  destruct (k0 =? k); cbn [length]; lia.
Qed.

Lemma In_keys_dict_set {V : Type} (k k' : Z) (v : V) (d : list (Z * V)) :
  In k' (dict_keys (dict_set k v d)) -> k' = k \/ In k' (dict_keys d).
Proof.
  unfold dict_keys. induction d as [|[k0 v0] d IH]; cbn [dict_set map In fst].
  - intros [<- | []]. left. reflexivity.
  - destruct (Z.eqb_spec k0 k) as [-> | Hne]; cbn [map In fst].
    + intros [<- | H]; [left; reflexivity | right; right; exact H].
    + intros [<- | H]; [right; left; reflexivity|].
      destruct (IH H) as [-> | H']; [left; reflexivity | right; right; exact H'].
Qed.

Lemma dict_del_length {V : Type} (k : Z) (d : list (Z * V)) :
  (length (dict_del k d) <= length d)%nat.
Proof.
  induction d as [|[k0 v0] d IH]; cbn [dict_del length]; [lia|].
  destruct (k0 =? k); cbn [length]; lia.
Qed.

Lemma dict_del_all_length {V : Type} (ks : list Z) :
  forall d : list (Z * V),
    (length (fold_left (fun d obj_id => dict_del obj_id d) ks d) <= length d)%nat.
Proof.
  induction ks as [|k ks IH]; intros d; cbn [fold_left]; [lia|].
  pose proof (IH (dict_del k d)). pose proof (dict_del_length k d). lia.
Qed.

Lemma In_keys_del_all {V : Type} (ks : list Z) (k : Z) (d : list (Z * V)) :
  In k (dict_keys (fold_left (fun d obj_id => dict_del obj_id d) ks d)) -> In k (dict_keys d).
Proof.
  intros Hin. apply in_map_iff in Hin as ([k' v] & Heq & Hin). cbn [fst] in Heq. subst k'.
  apply In_dict_del_all in Hin. exact (In_dict_keys _ _ _ Hin).
Qed.

Lemma track_detection_allocates st detection :
  (length (BehaviorAnalyzer.tracked_objects (BehaviorAnalyzer.track_detection st detection).1)
   <= S (length (BehaviorAnalyzer.tracked_objects st.1)))%nat
  /\ forall k,
       In k (dict_keys (BehaviorAnalyzer.tracked_objects
                          (BehaviorAnalyzer.track_detection st detection).1)) ->
       In k (dict_keys (BehaviorAnalyzer.tracked_objects st.1))
       \/ (k = BehaviorAnalyzer.next_object_id st.1
           /\ BehaviorAnalyzer.next_object_id (BehaviorAnalyzer.track_detection st detection).1
              = BehaviorAnalyzer.next_object_id st.1 + 1).
Proof.
  destruct st as [s m]. unfold BehaviorAnalyzer.track_detection. cbn [fst].
  destruct (BehaviorAnalyzer.match_detection_to_tracked _ _ _) as [matched_id|];
    cbn [fst BehaviorAnalyzer.tracked_objects BehaviorAnalyzer.next_object_id].
  - rewrite dict_alter_length, dict_keys_alter. split; [lia | auto].
  - split; [apply dict_set_length|].
    intros k Hin. apply In_keys_dict_set in Hin as [-> | Hin]; auto.
Qed.

Lemma match_loop_allocates detections :
  forall st,
    (length (BehaviorAnalyzer.tracked_objects
               (fold_left BehaviorAnalyzer.track_detection detections st).1)
     <= length (BehaviorAnalyzer.tracked_objects st.1) + length detections)%nat
    /\ forall k,
         In k (dict_keys (BehaviorAnalyzer.tracked_objects
                            (fold_left BehaviorAnalyzer.track_detection detections st).1)) ->
         In k (dict_keys (BehaviorAnalyzer.tracked_objects st.1))
         \/ BehaviorAnalyzer.next_object_id st.1 <= k
            < BehaviorAnalyzer.next_object_id
                (fold_left BehaviorAnalyzer.track_detection detections st).1.
Proof.
  induction detections as [|d detections IH]; intros st; cbn [fold_left length].
  - split; [lia | auto].
  - destruct (IH (BehaviorAnalyzer.track_detection st d)) as [Hlen Hkeys].
    destruct (track_detection_allocates st d) as [Hlen1 Hkeys1].
    pose proof (next_object_id_track_detection st d) as Hnext1.
    pose proof (next_object_id_match_loop detections (BehaviorAnalyzer.track_detection st d))
      as Hnext.
    split; [lia|].
    intros k Hin. apply Hkeys in Hin as [Hin | Hin]; [|right; lia].
    apply Hkeys1 in Hin as [Hin | [-> Heq]]; [left; exact Hin | right; lia].
Qed.

(** X5.  What one frame can add.  [update_tracks] hands out at most one new
    identifier per detection and never takes one back; the dictionary
    grows by at most one track per detection; and every key it holds
    afterwards was either a key before or is one of the identifiers handed
    out in this call. *)
Theorem update_tracks_allocates (s : BehaviorAnalyzer.t) (detections : list Detection) :
  let s' := BehaviorAnalyzer.update_tracks s detections in
  BehaviorAnalyzer.next_object_id s
  <= BehaviorAnalyzer.next_object_id s'
  <= BehaviorAnalyzer.next_object_id s + Z.of_nat (length detections)
  /\ (length (BehaviorAnalyzer.tracked_objects s')
      <= length (BehaviorAnalyzer.tracked_objects s) + length detections)%nat
  /\ forall k,
       In k (dict_keys (BehaviorAnalyzer.tracked_objects s')) ->
       In k (dict_keys (BehaviorAnalyzer.tracked_objects s))
       \/ BehaviorAnalyzer.next_object_id s <= k < BehaviorAnalyzer.next_object_id s'.
Proof.
  intros s'. subst s'.
  unfold BehaviorAnalyzer.update_tracks, BehaviorAnalyzer.remove_old, BehaviorAnalyzer.match_all.
  cbn [BehaviorAnalyzer.tracked_objects BehaviorAnalyzer.next_object_id].
  pose proof (next_object_id_match_loop detections (BehaviorAnalyzer.next_frame s, ∅)) as Hnext.
  destruct (match_loop_allocates detections (BehaviorAnalyzer.next_frame s, ∅))
    as [Hlen Hkeys].
  cbn [fst BehaviorAnalyzer.next_frame BehaviorAnalyzer.tracked_objects
       BehaviorAnalyzer.next_object_id] in Hnext, Hlen, Hkeys.
  split; [exact Hnext|]. split.
  - etransitivity; [apply dict_del_all_length | exact Hlen].
  - intros k Hin. apply In_keys_del_all in Hin. exact (Hkeys k Hin).
Qed.

(** ** What the classifier reports *)

(** Every event of a pass comes from the three checks on a person track
    of the dictionary. *)
Lemma classify_fold_origin (frame : Z) (items : list (Z * TrackedObject.t)) :
  forall acc e,
    In e (fold_left (BehaviorAnalyzer.analyze_object frame) items acc).1 ->
    In e acc.1
    \/ exists k o, In (k, o) items /\ TrackedObject.class_name o = "person"%string
                   /\ In e (qualifying_events k o).
Proof.
  induction items as [|[k o] items IH]; intros acc e He; cbn [fold_left] in He.
  - left. exact He.
  - apply IH in He as [He | (k' & o' & Hin & Hc & He)].
    + rewrite analyze_object_unfold in He.
      destruct (negb (String.eqb (TrackedObject.class_name o) "person")) eqn:Hclass;
        cbn [orb] in He.
      * left; exact He.
      * destruct (BehaviorAnalyzer.in_cooldown frame acc.2 k); [left; exact He|].
        cbn [fst] in He. apply in_app_or in He as [He | He]; [left; exact He|].
        right. exists k, o. split; [left; reflexivity|]. split; [|exact He].
        apply negb_false_iff in Hclass. now apply String.eqb_eq.
    + right. exists k', o'. split; [right; exact Hin | auto].
Qed.

Lemma qualifying_events_In (k : Z) (o : TrackedObject.t) (e : Event) :
  In e (qualifying_events k o) ->
  exists kind, BehaviorAnalyzer.qualifies kind o = true
               /\ e = BehaviorAnalyzer.event_of kind k o.
Proof.
  unfold qualifying_events. intros He.
  apply in_map_iff in He as (kind & <- & Hin). apply List.filter_In in Hin as [_ Hq].
  exists kind. split; [exact Hq | reflexivity].
Qed.

Lemma detect_origin (s : BehaviorAnalyzer.t) (e : Event) :
  In e (BehaviorAnalyzer.detect_suspicious_behaviors s).1 ->
  exists k o kind,
    In (k, o) (BehaviorAnalyzer.tracked_objects s)
    /\ TrackedObject.class_name o = "person"%string
    /\ BehaviorAnalyzer.qualifies kind o = true
    /\ e = BehaviorAnalyzer.event_of kind k o.
Proof.
  unfold BehaviorAnalyzer.detect_suspicious_behaviors. cbn [fst]. intros He.
  apply classify_fold_origin in He as [[] | (k & o & Hin & Hclass & He)].
  apply qualifying_events_In in He as (kind & Hq & ->).
  exists k, o, kind. auto.
Qed.

(** X6.  Events are about tracked persons.  Every event returned by
    [detect_suspicious_behaviors] carries the key of a track of the
    dictionary whose class is ['person'] and on which the reported
    behaviour qualifies; its position is the newest position of that
    track and its class name is ['person']. *)
Theorem events_describe_tracked_persons (s : BehaviorAnalyzer.t) (e : Event) :
  In e (BehaviorAnalyzer.detect_suspicious_behaviors s).1 ->
  exists o,
    In (ev_object_id e, o) (BehaviorAnalyzer.tracked_objects s)
    /\ TrackedObject.class_name o = "person"%string
    /\ BehaviorAnalyzer.qualifies (ev_behavior_type e) o = true
    /\ ev_position e = TrackedObject.current_position o
    /\ ev_class_name e = "person"%string.
Proof.
  intros He. apply detect_origin in He as (k & o & kind & Hin & Hclass & Hq & ->).
  exists o.
  assert (Hid : ev_object_id (BehaviorAnalyzer.event_of kind k o) = k)
    by (destruct kind; reflexivity).
  assert (Hkind : ev_behavior_type (BehaviorAnalyzer.event_of kind k o) = kind)
    by (destruct kind; reflexivity).
  rewrite Hid, Hkind.
  split; [exact Hin|]. split; [exact Hclass|]. split; [exact Hq|].
  split; destruct kind; first [reflexivity | exact Hclass].
Qed.

Lemma events_describe_tracked_persons_witness :
  exists o,
    In (0, o) (BehaviorAnalyzer.tracked_objects zigzag_frame_10)
    /\ TrackedObject.class_name o = "person"%string
    /\ BehaviorAnalyzer.qualifies erratic_movement o = true.
Proof.
  destruct (events_describe_tracked_persons zigzag_frame_10
              (BehaviorAnalyzer.event_of erratic_movement 0 (first_track zigzag_frame_10)))
    as (o & Hin & Hclass & Hq & _).
  - vm_compute. left. reflexivity.
  - exists o. exact (conj Hin (conj Hclass Hq)).
Defined.

(** X7.  No event carries a confidence above 1: the two computed
    confidences go through [min(..., 1.0)], which returns its first
    argument unless 1.0 is strictly smaller, and the third is the
    constant 0.7. *)
Theorem confidence_at_most_one (s : BehaviorAnalyzer.t) (e : Event) :
  In e (BehaviorAnalyzer.detect_suspicious_behaviors s).1 ->
  (1 <? ev_confidence e)%float = false.
Proof.
  intros He. apply detect_origin in He as (k & o & kind & _ & _ & _ & ->).
  destruct kind;
    cbn [BehaviorAnalyzer.event_of BehaviorAnalyzer.fast_movement_event
         BehaviorAnalyzer.loitering_event BehaviorAnalyzer.erratic_movement_event
         ev_confidence]; unfold py_min.
  - destruct (1 <? TrackedObject.get_speed o / 30)%float eqn:Hbig; [reflexivity | exact Hbig].
  - destruct (1 <? float_of_Z (TrackedObject.time_in_view o) / 300)%float eqn:Hbig;
      [reflexivity | exact Hbig].
  - reflexivity.
Qed.

Lemma confidence_at_most_one_witness :
  (1 <? ev_confidence (BehaviorAnalyzer.event_of erratic_movement 0
                         (first_track zigzag_frame_10)))%float = false.
Proof.
  apply (confidence_at_most_one zigzag_frame_10). vm_compute. left. reflexivity.
Defined.

(** ** Calling the classifier twice *)

Lemma in_cooldown_insert_frame (frame : Z) (m : gmap Z Z) (k k0 : Z) :
  BehaviorAnalyzer.in_cooldown frame m k = true ->
  BehaviorAnalyzer.in_cooldown frame (<[k0 := frame]> m) k = true.
Proof.
  unfold BehaviorAnalyzer.in_cooldown. destruct (decide (k0 = k)) as [-> | Hne].
  - intros _. rewrite lookup_insert_eq, Z.sub_diag. reflexivity.
  - rewrite lookup_insert_ne by exact Hne. auto.
Qed.

Lemma analyze_object_cooldown_mono (frame : Z) (acc : list Event * gmap Z Z)
    (item : Z * TrackedObject.t) (k : Z) :
  BehaviorAnalyzer.in_cooldown frame acc.2 k = true ->
  BehaviorAnalyzer.in_cooldown frame (BehaviorAnalyzer.analyze_object frame acc item).2 k
  = true.
Proof.
  destruct item as [k0 o0]. rewrite analyze_object_unfold. intros Hk.
  destruct (negb _ || _); [exact Hk|]. cbn [snd].
  destruct (existsb _ kinds); [apply in_cooldown_insert_frame|]; exact Hk.
Qed.

(** After a pass, every person track is cooling down or qualifies for
    nothing. *)
Lemma classify_fold_covers (frame : Z) (items : list (Z * TrackedObject.t)) :
  forall acc,
    (forall k, BehaviorAnalyzer.in_cooldown frame acc.2 k = true ->
               BehaviorAnalyzer.in_cooldown
                 frame (fold_left (BehaviorAnalyzer.analyze_object frame) items acc).2 k
               = true)
    /\ forall k o,
         In (k, o) items -> TrackedObject.class_name o = "person"%string ->
         BehaviorAnalyzer.in_cooldown
           frame (fold_left (BehaviorAnalyzer.analyze_object frame) items acc).2 k = true
         \/ existsb (fun kind => BehaviorAnalyzer.qualifies kind o) kinds = false.
Proof.
  induction items as [|[k0 o0] items IH]; intros acc; cbn [fold_left].
  - split; [auto | intros ? ? []].
  - destruct (IH (BehaviorAnalyzer.analyze_object frame acc (k0, o0))) as [Hmono Hcov].
    split.
    + intros k Hk. apply Hmono, analyze_object_cooldown_mono, Hk.
    + intros k o [Heq | Hin] Hclass; [|eauto].
      assert (k0 = k) as -> by congruence. assert (o0 = o) as -> by congruence.
      destruct (existsb (fun kind => BehaviorAnalyzer.qualifies kind o) kinds) eqn:Hq;
        [|right; reflexivity].
      left. apply Hmono. rewrite analyze_object_unfold, Hclass.
      cbn [String.eqb Ascii.eqb Bool.eqb negb orb].
      destruct (BehaviorAnalyzer.in_cooldown frame acc.2 k) eqn:Hcd; [exact Hcd|].
      cbn [snd]. rewrite Hq. unfold BehaviorAnalyzer.in_cooldown.
      rewrite lookup_insert_eq, Z.sub_diag. reflexivity.
Qed.

(** A pass over tracks that are cooling down or qualify for nothing
    changes nothing. *)
Lemma classify_fold_idle (frame : Z) (items : list (Z * TrackedObject.t)) :
  forall acc,
    (forall k o,
       In (k, o) items -> TrackedObject.class_name o = "person"%string ->
       BehaviorAnalyzer.in_cooldown frame acc.2 k = true
       \/ existsb (fun kind => BehaviorAnalyzer.qualifies kind o) kinds = false) ->
    fold_left (BehaviorAnalyzer.analyze_object frame) items acc = acc.
Proof.
  induction items as [|[k0 o0] items IH]; intros acc H; cbn [fold_left]; [reflexivity|].
  assert (Hstep : BehaviorAnalyzer.analyze_object frame acc (k0, o0) = acc).
  { rewrite analyze_object_unfold.
    destruct (negb (String.eqb (TrackedObject.class_name o0) "person")) eqn:Hc;
      cbn [orb]; [reflexivity|].
    apply negb_false_iff, String.eqb_eq in Hc.
    destruct (H k0 o0 (or_introl eq_refl) Hc) as [Hcd | Hq].
    - rewrite Hcd. reflexivity.
    - destruct (BehaviorAnalyzer.in_cooldown frame acc.2 k0); [reflexivity|].
      rewrite Hq. unfold qualifying_events. rewrite (filter_none _ _ Hq).
      cbn [map]. rewrite app_nil_r. destruct acc; reflexivity. }
  rewrite Hstep. apply IH. intros k o Hin. apply H. right. exact Hin.
Qed.

(** X8.  Asking twice in the same frame.  A second call of
    [detect_suspicious_behaviors] before the next [update_tracks] returns
    no event and leaves the analyzer as the first call left it: every
    track the first call reported is cooling down, and the others still
    qualify for nothing. *)
Theorem second_pass_reports_nothing (s : BehaviorAnalyzer.t) :
  let r := BehaviorAnalyzer.detect_suspicious_behaviors s in
  BehaviorAnalyzer.detect_suspicious_behaviors r.2 = ([], r.2).
Proof.
  intros r. subst r.
  destruct (classify_fold_covers (BehaviorAnalyzer.frame_count s)
              (BehaviorAnalyzer.tracked_objects s) ([], BehaviorAnalyzer.alert_cooldown s))
    as [_ Hcov].
  pose proof (classify_fold_idle (BehaviorAnalyzer.frame_count s)
                (BehaviorAnalyzer.tracked_objects s)
                ([], (fold_left (BehaviorAnalyzer.analyze_object (BehaviorAnalyzer.frame_count s))
                                (BehaviorAnalyzer.tracked_objects s)
                                ([], BehaviorAnalyzer.alert_cooldown s)).2) Hcov) as Hidle.
  unfold BehaviorAnalyzer.detect_suspicious_behaviors.
  cbn [fst snd BehaviorAnalyzer.tracked_objects BehaviorAnalyzer.frame_count
       BehaviorAnalyzer.alert_cooldown BehaviorAnalyzer.next_object_id].
  rewrite Hidle. reflexivity.
Qed.

(** ** Ties in the matcher *)

Section FloatOrderLe.

Local Ltac cmp_cases_le :=
  repeat match goal with
  | |- context [Z.compare ?a ?b] => destruct (Z.compare_spec a b); subst
  | H : context [Z.compare ?a ?b] |- _ => destruct (Z.compare_spec a b); subst
  | |- context [Pos.compare ?a ?b] => destruct (Pos.compare_spec a b); subst
  | H : context [Pos.compare ?a ?b] |- _ => destruct (Pos.compare_spec a b); subst
  end.

Lemma SFleb_ltb_trans (a b c : spec_float) :
  SFleb a b = true -> SFltb b c = true -> SFltb a c = true.
Proof.
  unfold SFleb, SFltb, SFcompare.
  destruct a as [[]|[]| |[] ma ea], b as [[]|[]| |[] mb eb], c as [[]|[]| |[] mc ec];
    try (intros; discriminate); try reflexivity;
    change (Pos.compare_cont Eq) with Pos.compare;
    intros Hab Hbc; cmp_cases_le; simpl in *; try discriminate; try reflexivity; try lia.
Qed.

Lemma float_leb_ltb_trans (x y z : float) :
  (x <=? y)%float = true -> (y <? z)%float = true -> (x <? z)%float = true.
Proof. rewrite leb_spec, !ltb_spec. apply SFleb_ltb_trans. Qed.

(** A distance that does not beat the best one is not within one that
    does. *)
Lemma float_not_leb (x y z : float) :
  (x <? z)%float = false -> (y <? z)%float = true -> (x <=? y)%float = false.
Proof.
  intros Hx Hy. destruct (x <=? y)%float eqn:Hle; [|reflexivity].
  rewrite (float_leb_ltb_trans x y z Hle Hy) in Hx. discriminate Hx.
Qed.

End FloatOrderLe.

Lemma match_fold_bound s detection (items : list (Z * TrackedObject.t)) (best : option Z * float) :
  forall k o, In (k, o) items -> eligible s detection o ->
    (match_distance detection o
     <? (fold_left (BehaviorAnalyzer.match_step s detection) items best).2)%float = false.
Proof.
  intros k o Hin Hel.
  destruct (match_fold_spec s detection items best)
    as [[-> Hnone] | (k1 & o1 & _ & -> & _ & _ & Hmin)].
  - exact (Hnone k o Hin Hel).
  - exact (Hmin k o Hin Hel).
Qed.

Lemma match_fold_radius s detection (r : float) (items : list (Z * TrackedObject.t)) :
  (fold_left (BehaviorAnalyzer.match_step s detection) items (None, r)).2 = r
  \/ ((fold_left (BehaviorAnalyzer.match_step s detection) items (None, r)).2 <? r)%float = true.
Proof.
  destruct (match_fold_spec s detection items (None, r))
    as [[-> _] | (k & o & _ & -> & _ & Hlt & _)]; [left; reflexivity | right; exact Hlt].
Qed.

Lemma match_fold_first s detection (r : float) (items : list (Z * TrackedObject.t)) :
  forall k,
    (fold_left (BehaviorAnalyzer.match_step s detection) items (None, r)).1 = Some k ->
    exists before o after,
      items = before ++ (k, o) :: after
      /\ fold_left (BehaviorAnalyzer.match_step s detection) items (None, r)
         = (Some k, match_distance detection o)
      /\ eligible s detection o
      /\ (match_distance detection o <? r)%float = true
      /\ (forall k' o', In (k', o') before -> eligible s detection o' ->
            (match_distance detection o' <=? match_distance detection o)%float = false)
      /\ (forall k' o', In (k', o') after -> eligible s detection o' ->
            (match_distance detection o' <? match_distance detection o)%float = false).
Proof.
  induction items as [|[kx ox] items IH] using rev_ind; intros k Hk.
  - discriminate Hk.
  - rewrite fold_left_app in Hk |- *. cbn [fold_left] in Hk |- *.
    pose proof (match_fold_bound s detection items (None, r)) as Hbound.
    destruct (match_step_cases s detection
                (fold_left (BehaviorAnalyzer.match_step s detection) items (None, r)) kx ox)
      as [(Hstep & Hel & Hlt) | (Hstep & Hno)]; rewrite Hstep in Hk |- *.
    + cbn [fst] in Hk. assert (kx = k) as -> by congruence.
      exists items, ox, []. split; [reflexivity|]. split; [reflexivity|].
      split; [exact Hel|]. split; [|split; [|intros ? ? []]].
      * destruct (match_fold_radius s detection r items) as [Heq | Hbelow].
        -- rewrite Heq in Hlt. exact Hlt.
        -- exact (float_ltb_trans _ _ _ Hlt Hbelow).
      * intros k' o' Hin Hel'.
        exact (float_not_leb _ _ _ (Hbound k' o' Hin Hel') Hlt).
    + destruct (IH k Hk) as (before & o & after & -> & Hfold & Hel & Hr & Hbefore & Hafter).
      exists before, o, (after ++ [(kx, ox)]).
      split; [now rewrite <- app_assoc|]. split; [exact Hfold|].
      split; [exact Hel|]. split; [exact Hr|]. split; [exact Hbefore|].
      intros k' o' Hin Hel'. apply in_app_or in Hin as [Hin | [Heq | []]].
      * exact (Hafter k' o' Hin Hel').
      * assert (ox = o') as -> by congruence.
        specialize (Hno Hel'). rewrite Hfold in Hno. exact Hno.
Qed.

(** X9.  Ties go to the older track.  For a match radius of a whole
    number of pixels (100 in [update_tracks]): when the matcher returns a
    track, the track is eligible and less than the radius away, every
    eligible track that comes before it in the dictionary is strictly
    farther from the detection, and no eligible track after it is nearer;
    so of several nearest candidates at the same distance the one inserted
    first is chosen.  Distances are Euclidean distances between the
    detection's centre and the newest stored position, compared through
    their squares. *)
Theorem first_nearest_track_wins (s : BehaviorAnalyzer.t) (detection : Detection)
    (radius : Z) (k : Z) :
  0 < radius < 2 ^ 25 ->
  BehaviorAnalyzer.match_detection_to_tracked s detection (float_of_Z radius) = Some k ->
  exists before o after,
    BehaviorAnalyzer.tracked_objects s = before ++ (k, o) :: after
    /\ eligible s detection o
    /\ ((det_center detection).1 - (TrackedObject.current_position o).1) ^ 2
       + ((det_center detection).2 - (TrackedObject.current_position o).2) ^ 2
       < radius ^ 2
    /\ (forall k' o', In (k', o') before -> eligible s detection o' ->
          ((det_center detection).1 - (TrackedObject.current_position o).1) ^ 2
          + ((det_center detection).2 - (TrackedObject.current_position o).2) ^ 2
          < ((det_center detection).1 - (TrackedObject.current_position o').1) ^ 2
            + ((det_center detection).2 - (TrackedObject.current_position o').2) ^ 2)
    /\ (forall k' o', In (k', o') after -> eligible s detection o' ->
          ((det_center detection).1 - (TrackedObject.current_position o).1) ^ 2
          + ((det_center detection).2 - (TrackedObject.current_position o).2) ^ 2
          <= ((det_center detection).1 - (TrackedObject.current_position o').1) ^ 2
             + ((det_center detection).2 - (TrackedObject.current_position o').2) ^ 2).
Proof.
  unfold BehaviorAnalyzer.match_detection_to_tracked. intros Hradius Hk.
  destruct (match_fold_first s detection (float_of_Z radius) _ k Hk)
    as (before & o & after & Hsplit & _ & Hel & Hr & Hbefore & Hafter).
  unfold match_distance in *.
  rewrite euclid_ltb_int in Hr by exact Hradius. apply Z.ltb_lt in Hr.
  assert (Hsmall : sq_dist (det_center detection) (TrackedObject.current_position o) < 2 ^ 50).
  { assert (radius * radius < 2 ^ 25 * 2 ^ 25) by (apply Z.mul_lt_mono_nonneg; lia).
    change (2 ^ 25 * 2 ^ 25) with (2 ^ 50) in *. lia. }
  exists before, o, after. split; [exact Hsplit|]. split; [exact Hel|].
  split; [rewrite (Z.pow_2_r radius); exact Hr|]. split.
  - intros k' o' Hin Hel'. specialize (Hbefore k' o' Hin Hel').
    rewrite euclid_leb in Hbefore by (right; exact Hsmall).
    apply Z.leb_gt in Hbefore. exact Hbefore.
  - intros k' o' Hin Hel'. specialize (Hafter k' o' Hin Hel').
    rewrite euclid_ltb in Hafter by (right; exact Hsmall).
    apply Z.ltb_ge in Hafter. exact Hafter.
Qed.

Lemma first_nearest_track_wins_witness :
  exists before o after,
    BehaviorAnalyzer.tracked_objects two_persons_apart = before ++ (0, o) :: after
    /\ (forall k' o', In (k', o') after -> eligible two_persons_apart (person_at 180 100) o' ->
          (180 - (TrackedObject.current_position o).1) ^ 2
          + (100 - (TrackedObject.current_position o).2) ^ 2
          <= (180 - (TrackedObject.current_position o').1) ^ 2
             + (100 - (TrackedObject.current_position o').2) ^ 2).
Proof.
  destruct (first_nearest_track_wins two_persons_apart (person_at 180 100) 100 0)
    as (before & o & after & Hsplit & _ & _ & _ & Hafter).
  - split; reflexivity.
  - vm_compute. reflexivity.
  - exists before, o, after. exact (conj Hsplit Hafter).
Defined.

(** ** Counts by class *)

Lemma count_get_cons (c k : string) (n : Z) (rest : list (string * Z)) :
  count_get c ((k, n) :: rest) = if String.eqb k c then Some n else count_get c rest.
Proof. unfold count_get. cbn [List.find fst]. destruct (String.eqb k c); reflexivity. Qed.

Lemma count_get_incr (k c : string) (counts : list (string * Z)) :
  count_get c (count_incr k counts)
  = if String.eqb k c
    then Some (match count_get k counts with Some n => n + 1 | None => 1 end)
    else count_get c counts.
Proof.
  induction counts as [|[k' n] rest IH]; cbn [count_incr].
  - rewrite count_get_cons. reflexivity.
  - destruct (String.eqb_spec k' k) as [-> | Hne]; rewrite !count_get_cons.
    + rewrite String.eqb_refl. destruct (String.eqb k c); reflexivity.
    + rewrite IH. destruct (String.eqb_spec k' k) as [|_]; [contradiction|].
      destruct (String.eqb_spec k' c) as [-> | Hne']; [|reflexivity].
      destruct (String.eqb_spec k c) as [-> | _]; [contradiction | reflexivity].
Qed.

Lemma occurrences_cons (c k : string) (names : list string) :
  occurrences c (k :: names) = (if String.eqb c k then 1 else 0) + occurrences c names.
Proof. unfold occurrences. cbn [List.filter]. destruct (String.eqb c k); cbn [length]; lia. Qed.

Lemma occurrences_nonneg (c : string) (names : list string) : 0 <= occurrences c names.
Proof. unfold occurrences. lia. Qed.

(** The count a loop of [counts[f(x)] += 1] leaves under a key. *)
Lemma count_fold_get {A : Type} (f : A -> string) (l : list A) (c : string) :
  forall counts,
    count_get c (fold_left (fun counts x => count_incr (f x) counts) l counts)
    = match count_get c counts with
      | Some m => Some (m + occurrences c (map f l))
      | None => if occurrences c (map f l) =? 0 then None
                else Some (occurrences c (map f l))
      end.
Proof.
  induction l as [|a l IH]; intros counts; cbn [fold_left map].
  - change (occurrences c []) with 0.
    destruct (count_get c counts); [f_equal; lia | reflexivity].
  - rewrite IH, count_get_incr, occurrences_cons.
    pose proof (occurrences_nonneg c (map f l)) as Hnn.
    destruct (String.eqb_spec (f a) c) as [<- | Hne].
    + rewrite String.eqb_refl. destruct (count_get (f a) counts).
      * f_equal. lia.
      * destruct (Z.eqb_spec (1 + occurrences (f a) (map f l)) 0); [lia | reflexivity].
    + destruct (String.eqb_spec c (f a)) as [-> | _]; [contradiction|].
      rewrite Z.add_0_l. reflexivity.
Qed.

Lemma count_fold_get_nil {A : Type} (f : A -> string) (l : list A) (c : string) :
  count_get c (fold_left (fun counts x => count_incr (f x) counts) l [])
  = if occurrences c (map f l) =? 0 then None else Some (occurrences c (map f l)).
Proof. rewrite count_fold_get. reflexivity. Qed.

Lemma sum_counts_incr (k : string) (counts : list (string * Z)) :
  sum_counts (count_incr k counts) = sum_counts counts + 1.
Proof.
  unfold sum_counts. induction counts as [|[k' n] rest IH]; cbn [count_incr]; [reflexivity|].
  destruct (String.eqb k' k); cbn [map fold_right snd] in *; lia.
Qed.

Lemma sum_counts_fold {A : Type} (f : A -> string) (l : list A) :
  forall counts,
    sum_counts (fold_left (fun counts x => count_incr (f x) counts) l counts)
    = sum_counts counts + Z.of_nat (length l).
Proof.
  induction l as [|a l IH]; intros counts; cbn [fold_left length]; [lia|].
  rewrite IH, sum_counts_incr. lia.
Qed.

Lemma In_keys_count_incr (k k' : string) (counts : list (string * Z)) :
  In k' (map fst (count_incr k counts)) -> k' = k \/ In k' (map fst counts).
Proof.
  induction counts as [|[k0 n] rest IH]; cbn [count_incr map In fst].
  - intros [<- | []]. left. reflexivity.
  - destruct (String.eqb k0 k); cbn [map In fst].
    + intros [<- | H]; [right; left; reflexivity | right; right; exact H].
    + intros [<- | H]; [right; left; reflexivity|].
      destruct (IH H) as [-> | H']; [left; reflexivity | right; right; exact H'].
Qed.

Lemma NoDup_count_incr (k : string) (counts : list (string * Z)) :
  List.NoDup (map fst counts) -> List.NoDup (map fst (count_incr k counts)).
Proof.
  induction counts as [|[k0 n] rest IH]; cbn [count_incr map fst]; intros H.
  - constructor; [intros [] | constructor].
  - inversion H as [|? ? Hnotin Hnodup]; subst.
    destruct (String.eqb_spec k0 k) as [-> | Hne]; cbn [map fst].
    + constructor; assumption.
    + constructor; [|apply IH; exact Hnodup].
      intros Hin. apply In_keys_count_incr in Hin as [-> | Hin]; contradiction.
Qed.

Lemma NoDup_count_fold {A : Type} (f : A -> string) (l : list A) :
  forall counts,
    List.NoDup (map fst counts) ->
    List.NoDup (map fst (fold_left (fun counts x => count_incr (f x) counts) l counts)).
Proof.
  induction l as [|a l IH]; intros counts H; cbn [fold_left]; [exact H|].
  apply IH, NoDup_count_incr, H.
Qed.

(** X10.  The tracking statistics add up.  In the dictionary
    [get_tracking_info] returns, [tracked_by_class] has an entry for a
    class exactly when some track has that class, the entry is the number
    of such tracks, each class is listed once, and the counts sum to
    [total_tracked]. *)
Theorem tracking_info_counts (s : BehaviorAnalyzer.t) :
  let info := BehaviorAnalyzer.get_tracking_info s in
  let classes := map (fun item => TrackedObject.class_name item.2)
                     (BehaviorAnalyzer.tracked_objects s) in
  (forall c,
     count_get c (BehaviorAnalyzer.tracked_by_class info)
     = if occurrences c classes =? 0 then None else Some (occurrences c classes))
  /\ sum_counts (BehaviorAnalyzer.tracked_by_class info) = BehaviorAnalyzer.total_tracked info
  /\ List.NoDup (map fst (BehaviorAnalyzer.tracked_by_class info)).
Proof.
  intros info classes. subst info classes.
  unfold BehaviorAnalyzer.get_tracking_info, BehaviorAnalyzer._count_by_class.
  cbn [BehaviorAnalyzer.tracked_by_class BehaviorAnalyzer.total_tracked].
  split; [|split].
  - intros c.
    exact (count_fold_get_nil (fun item : Z * TrackedObject.t => TrackedObject.class_name item.2)
                              (BehaviorAnalyzer.tracked_objects s) c).
  - rewrite (sum_counts_fold (fun item : Z * TrackedObject.t => TrackedObject.class_name item.2)).
    reflexivity.
  - apply (NoDup_count_fold (fun item : Z * TrackedObject.t => TrackedObject.class_name item.2)).
    constructor.
Qed.

Lemma occurrences_filter (detections : list Detection) (class_names : list string) (c : string) :
  occurrences c (map det_class_name
                     (ObjectDetector.filter_detections_by_class detections class_names))
  = if existsb (String.eqb c) class_names
    then occurrences c (map det_class_name detections) else 0.
Proof.
  unfold ObjectDetector.filter_detections_by_class.
  induction detections as [|d detections IH]; cbn [List.filter map].
  - destruct (existsb _ class_names); reflexivity.
  - destruct (existsb (String.eqb (det_class_name d)) class_names) eqn:Hd;
      cbn [map]; rewrite ?occurrences_cons, IH;
      destruct (String.eqb_spec c (det_class_name d)) as [-> | Hne];
      rewrite ?Hd; try reflexivity;
      destruct (existsb (String.eqb c) class_names); reflexivity.
Qed.

(** X11.  Counting after filtering.  [count_objects] on the result of
    [filter_detections_by_class] gives, for a class of the filter, the
    count it has in the unfiltered list, and no entry for any other class;
    and the counts of a list of detections sum to its length. *)
Theorem counts_after_class_filter (detections : list Detection) (class_names : list string) :
  (forall c,
     count_get c (ObjectDetector.count_objects
                    (ObjectDetector.filter_detections_by_class detections class_names))
     = if existsb (String.eqb c) class_names
       then count_get c (ObjectDetector.count_objects detections)
       else None)
  /\ sum_counts (ObjectDetector.count_objects detections) = Z.of_nat (length detections).
Proof.
  unfold ObjectDetector.count_objects. split.
  - intros c. rewrite !(count_fold_get_nil det_class_name), occurrences_filter.
    destruct (existsb (String.eqb c) class_names); reflexivity.
  - rewrite (sum_counts_fold det_class_name). reflexivity.
Qed.

(** ** The key of the wall-clock cooldown *)

Lemma mentions_uint (d : Decimal.uint) : mentions "_"%char (NilEmpty.string_of_uint d) = false.
Proof. induction d; simpl; auto. Qed.

Lemma mentions_str_of_Z (z : Z) : mentions "_"%char (str_of_Z z) = false.
Proof.
  assert (Hnz : forall d, mentions "_"%char (NilZero.string_of_uint d) = false).
  { intros d. destruct d; try reflexivity; apply mentions_uint. }
  unfold str_of_Z. destruct (Z.to_int z) as [d | d]; cbn [NilZero.string_of_int].
  - apply Hnz.
  - cbn [mentions]. rewrite Hnz. reflexivity.
Qed.

Lemma str_of_Z_inj (z1 z2 : Z) : str_of_Z z1 = str_of_Z z2 -> z1 = z2.
Proof.
  assert (Hok : forall z, Z.to_int z <> Decimal.Pos Decimal.Nil
                          /\ Z.to_int z <> Decimal.Neg Decimal.Nil).
  { intros [|p|p]; cbn [Z.to_int]; split; try discriminate; intros Heq;
      injection Heq as Heq; exact (DecimalPos.Unsigned.to_uint_nonnil p Heq). }
  unfold str_of_Z. intros H. apply (f_equal NilZero.int_of_string) in H.
  rewrite !NilZero.isi in H by apply Hok.
  injection H as H. apply (f_equal Z.of_int) in H. rewrite !DecimalZ.of_to in H. exact H.
Qed.

(** Two strings cut at the first occurrence of a separator. *)
Lemma app_sep_inj (c : ascii) (a : string) :
  forall b r1 r2,
    mentions c a = false -> mentions c b = false ->
    (a ++ String c r1)%string = (b ++ String c r2)%string -> a = b /\ r1 = r2.
Proof.
  induction a as [|x a IH]; intros [|y b] r1 r2 Ha Hb Heq;
    cbn [String.append mentions] in Ha, Hb, Heq.
  - injection Heq as ->. auto.
  - injection Heq as -> _. rewrite Ascii.eqb_refl in Hb. discriminate Hb.
  - injection Heq as -> _. rewrite Ascii.eqb_refl in Ha. discriminate Ha.
  - injection Heq as -> Heq.
    apply orb_false_iff in Ha as [_ Ha]. apply orb_false_iff in Hb as [_ Hb].
    destruct (IH b r1 r2 Ha Hb Heq) as [-> ->]. auto.
Qed.

Lemma behavior_type_name_inj (k1 k2 : BehaviorKind) :
  behavior_type_name k1 = behavior_type_name k2 -> k1 = k2.
Proof. destruct k1, k2; intros H; try reflexivity; discriminate H. Qed.

Lemma event_key_inj (e1 e2 : Event) :
  SurveillanceSystem.event_key e1 = SurveillanceSystem.event_key e2 ->
  ev_object_id e1 = ev_object_id e2 /\ ev_behavior_type e1 = ev_behavior_type e2.
Proof.
  unfold SurveillanceSystem.event_key. intros H.
  apply app_sep_inj in H as [Hid Hkind]; try apply mentions_str_of_Z.
  split; [apply str_of_Z_inj, Hid | apply behavior_type_name_inj, Hkind].
Qed.

(** X12.  The cooldown key tells objects and kinds apart: two events have
    the same key [f"{object_id}_{behavior_type}"] exactly when they have
    the same object id and the same behaviour type.  No two different
    (object, kind) pairs share a wall-clock cooldown. *)
Theorem event_key_injective (e1 e2 : Event) :
  SurveillanceSystem.event_key e1 = SurveillanceSystem.event_key e2
  <-> ev_object_id e1 = ev_object_id e2 /\ ev_behavior_type e1 = ev_behavior_type e2.
Proof.
  split; [apply event_key_inj|].
  unfold SurveillanceSystem.event_key. intros [-> ->]. reflexivity.
Qed.

(** ** The wall-clock cooldown of the alerts *)





(** ** A track that does not move *)

Lemma skipn_repeat_sub {A : Type} (x : A) (m : nat) :
  forall n, skipn m (repeat x n) = repeat x (n - m).
Proof.
  induction m as [|m IH]; intros [|n]; cbn [skipn repeat Nat.sub]; try reflexivity.
  apply IH.
Qed.

Lemma last_n_repeat {A : Type} (x : A) (k n : nat) :
  last_n k (repeat x n) = repeat x (Nat.min k n).
Proof.
  unfold last_n. rewrite repeat_length, skipn_repeat_sub. f_equal. lia.
Qed.

Lemma euclid_same (p : Point) : euclid p p = 0%float.
Proof. unfold euclid, sq_dist. rewrite !Z.sub_diag. reflexivity. Qed.

Lemma steps_repeat (p : Point) (m : nat) : steps (repeat p m) = repeat 0%float (m - 1).
Proof.
  induction m as [|m IH]; [reflexivity|].
  destruct m as [|m]; [reflexivity|].
  change (steps (repeat p (S (S m)))) with (euclid p p :: steps (repeat p (S m))).
  rewrite IH, euclid_same. cbn [Nat.sub]. rewrite Nat.sub_0_r. reflexivity.
Qed.

Lemma float_sum_zeros (k : nat) : float_sum (repeat 0%float k) = 0%float.
Proof.
  unfold float_sum. induction k as [|k IH]; [reflexivity|].
  cbn [repeat fold_left]. change (0 + 0)%float with 0%float. exact IH.
Qed.

Lemma sharp_turn_same (p : Point) : sharp_turn p p p = false.
Proof. unfold sharp_turn, sq_norm, displacement. cbn [fst snd]. rewrite !Z.sub_diag. reflexivity. Qed.

Lemma count_sharp_turns_repeat (p : Point) (m : nat) : count_sharp_turns (repeat p m) = 0.
Proof.
  induction m as [|m IH]; [reflexivity|].
  destruct m as [|[|m]]; try reflexivity.
  change (count_sharp_turns (repeat p (S (S (S m)))))
    with ((if sharp_turn p p p then 1 else 0) + count_sharp_turns (repeat p (S (S m)))).
  rewrite IH, sharp_turn_same. reflexivity.
Qed.

Lemma zero_over_small (j : Z) : 1 <= j <= 9 -> (0 / float_of_Z j)%float = 0%float.
Proof.
  intros Hj.
  assert (Hcases : j = 1 \/ j = 2 \/ j = 3 \/ j = 4 \/ j = 5 \/ j = 6 \/ j = 7 \/ j = 8 \/ j = 9)
    by lia.
  destruct Hcases as [-> | [-> | [-> | [-> | [-> | [-> | [-> | [-> | ->]]]]]]]]; reflexivity.
Qed.

Lemma last_repeat {A : Type} (x d : A) (n : nat) : List.last (repeat x (S n)) d = x.
Proof. induction n as [|n IH]; [reflexivity | exact IH]. Qed.

(** X15.  A track that has not moved is neither fast nor erratic.  When
    all stored positions of a track are the same point, [get_speed] is
    exactly [0.0] and [get_direction] is [(0.0, 0.0)], so the
    fast-movement check fails, and [detect_erratic_movement] finds no
    direction change, because it skips zero displacements: the only
    behaviour such a track can be reported for is loitering. *)
Theorem standing_track_is_neither_fast_nor_erratic (o : TrackedObject.t) (p : Point)
    (n : nat) :
  TrackedObject.position_history o = repeat p n ->
  TrackedObject.get_speed o = 0%float
  /\ TrackedObject.get_direction o = (0%float, 0%float)
  /\ BehaviorAnalyzer.qualifies fast_movement o = false
  /\ BehaviorAnalyzer.qualifies erratic_movement o = false.
Proof.
  intros Hph.
  assert (Hspeed : TrackedObject.get_speed o = 0%float).
  { unfold TrackedObject.get_speed. rewrite Hph, repeat_length.
    destruct (Nat.ltb_spec n 2) as [|Hn]; [reflexivity|].
    rewrite last_n_repeat, path_length_steps, steps_repeat, float_sum_zeros, repeat_length.
    apply zero_over_small. lia. }
  split; [exact Hspeed|]. split; [|split].
  - unfold TrackedObject.get_direction, TrackedObject.current_position.
    rewrite Hph, repeat_length.
    destruct (Nat.ltb_spec n 2) as [|Hn]; [reflexivity|].
    destruct n as [|n]; [lia|].
    rewrite last_repeat. cbn [repeat nth fst snd]. rewrite !Z.sub_diag. reflexivity.
  - cbn [BehaviorAnalyzer.qualifies]. unfold TrackedObject.is_moving_fast. rewrite Hspeed.
    reflexivity.
  - cbn [BehaviorAnalyzer.qualifies]. unfold BehaviorAnalyzer.detect_erratic_movement.
    rewrite Hph, repeat_length. destruct (n <? 10)%nat; [reflexivity|].
    rewrite erratic_loop_counts, last_n_repeat, count_sharp_turns_repeat. reflexivity.
Qed.

Lemma standing_track_is_neither_fast_nor_erratic_witness :
  TrackedObject.get_speed (first_track (run BehaviorAnalyzer.init
                                            (one_per_frame (standing 12))).2) = 0%float.
Proof.
  refine (proj1 (standing_track_is_neither_fast_nor_erratic _ (100, 100) 12%nat _)).
  vm_compute. reflexivity.
Defined.

(** ** The histories as ring buffers *)

Lemma last_n_app_drop {A : Type} (n : nat) (pre l : list A) :
  (n <= length l)%nat -> last_n n (pre ++ l) = last_n n l.
Proof.
  intros Hn. unfold last_n. rewrite length_app, skipn_app.
  rewrite skipn_all2 by lia. cbn [app]. f_equal. lia.
Qed.

Lemma last_n_last_n_app {A : Type} (n : nat) (l r : list A) :
  last_n n (last_n n l ++ r) = last_n n (l ++ r).
Proof.
  destruct (Nat.le_gt_cases (length l) n) as [Hshort | Hlong].
  - rewrite (last_n_all n l Hshort). reflexivity.
  - rewrite <- (firstn_skipn (length l - n) l) at 2. rewrite <- app_assoc.
    change (skipn (length l - n) l) with (last_n n l).
    symmetry. apply last_n_app_drop. rewrite length_app, last_n_length. lia.
Qed.

Lemma updates_histories (seen : list (Detection * Z)) :
  forall o,
    (length (TrackedObject.position_history o) <= 30)%nat ->
    (length (TrackedObject.bbox_history o) <= 30)%nat ->
    TrackedObject.position_history (updates o seen)
    = last_n 30 (TrackedObject.position_history o ++ map (fun d => det_center d.1) seen)
    /\ TrackedObject.bbox_history (updates o seen)
       = last_n 30 (TrackedObject.bbox_history o ++ map (fun d => det_bbox d.1) seen).
Proof.
  unfold updates.
  induction seen as [|[d f] seen IH]; intros o Hp Hb; cbn [fold_left map].
  - rewrite !app_nil_r, !last_n_all by assumption. split; reflexivity.
  - assert (Hp' : TrackedObject.position_history (TrackedObject.update o d f)
                  = last_n 30 (TrackedObject.position_history o ++ [det_center d]))
      by (apply deque_append_last_n; [unfold TrackedObject.maxlen; lia | exact Hp]).
    assert (Hb' : TrackedObject.bbox_history (TrackedObject.update o d f)
                  = last_n 30 (TrackedObject.bbox_history o ++ [det_bbox d]))
      by (apply deque_append_last_n; [unfold TrackedObject.maxlen; lia | exact Hb]).
    destruct (IH (TrackedObject.update o d f)) as [IHp IHb].
    + rewrite Hp', last_n_length. lia.
    + rewrite Hb', last_n_length. lia.
    + cbn [fst snd]. rewrite IHp, IHb, Hp', Hb', !last_n_last_n_app, <- !app_assoc.
      split; reflexivity.
Qed.

(** X16.  The histories are ring buffers of the newest 30 entries.  After
    any number of updates, [position_history] holds, oldest first, the last
    30 entries of the old history followed by the centres of the
    detections the track was updated with, and [bbox_history] the same for
    the boxes; the two keep the same length when they had it before. *)
Theorem histories_keep_newest_30 (o : TrackedObject.t) (seen : list (Detection * Z)) :
  (length (TrackedObject.position_history o) <= 30)%nat ->
  (length (TrackedObject.bbox_history o) <= 30)%nat ->
  let o' := updates o seen in
  TrackedObject.position_history o'
  = last_n 30 (TrackedObject.position_history o ++ map (fun d => det_center d.1) seen)
  /\ TrackedObject.bbox_history o'
     = last_n 30 (TrackedObject.bbox_history o ++ map (fun d => det_bbox d.1) seen)
  /\ (length (TrackedObject.position_history o) = length (TrackedObject.bbox_history o) ->
      length (TrackedObject.position_history o') = length (TrackedObject.bbox_history o')).
Proof.
  intros Hp Hb o'. subst o'.
  destruct (updates_histories seen o Hp Hb) as [Hp' Hb'].
  split; [exact Hp'|]. split; [exact Hb'|].
  intros Hlen. rewrite Hp', Hb', !last_n_length, !length_app, !length_map, Hlen. reflexivity.
Qed.

Lemma histories_keep_newest_30_witness :
  TrackedObject.position_history
    (updates (TrackedObject.init 0 (person_at 0 0) 1)
             (map (fun i => (person_at (Z.of_nat i) 0, Z.of_nat (S i))) (seq 1 40)))
  = map (fun i => (Z.of_nat i, 0)) (seq 11 30).
Proof.
  refine (eq_trans
            (proj1 (histories_keep_newest_30
                      (TrackedObject.init 0 (person_at 0 0) 1)
                      (map (fun i => (person_at (Z.of_nat i) 0, Z.of_nat (S i))) (seq 1 40))
                      _ _)) _).
  - cbn. lia.
  - cbn. lia.
  - vm_compute. reflexivity.
Defined.

(** ** Along a stream from a fresh analyzer *)

(** X17.  When a track may be reported.  In a stream processed from a
    fresh analyzer, the cooldown test of the classifier lets the track [t]
    through at frame [k + 1] exactly when no event of any kind was reported
    for [t] in the 89 frames before; the frame counter then reads
    [k + 1]. *)
Theorem free_iff_no_recent_report (frames : list (list Detection)) (k : nat)
    (detections : list Detection) (t : Z) :
  nth_error frames k = Some detections ->
  let s := BehaviorAnalyzer.update_tracks
             (run BehaviorAnalyzer.init (firstn k frames)).2 detections in
  BehaviorAnalyzer.frame_count s = Z.of_nat (S k)
  /\ (BehaviorAnalyzer.in_cooldown (BehaviorAnalyzer.frame_count s)
                                   (BehaviorAnalyzer.alert_cooldown s) t = false
      <-> quiet_before t (run BehaviorAnalyzer.init frames).1 k).
Proof.
  intros Hk s.
  destruct (run_nth_error BehaviorAnalyzer.init frames k detections Hk) as [Hprefix _].
  pose proof (cooldown_is_last_report (firstn k frames) t) as Hinv.
  rewrite Hprefix in Hinv. apply in_cooldown_quiet in Hinv.
  assert (Hlt : (k < length frames)%nat) by (apply nth_error_Some; congruence).
  assert (Hfc : BehaviorAnalyzer.frame_count s = Z.of_nat (S k)).
  { subst s. rewrite frame_count_update_tracks, frame_count_run, length_firstn.
    cbn [BehaviorAnalyzer.init BehaviorAnalyzer.frame_count]. lia. }
  split; [exact Hfc|]. rewrite Hfc. subst s. rewrite alert_cooldown_update_tracks.
  exact Hinv.
Qed.

Lemma free_iff_no_recent_report_witness :
  ~ quiet_before 0 (run BehaviorAnalyzer.init (zigzag_walk 12)).1 10.
Proof.
  intros Hquiet.
  destruct (free_iff_no_recent_report (zigzag_walk 12) 10 [person_at 0 0] 0 eq_refl)
    as [_ [_ Hfree]].
  specialize (Hfree Hquiet). vm_compute in Hfree. discriminate Hfree.
Defined.

(** X18.  What holds of every analyzer the surveillance loop can reach
    from a fresh one: the keys of [tracked_objects] are pairwise distinct
    and below [next_object_id]; every track holds between 1 and 30
    positions (so [position_history[-1]] never fails) and as many boxes,
    and was first seen no later than it was last seen, which is no later
    than the current frame; and [frame_count] is the number of frames
    processed. *)
Theorem fresh_analyzer_invariants (frames : list (list Detection)) :
  let s := (run BehaviorAnalyzer.init frames).2 in
  List.NoDup (dict_keys (BehaviorAnalyzer.tracked_objects s))
  /\ Forall (fun item =>
               item.1 < BehaviorAnalyzer.next_object_id s
               /\ (1 <= length (TrackedObject.position_history item.2) <= 30)%nat
               /\ length (TrackedObject.position_history item.2)
                  = length (TrackedObject.bbox_history item.2)
               /\ TrackedObject.first_seen item.2 <= TrackedObject.last_seen item.2
                  <= BehaviorAnalyzer.frame_count s)
            (BehaviorAnalyzer.tracked_objects s)
  /\ BehaviorAnalyzer.frame_count s = Z.of_nat (length frames).
Proof.
  intros s. subst s.
  destruct (reachable_invariants frames BehaviorAnalyzer.init keys_inv_init)
    as [[Hnodup Hbelow] Htracks]; [constructor|].
  split; [exact Hnodup|]. split; [|rewrite frame_count_run; reflexivity].
  unfold tracks_inv, track_inv in Htracks. rewrite List.Forall_forall in *.
  intros [k o] Hin. cbn [fst snd].
  destruct (Htracks (k, o) Hin) as [(Hlen & Hbound & Hseen) Hframe]. cbn [snd] in *.
  split; [exact (Hbelow k (In_dict_keys _ _ _ Hin))|]. auto.
Qed.

(** ** The events of a pass, in order *)

Lemma classify_fold_in_order (frame : Z) (cooldown : gmap Z Z)
    (items : list (Z * TrackedObject.t)) :
  forall acc,
    List.NoDup (dict_keys items) ->
    (forall k, In k (dict_keys items) -> acc.2 !! k = cooldown !! k) ->
    (fold_left (BehaviorAnalyzer.analyze_object frame) items acc).1
    = acc.1 ++ flat_map (events_of_track frame cooldown) items.
Proof.
  induction items as [|[k o] items IH]; intros acc Hnodup Hagree; cbn [fold_left flat_map].
  - now rewrite app_nil_r.
  - cbn [dict_keys map fst] in Hnodup, Hagree.
    inversion Hnodup as [|? ? Hnotin Hnodup']; subst.
    rewrite IH; [|exact Hnodup'|].
    + rewrite analyze_object_unfold. unfold events_of_track. cbn [fst snd].
      rewrite (in_cooldown_ext frame acc.2 cooldown k (Hagree k (or_introl eq_refl))).
      destruct (String.eqb (TrackedObject.class_name o) "person"),
        (BehaviorAnalyzer.in_cooldown frame cooldown k);
        cbn [negb orb andb fst app]; rewrite <- ?app_assoc; reflexivity.
    + intros k' Hin. rewrite analyze_object_unfold.
      destruct (negb _ || _); [apply Hagree; right; exact Hin|]. cbn [snd].
      destruct (existsb _ kinds); [|apply Hagree; right; exact Hin].
      rewrite lookup_insert_ne; [apply Hagree; right; exact Hin|].
      intros ->. contradiction.
Qed.

(** X19.  The list of events of a frame.  When the keys of the dictionary
    are distinct, [detect_suspicious_behaviors] returns the events track
    by track in dictionary order, and for each track in the order fast
    movement, loitering, erratic movement; whether a track is cooling down
    is decided by the cooldowns as they stood before the pass. *)
Theorem events_in_dictionary_order (s : BehaviorAnalyzer.t) :
  List.NoDup (dict_keys (BehaviorAnalyzer.tracked_objects s)) ->
  (BehaviorAnalyzer.detect_suspicious_behaviors s).1
  = flat_map (events_of_track (BehaviorAnalyzer.frame_count s)
                              (BehaviorAnalyzer.alert_cooldown s))
             (BehaviorAnalyzer.tracked_objects s).
Proof.
  intros Hnodup. unfold BehaviorAnalyzer.detect_suspicious_behaviors. cbn [fst].
  rewrite (classify_fold_in_order _ (BehaviorAnalyzer.alert_cooldown s)); auto.
Qed.

Lemma events_in_dictionary_order_witness :
  (BehaviorAnalyzer.detect_suspicious_behaviors zigzag_frame_10).1
  = flat_map (events_of_track 10 ∅) (BehaviorAnalyzer.tracked_objects zigzag_frame_10).
Proof.
  apply (events_in_dictionary_order zigzag_frame_10).
  vm_compute. constructor; [intros [] | constructor].
Defined.

(** ** Eviction keeps the order *)

Lemma del_all_cons_other {V : Type} (ks : list Z) (k : Z) (v : V) :
  forall d, ~ In k ks ->
    fold_left (fun d obj_id => dict_del obj_id d) ks ((k, v) :: d)
    = (k, v) :: fold_left (fun d obj_id => dict_del obj_id d) ks d.
Proof.
  induction ks as [|k0 ks IH]; intros d Hnotin; cbn [fold_left]; [reflexivity|].
  cbn [dict_del]. destruct (Z.eqb_spec k k0) as [-> | Hne].
  - exfalso. apply Hnotin. left. reflexivity.
  - apply IH. intros Hin. apply Hnotin. right. exact Hin.
Qed.

Lemma del_all_is_filter {V : Type} (P : Z * V -> bool) (d : list (Z * V)) :
  List.NoDup (dict_keys d) ->
  fold_left (fun d obj_id => dict_del obj_id d) (map fst (List.filter P d)) d
  = List.filter (fun item => negb (P item)) d.
Proof.
  induction d as [|[k v] d IH]; intros Hnodup; cbn [List.filter]; [reflexivity|].
  cbn [dict_keys map fst] in Hnodup. inversion Hnodup as [|? ? Hnotin Hnodup']; subst.
  destruct (P (k, v)); cbn [map fst fold_left negb].
  - cbn [dict_del]. rewrite Z.eqb_refl. apply IH, Hnodup'.
  - rewrite del_all_cons_other; [f_equal; apply IH, Hnodup'|].
    intros Hin. apply in_map_iff in Hin as ([k' v'] & Heq & Hin). cbn [fst] in Heq. subst k'.
    apply List.filter_In in Hin as [Hin _]. apply Hnotin. exact (In_dict_keys _ _ _ Hin).
Qed.

(** X20.  Eviction is a filter.  The two closing loops of
    [update_tracks], which collect the keys of the old tracks and then
    delete them one by one, leave exactly the tracks seen during the last
    30 frames, in the order they had: the dictionary after the call is the
    dictionary after the matching loop without the tracks whose
    [last_seen] is more than 30 frames back. *)
Theorem eviction_is_a_filter (s : BehaviorAnalyzer.t) (detections : list Detection) :
  keys_inv s ->
  BehaviorAnalyzer.tracked_objects (BehaviorAnalyzer.update_tracks s detections)
  = List.filter
      (fun item => BehaviorAnalyzer.frame_count s + 1 - TrackedObject.last_seen item.2 <=? 30)
      (BehaviorAnalyzer.tracked_objects (BehaviorAnalyzer.match_all s detections).1).
Proof.
  intros Hkeys. destruct (keys_inv_match_all s detections Hkeys) as [Hnodup _].
  unfold BehaviorAnalyzer.update_tracks, BehaviorAnalyzer.remove_old.
  cbn [BehaviorAnalyzer.tracked_objects].
  rewrite (del_all_is_filter _ _ Hnodup), frame_count_match_all.
  apply List.filter_ext. intros item. unfold BehaviorAnalyzer.is_old.
  destruct (Z.ltb_spec 30 (BehaviorAnalyzer.frame_count s + 1 - TrackedObject.last_seen item.2));
    destruct (Z.leb_spec (BehaviorAnalyzer.frame_count s + 1 - TrackedObject.last_seen item.2) 30);
    try reflexivity; lia.
Qed.

Lemma eviction_is_a_filter_witness :
  dict_keys (BehaviorAnalyzer.tracked_objects
               (BehaviorAnalyzer.update_tracks (idle_after_one_person 29)
                                               [person_at 300 300])) = [0; 1]
  /\ dict_keys (BehaviorAnalyzer.tracked_objects
                  (BehaviorAnalyzer.update_tracks (idle_after_one_person 30)
                                                  [person_at 300 300])) = [1].
Proof.
  assert (H29 : keys_inv (idle_after_one_person 29))
    by (split; vm_compute; repeat constructor; intros []).
  assert (H30 : keys_inv (idle_after_one_person 30))
    by (split; vm_compute; repeat constructor; intros []).
  rewrite (eviction_is_a_filter (idle_after_one_person 29) [person_at 300 300] H29).
  rewrite (eviction_is_a_filter (idle_after_one_person 30) [person_at 300 300] H30).
  split; vm_compute; reflexivity.
Defined.

(** ** No alert before its time *)

Lemma first_seen_track_detection st detection :
  1 <= BehaviorAnalyzer.frame_count st.1 ->
  Forall (fun item => 1 <= TrackedObject.first_seen item.2)
         (BehaviorAnalyzer.tracked_objects st.1) ->
  Forall (fun item => 1 <= TrackedObject.first_seen item.2)
         (BehaviorAnalyzer.tracked_objects (BehaviorAnalyzer.track_detection st detection).1).
Proof.
  destruct st as [s m]. unfold BehaviorAnalyzer.track_detection. cbn [fst]. intros Hframe Hs.
  destruct (BehaviorAnalyzer.match_detection_to_tracked _ _ _) as [matched_id|];
    cbn [fst BehaviorAnalyzer.tracked_objects].
  - apply Forall_dict_alter; [exact Hs|]. intros o Ho. exact Ho.
  - apply Forall_dict_set; [exact Hs | exact Hframe].
Qed.

Lemma first_seen_match_loop detections :
  forall st,
    1 <= BehaviorAnalyzer.frame_count st.1 ->
    Forall (fun item => 1 <= TrackedObject.first_seen item.2)
           (BehaviorAnalyzer.tracked_objects st.1) ->
    Forall (fun item => 1 <= TrackedObject.first_seen item.2)
           (BehaviorAnalyzer.tracked_objects
              (fold_left BehaviorAnalyzer.track_detection detections st).1).
Proof.
  induction detections as [|d detections IH]; intros st Hframe Hst; cbn [fold_left];
    [exact Hst|].
  apply IH; [rewrite frame_count_track_detection; exact Hframe|].
  apply first_seen_track_detection; assumption.
Qed.

Lemma first_seen_update_tracks s detections :
  0 <= BehaviorAnalyzer.frame_count s ->
  Forall (fun item => 1 <= TrackedObject.first_seen item.2)
         (BehaviorAnalyzer.tracked_objects s) ->
  Forall (fun item => 1 <= TrackedObject.first_seen item.2)
         (BehaviorAnalyzer.tracked_objects (BehaviorAnalyzer.update_tracks s detections)).
Proof.
  intros Hframe Hs. unfold BehaviorAnalyzer.update_tracks, BehaviorAnalyzer.remove_old.
  cbn [BehaviorAnalyzer.tracked_objects]. apply Forall_dict_del_all.
  unfold BehaviorAnalyzer.match_all. apply first_seen_match_loop; [|exact Hs].
  cbn [fst BehaviorAnalyzer.next_frame BehaviorAnalyzer.frame_count]. lia.
Qed.

Lemma first_seen_run (frames : list (list Detection)) :
  forall s,
    0 <= BehaviorAnalyzer.frame_count s ->
    Forall (fun item => 1 <= TrackedObject.first_seen item.2)
           (BehaviorAnalyzer.tracked_objects s) ->
    Forall (fun item => 1 <= TrackedObject.first_seen item.2)
           (BehaviorAnalyzer.tracked_objects (run s frames).2).
Proof.
  induction frames as [|detections frames IH]; intros s Hframe Hs; [exact Hs|].
  rewrite run_cons_snd. apply IH.
  - rewrite frame_count_process_frame. lia.
  - rewrite tracked_objects_process_frame. apply first_seen_update_tracks; assumption.
Qed.

(** The time in view of a track the classifier sees at frame [k + 1] of a
    stream is at most [k + 1]. *)
Lemma time_in_view_bounded (frames : list (list Detection)) (detections : list Detection)
    (k : Z) (o : TrackedObject.t) :
  In (k, o) (BehaviorAnalyzer.tracked_objects
               (BehaviorAnalyzer.update_tracks (run BehaviorAnalyzer.init frames).2
                                               detections)) ->
  TrackedObject.time_in_view o <= Z.of_nat (S (length frames)).
Proof.
  intros Hin.
  destruct (reachable_invariants frames BehaviorAnalyzer.init keys_inv_init) as [_ Htracks];
    [constructor|].
  apply (tracks_inv_match_all _ detections) in Htracks.
  assert (Hlast : TrackedObject.last_seen o <= Z.of_nat (length frames) + 1).
  { unfold tracks_inv in Htracks. rewrite List.Forall_forall in Htracks.
    unfold BehaviorAnalyzer.update_tracks, BehaviorAnalyzer.remove_old in Hin.
    cbn [BehaviorAnalyzer.tracked_objects] in Hin. apply In_dict_del_all in Hin.
    destruct (Htracks (k, o) Hin) as [_ Hlast]. cbn [snd] in Hlast.
    rewrite frame_count_match_all, frame_count_run in Hlast.
    cbn [BehaviorAnalyzer.init BehaviorAnalyzer.frame_count] in Hlast. lia. }
  assert (Hfirst : 1 <= TrackedObject.first_seen o).
  { pose proof (first_seen_run frames BehaviorAnalyzer.init) as Hrun.
    cbn [BehaviorAnalyzer.init BehaviorAnalyzer.frame_count BehaviorAnalyzer.tracked_objects]
      in Hrun.
    specialize (Hrun (Z.le_refl 0) (List.Forall_nil _)).
    apply (first_seen_update_tracks _ detections) in Hrun.
    - rewrite List.Forall_forall in Hrun. exact (Hrun (k, o) Hin).
    - rewrite frame_count_run. cbn [BehaviorAnalyzer.init BehaviorAnalyzer.frame_count]. lia. }
  unfold TrackedObject.time_in_view. lia.
Qed.

(** X21.  No alert before its time.  In a stream processed from a fresh
    analyzer, a fast-movement event is reported at the eleventh frame at
    the earliest and a loitering event at the 151st, however many
    detections a frame holds: both checks compare [time_in_view], which
    counts frames, and no track was first seen before frame 1. *)
Theorem no_early_alerts (frames : list (list Detection)) (k : nat) (events : list Event)
    (e : Event) :
  nth_error (run BehaviorAnalyzer.init frames).1 k = Some events ->
  In e events ->
  (ev_behavior_type e = fast_movement -> (10 <= k)%nat)
  /\ (ev_behavior_type e = loitering -> (150 <= k)%nat).
Proof.
  intros Hk He.
  assert (Hlt : (k < length frames)%nat).
  { rewrite <- (run_length BehaviorAnalyzer.init). apply nth_error_Some. congruence. }
  destruct (nth_error frames k) as [detections|] eqn:Hd; [|apply nth_error_None in Hd; lia].
  destruct (run_nth_error BehaviorAnalyzer.init frames k detections Hd) as [_ Hevents].
  assert (Heq : events
                = (process_frame (run BehaviorAnalyzer.init (firstn k frames)).2 detections).1)
    by congruence.
  rewrite Heq in He. unfold process_frame in He.
  apply detect_origin in He as (id & o & kind & Hin & _ & Hq & ->).
  pose proof (time_in_view_bounded (firstn k frames) detections id o Hin) as Hview.
  rewrite length_firstn in Hview.
  assert (Hkind : ev_behavior_type (BehaviorAnalyzer.event_of kind id o) = kind)
    by (destruct kind; reflexivity).
  rewrite Hkind. split; intros ->; cbn [BehaviorAnalyzer.qualifies] in Hq;
    apply andb_prop in Hq as [_ Hq]; apply Z.ltb_lt in Hq;
    unfold BehaviorAnalyzer.LOITERING_THRESHOLD in *; lia.
Qed.

Lemma no_early_alerts_witness :
  ev_behavior_type (nth 0 straight_events_11 (sample_event 0 loitering)) = fast_movement
  /\ (10 <= 10)%nat.
Proof.
  assert (Hkind : ev_behavior_type (nth 0 straight_events_11 (sample_event 0 loitering))
                  = fast_movement) by (vm_compute; reflexivity).
  split; [exact Hkind|].
  refine (proj1 (no_early_alerts straight_walk 10 straight_events_11
                   (nth 0 straight_events_11 (sample_event 0 loitering)) _ _) Hkind).
  - vm_compute. reflexivity.
  - vm_compute. left. reflexivity.
Defined.

(** * The statistics of the tracks of a stream *)

(** ** The steps of a stored history *)












(** ** Erratic movement *)











(** * Loitering *)

(** ** The events of one track in one frame *)

Lemma events_for_flat_map_other (frame : Z) (cooldown : gmap Z Z) (t : Z)
    (items : list (Z * TrackedObject.t)) :
  ~ In t (dict_keys items) ->
  events_for t (flat_map (events_of_track frame cooldown) items) = [].
Proof.
  induction items as [|[k o] items IH]; intros Hnot; cbn [flat_map]; [reflexivity|].
  cbn [dict_keys map fst] in Hnot.
  rewrite events_for_app, IH by (intros H; apply Hnot; right; exact H).
  rewrite app_nil_r. unfold events_of_track. cbn [fst snd].
  destruct (_ && _); [|reflexivity].
  rewrite events_for_qualifying. destruct (Z.eqb_spec k t) as [-> | _]; [|reflexivity].
  exfalso. apply Hnot. left. reflexivity.
Qed.

Lemma events_for_events_of_track (frame : Z) (cooldown : gmap Z Z) (t : Z)
    (o : TrackedObject.t) :
  events_for t (events_of_track frame cooldown (t, o)) = events_of_track frame cooldown (t, o).
Proof.
  unfold events_of_track. cbn [fst snd]. destruct (_ && _); [|reflexivity].
  rewrite events_for_qualifying, Z.eqb_refl. reflexivity.
Qed.

(** With distinct keys, the events a pass reports for a track are those
    its own iteration appends. *)
Lemma detect_events_for (s : BehaviorAnalyzer.t) (t : Z) (o : TrackedObject.t) :
  List.NoDup (dict_keys (BehaviorAnalyzer.tracked_objects s)) ->
  In (t, o) (BehaviorAnalyzer.tracked_objects s) ->
  events_for t (BehaviorAnalyzer.detect_suspicious_behaviors s).1
  = events_of_track (BehaviorAnalyzer.frame_count s) (BehaviorAnalyzer.alert_cooldown s) (t, o).
Proof.
  intros Hnodup Hin. unfold BehaviorAnalyzer.detect_suspicious_behaviors. cbn [fst].
  rewrite (classify_fold_in_order _ (BehaviorAnalyzer.alert_cooldown s)) by auto.
  cbn [fst app].
  destruct (in_split _ _ Hin) as (l1 & l2 & Hsplit). rewrite Hsplit in Hnodup |- *.
  unfold dict_keys in Hnodup. rewrite map_app in Hnodup. cbn [map fst] in Hnodup.
  pose proof (NoDup_remove_2 _ _ _ Hnodup) as Hnot.
  rewrite flat_map_app. cbn [flat_map]. rewrite !events_for_app.
  rewrite (events_for_flat_map_other _ _ t l1)
    by (intros H; apply Hnot, in_or_app; left; exact H).
  rewrite (events_for_flat_map_other _ _ t l2)
    by (intros H; apply Hnot, in_or_app; right; exact H).
  rewrite app_nil_r. cbn [app]. apply events_for_events_of_track.
Qed.

Lemma loitering_of_qualifying (t : Z) (o : TrackedObject.t) :
  List.filter (fun e => bool_decide (ev_behavior_type e = loitering)) (qualifying_events t o)
  = if BehaviorAnalyzer.qualifies loitering o then [BehaviorAnalyzer.loitering_event t o]
    else [].
Proof.
  unfold qualifying_events, kinds. cbn [List.filter].
  destruct (BehaviorAnalyzer.qualifies fast_movement o),
    (BehaviorAnalyzer.qualifies loitering o),
    (BehaviorAnalyzer.qualifies erratic_movement o); reflexivity.
Qed.

(** The loitering report of one pass of the classifier for one track. *)
Lemma loitering_report (s : BehaviorAnalyzer.t) (t : Z) (o : TrackedObject.t) :
  List.NoDup (dict_keys (BehaviorAnalyzer.tracked_objects s)) ->
  In (t, o) (BehaviorAnalyzer.tracked_objects s) ->
  loitering_events_for t (BehaviorAnalyzer.detect_suspicious_behaviors s).1
  = (if String.eqb (TrackedObject.class_name o) "person"
        && negb (BehaviorAnalyzer.in_cooldown (BehaviorAnalyzer.frame_count s)
                                              (BehaviorAnalyzer.alert_cooldown s) t)
        && BehaviorAnalyzer.qualifies loitering o
     then [BehaviorAnalyzer.loitering_event t o] else [])
  /\ has_event t loitering (BehaviorAnalyzer.detect_suspicious_behaviors s).1
     = String.eqb (TrackedObject.class_name o) "person"
       && negb (BehaviorAnalyzer.in_cooldown (BehaviorAnalyzer.frame_count s)
                                             (BehaviorAnalyzer.alert_cooldown s) t)
       && BehaviorAnalyzer.qualifies loitering o.
Proof.
  intros Hnodup Hin. unfold loitering_events_for.
  rewrite has_event_events_for, (detect_events_for s t o Hnodup Hin).
  unfold events_of_track. cbn [fst snd].
  destruct (String.eqb (TrackedObject.class_name o) "person"
            && negb (BehaviorAnalyzer.in_cooldown _ _ t)); cbn [andb].
  - rewrite loitering_of_qualifying, has_event_qualifying. split; reflexivity.
  - split; reflexivity.
Qed.

Lemma free_to_alert_spec (s : BehaviorAnalyzer.t) (t : Z) :
  free_to_alert s t <->
  BehaviorAnalyzer.in_cooldown (BehaviorAnalyzer.frame_count s)
                               (BehaviorAnalyzer.alert_cooldown s) t = false.
Proof.
  unfold free_to_alert, BehaviorAnalyzer.in_cooldown, BehaviorAnalyzer.ALERT_COOLDOWN_FRAMES.
  destruct (BehaviorAnalyzer.alert_cooldown s !! t) as [L|].
  - rewrite Z.ltb_ge. split; [intros H; apply H; reflexivity | intros H L' [= <-]; exact H].
  - split; [reflexivity | intros _ L' [=]].
Qed.

(** ** The stationary run along a stream *)

Lemma stationary_inv_init (k : Z) (detection : Detection) (frame_number : Z) :
  stationary_inv (TrackedObject.init k detection frame_number).
Proof. split; [reflexivity | cbn; lia]. Qed.

Lemma stationary_inv_update (o : TrackedObject.t) (detection : Detection) (frame_number : Z) :
  stationary_inv o -> stationary_inv (TrackedObject.update o detection frame_number).
Proof.
  intros [Hflag Hrun]. unfold stationary_inv, TrackedObject.update.
  cbn [TrackedObject.is_stationary TrackedObject.stationary_frames].
  destruct (euclid _ _ <? 10)%float.
  - split; [|lia].
    destruct (Z.ltb_spec 30 (TrackedObject.stationary_frames o + 1)); [reflexivity|].
    rewrite Hflag. apply Z.ltb_ge. lia.
  - split; [reflexivity | lia].
Qed.

Lemma stationary_inv_frame (s0 : BehaviorAnalyzer.t) (frames : list (list Detection))
    (detections : list Detection) :
  tracks_stationary_inv s0 ->
  tracks_stationary_inv (BehaviorAnalyzer.update_tracks (run s0 frames).2 detections).
Proof.
  intros H0. unfold tracks_stationary_inv.
  apply (Forall_tracks_update_tracks (fun item => stationary_inv item.2)).
  - intros k d f. apply stationary_inv_init.
  - intros k o d f. apply stationary_inv_update.
  - apply (Forall_tracks_run (fun item => stationary_inv item.2)).
    + intros k d f. apply stationary_inv_init.
    + intros k o d f. apply stationary_inv_update.
    + exact H0.
Qed.

(** ** The frames of a stream *)

Lemma stream_frame (s0 : BehaviorAnalyzer.t) (frames : list (list Detection)) (k : nat)
    (detections : list Detection) :
  nth_error frames k = Some detections ->
  nth_error (run s0 frames).1 k
  = Some (BehaviorAnalyzer.detect_suspicious_behaviors
            (BehaviorAnalyzer.update_tracks (run s0 (firstn k frames)).2 detections)).1.
Proof. intros Hk. exact (proj2 (run_nth_error s0 frames k detections Hk)). Qed.

Lemma frame_count_stream_frame (s0 : BehaviorAnalyzer.t) (frames : list (list Detection))
    (k : nat) (detections : list Detection) :
  nth_error frames k = Some detections ->
  BehaviorAnalyzer.frame_count
    (BehaviorAnalyzer.update_tracks (run s0 (firstn k frames)).2 detections)
  = BehaviorAnalyzer.frame_count s0 + Z.of_nat (S k).
Proof.
  intros Hk. assert (Hlt : (k < length frames)%nat) by (apply nth_error_Some; congruence).
  rewrite frame_count_update_tracks, frame_count_run, length_firstn. lia.
Qed.

(** An event for a track silences it for the next 89 frames. *)
Lemma run_silence (frames : list (list Detection)) :
  forall (s : BehaviorAnalyzer.t) (t : Z) (i j : nat) (events_i events_j : list Event),
    nth_error (run s frames).1 i = Some events_i ->
    nth_error (run s frames).1 j = Some events_j ->
    (i < j <= i + 89)%nat ->
    events_for t events_i <> [] ->
    events_for t events_j = [].
Proof.
  induction frames as [|detections frames IH]; intros s t i j events_i events_j Hi Hj Hij Hfired.
  - destruct i; discriminate.
  - rewrite run_cons in Hi, Hj. destruct j as [|j]; [lia|]. cbn [nth_error] in Hj.
    destruct i as [|i]; cbn [nth_error] in Hi.
    + injection Hi as <-. apply process_frame_records in Hfired.
      apply (run_suppressed t _ frames _ j events_j Hfired Hj).
      rewrite frame_count_process_frame. lia.
    + apply (IH _ t i j events_i events_j Hi Hj); [lia | exact Hfired].
Qed.

(** While a track cools down its cooldown entry stays as it is. *)
Lemma run_cooldown_kept (t last_alert : Z) (frames : list (list Detection)) :
  forall s : BehaviorAnalyzer.t,
    BehaviorAnalyzer.alert_cooldown s !! t = Some last_alert ->
    BehaviorAnalyzer.frame_count s + Z.of_nat (length frames) - last_alert < 90 ->
    BehaviorAnalyzer.alert_cooldown (run s frames).2 !! t = Some last_alert.
Proof.
  induction frames as [|detections frames IH]; intros s Hlast Hlen; [exact Hlast|].
  cbn [length] in Hlen. rewrite run_cons_snd.
  destruct (process_frame_suppressed s detections t last_alert Hlast ltac:(lia)) as [_ Hc].
  apply IH; [exact Hc|]. rewrite frame_count_process_frame. lia.
Qed.

(** Ninety frames after an event for a track, the track is free again. *)
Lemma free_after_90 (s0 : BehaviorAnalyzer.t) (frames : list (list Detection)) (k : nat)
    (detections detections' : list Detection) (t : Z) :
  nth_error frames k = Some detections ->
  events_for t (BehaviorAnalyzer.detect_suspicious_behaviors
                  (BehaviorAnalyzer.update_tracks (run s0 (firstn k frames)).2 detections)).1
  <> [] ->
  nth_error frames (k + 90) = Some detections' ->
  free_to_alert
    (BehaviorAnalyzer.update_tracks (run s0 (firstn (k + 90) frames)).2 detections') t.
Proof.
  intros Hk Hfired Hk'.
  destruct (nth_error_split _ _ Hk) as (pre & post & Hsplit & Hlen).
  assert (Hpre : firstn k frames = pre).
  { rewrite Hsplit, <- Hlen, firstn_app, Nat.sub_diag, firstn_all. cbn [firstn].
    apply app_nil_r. }
  rewrite Hpre in Hfired.
  assert (Hpost : nth_error post 89 = Some detections').
  { rewrite Hsplit in Hk'. rewrite nth_error_app2 in Hk' by lia.
    replace (k + 90 - length pre)%nat with 90%nat in Hk' by lia. exact Hk'. }
  assert (Hfirst : firstn (k + 90) frames = pre ++ detections :: firstn 89 post).
  { rewrite Hsplit, firstn_app, (firstn_all2 pre) by lia.
    replace (k + 90 - length pre)%nat with 90%nat by lia. reflexivity. }
  assert (H89 : length (firstn 89 post) = 89%nat).
  { rewrite length_firstn. assert (89 < length post)%nat by (apply nth_error_Some; congruence).
    lia. }
  rewrite Hfirst, run_app. cbn [snd]. rewrite run_cons_snd.
  set (s := (run s0 pre).2) in *.
  change (BehaviorAnalyzer.detect_suspicious_behaviors
            (BehaviorAnalyzer.update_tracks s detections))
    with (process_frame s detections) in Hfired.
  apply process_frame_records in Hfired.
  pose proof (run_cooldown_kept t _ (firstn 89 post) _ Hfired) as Hkept.
  rewrite H89, frame_count_process_frame in Hkept. specialize (Hkept ltac:(lia)).
  intros L HL. rewrite alert_cooldown_update_tracks, Hkept in HL. injection HL as <-.
  rewrite frame_count_update_tracks, frame_count_run, H89, frame_count_process_frame. lia.
Qed.

(** ** Loitering events along a stream *)

(** C7, as the code has it.  Take any stream of frames, processed from an
    analyzer whose track ids are distinct and whose stationary flags agree
    with the stationary runs (a fresh analyzer is one), and a track [t]
    the analyzer holds when the classifier runs on frame [k].  (1) A
    loitering event is reported for [t] at that frame iff the track is a
    person, its stationary run exceeds 30, its time in view
    ([last_seen - first_seen + 1]) exceeds 150, and the track is free to
    alert: it has no last-alert frame, or one at least 90 frames old.
    (2) The stationary flag the code tests is [stationary run > 30].
    (3) From a fresh analyzer, the track is free to alert iff no event of
    any kind was reported for it on the 89 frames before.  (4) When the
    event is reported it is the only loitering event of the frame for the
    track and carries the confidence [min(time in view / 300, 1.0)]; no
    event of any kind follows for the track on the next 89 frames; and at
    the 90th frame after it the track is free to alert again, so that (1)
    decides by the track alone.  (5) The stationary run is 0 for a new
    track and is counted up by 1 by an update that moves the track less
    than 10 px and reset to 0 by any other; an update leaves [first_seen]
    and sets [last_seen] to the current frame. *)
Theorem loitering_once_per_cooldown (s0 : BehaviorAnalyzer.t)
    (frames : list (list Detection)) (k : nat) (detections : list Detection)
    (t : Z) (o : TrackedObject.t) :
  keys_inv s0 ->
  tracks_stationary_inv s0 ->
  nth_error frames k = Some detections ->
  In (t, o) (BehaviorAnalyzer.tracked_objects
               (BehaviorAnalyzer.update_tracks (run s0 (firstn k frames)).2 detections)) ->
  let s := BehaviorAnalyzer.update_tracks (run s0 (firstn k frames)).2 detections in
  let out := (run s0 frames).1 in
  let events := nth k out [] in
  (has_event t loitering events = true <->
   TrackedObject.class_name o = "person"%string
   /\ 30 < TrackedObject.stationary_frames o
   /\ 150 < TrackedObject.last_seen o - TrackedObject.first_seen o + 1
   /\ free_to_alert s t)
  /\ TrackedObject.is_stationary o = (30 <? TrackedObject.stationary_frames o)
  /\ (s0 = BehaviorAnalyzer.init -> (free_to_alert s t <-> quiet_before t out k))
  /\ (has_event t loitering events = true ->
      (exists e,
         loitering_events_for t events = [e]
         /\ ev_object_id e = t
         /\ ev_behavior_type e = loitering
         /\ ev_confidence e
            = py_min (float_of_Z (TrackedObject.last_seen o - TrackedObject.first_seen o + 1)
                      / 300)%float 1%float
         /\ ev_position e = TrackedObject.current_position o)
      /\ (forall j, (k < j <= k + 89)%nat -> events_for t (nth j out []) = [])
      /\ (forall detections',
            nth_error frames (k + 90) = Some detections' ->
            free_to_alert
              (BehaviorAnalyzer.update_tracks (run s0 (firstn (k + 90) frames)).2 detections')
              t))
  /\ (forall (o0 : TrackedObject.t) (d : Detection) (frame_number object_id : Z),
        TrackedObject.stationary_frames (TrackedObject.update o0 d frame_number)
        = (if ((det_center d).1 - (TrackedObject.current_position o0).1) ^ 2
              + ((det_center d).2 - (TrackedObject.current_position o0).2) ^ 2 <? 10 ^ 2
           then TrackedObject.stationary_frames o0 + 1 else 0)
        /\ TrackedObject.first_seen (TrackedObject.update o0 d frame_number)
           = TrackedObject.first_seen o0
        /\ TrackedObject.last_seen (TrackedObject.update o0 d frame_number) = frame_number
        /\ TrackedObject.stationary_frames (TrackedObject.init object_id d frame_number) = 0
        /\ TrackedObject.first_seen (TrackedObject.init object_id d frame_number)
           = frame_number
        /\ TrackedObject.last_seen (TrackedObject.init object_id d frame_number)
           = frame_number).
Proof.
  intros Hkeys0 Hstat0 Hk Hin s out events.
  assert (Hnodup : List.NoDup (dict_keys (BehaviorAnalyzer.tracked_objects s))).
  { apply (keys_inv_update_tracks _ detections (keys_inv_run (firstn k frames) s0 Hkeys0)). }
  assert (Hstat : stationary_inv o).
  { pose proof (stationary_inv_frame s0 (firstn k frames) detections Hstat0) as Hall.
    unfold tracks_stationary_inv in Hall. rewrite List.Forall_forall in Hall.
    exact (Hall (t, o) Hin). }
  destruct Hstat as [Hflag _].
  pose proof (stream_frame s0 frames k detections Hk) as Hnth. fold s out in Hnth.
  assert (Hevents : events = (BehaviorAnalyzer.detect_suspicious_behaviors s).1).
  { unfold events. exact (nth_error_nth _ _ [] Hnth). }
  destruct (loitering_report s t o Hnodup Hin) as [Hlist Hhas].
  rewrite <- Hevents in Hlist, Hhas.
  assert (Hchar : has_event t loitering events = true <->
                  TrackedObject.class_name o = "person"%string
                  /\ 30 < TrackedObject.stationary_frames o
                  /\ 150 < TrackedObject.last_seen o - TrackedObject.first_seen o + 1
                  /\ free_to_alert s t).
  { rewrite Hhas, free_to_alert_spec. cbn [BehaviorAnalyzer.qualifies].
    unfold BehaviorAnalyzer.LOITERING_THRESHOLD, TrackedObject.time_in_view.
    rewrite Hflag, !andb_true_iff, negb_true_iff, String.eqb_eq, !Z.ltb_lt. tauto. }
  split; [exact Hchar|]. split; [exact Hflag|]. split; [|split].
  - intros ->. rewrite free_to_alert_spec.
    unfold s at 1. rewrite (frame_count_stream_frame _ frames k detections Hk).
    unfold s. rewrite alert_cooldown_update_tracks.
    cbn [BehaviorAnalyzer.init BehaviorAnalyzer.frame_count]. rewrite Z.add_0_l.
    apply in_cooldown_quiet.
    pose proof (cooldown_is_last_report (firstn k frames) t) as Hinv.
    rewrite (proj1 (run_nth_error BehaviorAnalyzer.init frames k detections Hk)) in Hinv.
    exact Hinv.
  - intros Hfired. split; [|split].
    + rewrite Hhas in Hfired. rewrite Hfired in Hlist.
      exists (BehaviorAnalyzer.loitering_event t o).
      split; [exact Hlist|]. repeat split.
    + intros j Hj. destruct (nth_error out j) as [events_j|] eqn:Hnj.
      * rewrite (nth_error_nth _ _ [] Hnj).
        apply (run_silence frames s0 t k j events events_j); [|exact Hnj | exact Hj|].
        -- rewrite Hevents. exact Hnth.
        -- exact (has_event_nonempty _ _ _ Hfired).
      * rewrite nth_overflow by (apply nth_error_None; exact Hnj). reflexivity.
    + intros detections' Hk'.
      apply (free_after_90 s0 frames k detections detections' t Hk); [|exact Hk'].
      fold s. rewrite <- Hevents. exact (has_event_nonempty _ _ _ Hfired).
  - intros o0 d frame_number object_id.
    unfold TrackedObject.update. cbn [TrackedObject.stationary_frames TrackedObject.first_seen
                                      TrackedObject.last_seen TrackedObject.init].
    rewrite euclid_ltb_10. repeat split.
Qed.

Lemma loitering_once_per_cooldown_witness :
  30 < TrackedObject.stationary_frames
         (first_track (run BehaviorAnalyzer.init (one_per_frame (standing 151))).2)
  /\ exists e,
       loitering_events_for 0 standing_events_151 = [e]
       /\ ev_confidence e = py_min (float_of_Z 151 / 300)%float 1%float.
Proof.
  pose proof (loitering_once_per_cooldown
                BehaviorAnalyzer.init (one_per_frame (standing 151)) 150
                [person_at 100 100] 0
                (first_track (run BehaviorAnalyzer.init (one_per_frame (standing 151))).2))
    as H.
  destruct H as (Hchar & _ & _ & Hevent & _).
  - split; constructor.
  - constructor.
  - vm_compute. reflexivity.
  - vm_compute. left. reflexivity.
  - assert (Hfired : has_event 0 loitering
                       (nth 150 (run BehaviorAnalyzer.init (one_per_frame (standing 151))).1 [])
                     = true) by (vm_compute; reflexivity).
    split; [exact (proj1 (proj2 (proj1 Hchar Hfired)))|].
    destruct (proj1 (Hevent Hfired)) as (e & Hlist & _ & _ & Hconf & _).
    exists e. split; [exact Hlist|]. rewrite Hconf. vm_compute. reflexivity.
Defined.

(** The claim of the specification fails for a person who shifts by one
    pixel back and forth: the displacement is 1 px per frame, but every
    step reverses the one before, so the track is reported as erratic at
    frames 10 and 100; at frame 151, the first with a stationary run above
    30 and a time in view above 150, it is still cooling down and nothing
    is reported.  Its first loitering event comes at frame 190. *)
Lemma loitering_delayed_by_other_alert :
  ~ loitering_at_first_qualifying_frame_claim
  /\ nth_error (run BehaviorAnalyzer.init (one_per_frame (jitter 190))).1 150 = Some []
  /\ map (fun events => has_event 0 loitering events)
         (skipn 150 (run BehaviorAnalyzer.init (one_per_frame (jitter 190))).1)
     = repeat false 39 ++ [true].
Proof.
  split; [|split; vm_compute; reflexivity].
  intros Hclaim.
  assert (Hlone : lone_stationary_person (jitter 151) = true) by (vm_compute; reflexivity).
  assert (Hk : nth_error (run BehaviorAnalyzer.init (one_per_frame (jitter 151))).1 150
               = Some []) by (vm_compute; reflexivity).
  specialize (Hclaim (jitter 151) [] Hlone Hk). discriminate Hclaim.
Qed.


(** * Speed *)






